(** * a1fs: an extent-based file system over a memory-mapped image

    Shallow embedding of the allocator, the block iterator, the path
    resolver, the directory operations, the file I/O core, the statistics
    entry point and the formatter (fs_utils.c, a1fs.c, mkfs.c), followed by
    the properties established about them.

    Conventions.
    - Unsigned C integers are [Z] values with the wrap-around written at
      every store ([u32], [u64]); [int] variables are [Z] values, and the
      conversion of an unsigned value to [int] is [i32].
    - The mapped image is seen through the four typed views that
      [fs_ctx_init] sets up: the superblock, the data bitmap (bytes), the
      inode table and the data region (bytes).  A view indexed by a C
      pointer or subscript is a total function of the offset, updated
      pointwise.
    - In C the views are windows of one buffer, each beginning at the block
      that the superblock names ([d_bitmap_offset], [inode_table_offset],
      [data_blks_offset]); a store through one view past its blocks lands
      in the next one.  The functions below keep the views apart: they are
      the code on the runs in which every access stays inside the blocks
      of its view, and only on these.  The one loop of the code that
      indexes a view without a bound tied to its blocks is the marking
      loop of [update_last_extent]; [marks_within_image] says of a state
      that no mark lies outside, the statements on what
      [allocate_data_blocks], [a1fs_truncate] and [a1fs_write] leave in
      the inode table assume it of the state of the call and of the state
      reached, and the scenario on [overrun_image] is a run that leaves
      the domain.
    - A pointer into the image is the offset it designates; a pointer to an
      extent record is an [extent_ptr], so that a record held by the block
      iterator is read in the state current at the time of the read. *)

From Stdlib Require Import ZArith List Lia Bool String Ascii.
Import ListNotations.
Open Scope Z_scope.

(** ** Machine integers *)

Definition u32 (z : Z) : Z := z mod 2 ^ 32.
Definition u64 (z : Z) : Z := z mod 2 ^ 64.
Definition i32 (z : Z) : Z := (z + 2 ^ 31) mod 2 ^ 32 - 2 ^ 31.
Definition u8 (z : Z) : Z := z mod 256.

(** ** Constants of a1fs.h and util.h *)

(** Modelled from the spec: a1fs.h is not part of the sources at hand; the
    block size B is 4096 bytes and the macro is a plain [int] constant. *)
Definition A1FS_BLOCK_SIZE : Z := 4096.

(** Modelled from the spec: NAME_MAX = 252, terminator included. *)
Definition A1FS_NAME_MAX : Z := 252.

(** Modelled from the spec: PATH_MAX of the host, terminator included. *)
Definition A1FS_PATH_MAX : Z := 4096.

(** Modelled from the spec: the inline extent array has capacity K = 10. *)
Definition A1FS_NUM_DIRECT_EXTENT : Z := 10.

(** Modelled from the spec: an inode record takes 256 bytes, hence 16 per
    block. *)
Definition sizeof_a1fs_inode : Z := 256.
Definition NUM_INODES_PER_BLOCK : Z := A1FS_BLOCK_SIZE / sizeof_a1fs_inode.

(** Modelled from the spec: a directory entry takes 256 bytes (a 32-bit
    inode number followed by the name), hence 16 per block. *)
Definition sizeof_a1fs_dentry : Z := 256.
Definition NUM_DENTRY_PER_BLOCK : Z := A1FS_BLOCK_SIZE / sizeof_a1fs_dentry.
Definition dentry_name_off : Z := 4.

(** Modelled from the spec: an extent is a pair of 32-bit block numbers. *)
Definition sizeof_a1fs_extent : Z := 8.

(** Modelled from the spec: the fixed sentinel of a formatted image; its
    value plays no role below. *)
Definition A1FS_MAGIC : Z := 0xC5C369A1C5C369A1.

(** Modelled from the spec: util.h is not part of the sources at hand;
    [Ceil] is the rounded-up quotient and [Min] the smaller argument. *)
Definition Ceil (x y : Z) : Z := (x + y - 1) / y.
Definition Min (x y : Z) : Z := if x <? y then x else y.

Definition ENOENT : Z := 2.
Definition ENOMEM : Z := 12.
Definition EFAULT : Z := 14.
Definition ENOTDIR : Z := 20.
Definition ENOSPC : Z := 28.
Definition ENAMETOOLONG : Z := 36.
Definition ENOTEMPTY : Z := 39.

Definition S_IFMT : Z := 0xF000.   (* 0170000 *)
Definition S_IFDIR : Z := 0x4000.  (* 0040000 *)
Definition S_IFREG : Z := 0x8000.  (* 0100000 *)
Definition S_ISDIR (mode : Z) : bool := Z.land mode S_IFMT =? S_IFDIR.
Definition S_ISREG (mode : Z) : bool := Z.land mode S_IFMT =? S_IFREG.

(** ** The image and its typed views *)

(** Modelled from the spec: the structure declarations of a1fs.h and
    fs_ctx.h are not part of the sources at hand.  The records below have
    the fields that the code reads and writes, under the names it uses
    (the two fields called [size] are [s_size] and [i_size]); block, inode
    and extent numbers and the counters are 32 bits wide, the two sizes 64
    bits. *)
Record a1fs_superblock := mk_superblock {
  magic : Z;
  s_size : Z;              (* image size in bytes, 64 bits *)
  num_inodes : Z;
  num_free_inodes : Z;
  num_tot_dblocks : Z;
  num_free_dblocks : Z;
  data_bitmap : Z;
  s_inode_table : Z;
  data_blk : Z
}.

Record a1fs_extent := mk_extent { e_start : Z; e_count : Z }.

Record timespec := mk_timespec { tv_sec : Z; tv_nsec : Z }.

Record a1fs_inode := mk_inode {
  mode : Z;
  links : Z;
  i_size : Z;              (* file size in bytes, 64 bits *)
  mtime : timespec;
  num_extents : Z;
  direct_extents : Z -> a1fs_extent;
  indirect_extent_blk : Z
}.

(** The context: the size of the image and the four views, kept apart
    (see the conventions above and [fs_ctx_init] below). *)
Record fs_ctx := mk_fs {
  fs_size : Z;
  superblock : a1fs_superblock;
  d_bitmap : Z -> Z;
  inode_table : Z -> a1fs_inode;
  data_blks : Z -> Z
}.

Record a1fs_tuple := mk_tuple { t_start : Z; t_end : Z }.

(** ** fs_ctx_init (fs_ctx.c) *)

(** [fs_ctx_init] makes every view a pointer into the one mapped image:
    the superblock at block 1, the data bitmap, the inode table and the
    data region at the blocks that the superblock names.  These are the
    offsets of the views in the image, in bytes; byte [k] of the bitmap
    view is the byte [d_bitmap_offset fs + k] of the image, and the record
    of inode [i] begins at [inode_table_offset fs + i * sizeof_a1fs_inode]. *)
Definition superblock_offset : Z := A1FS_BLOCK_SIZE.
Definition d_bitmap_offset (fs : fs_ctx) : Z :=
  data_bitmap (superblock fs) * A1FS_BLOCK_SIZE.
Definition inode_table_offset (fs : fs_ctx) : Z :=
  s_inode_table (superblock fs) * A1FS_BLOCK_SIZE.
Definition data_blks_offset (fs : fs_ctx) : Z :=
  data_blk (superblock fs) * A1FS_BLOCK_SIZE.

(** Number of bits of the bitmap view that lie before the inode table. *)
Definition bitmap_bits (fs : fs_ctx) : Z :=
  8 * (inode_table_offset fs - d_bitmap_offset fs).

(** Pointwise update of a view. *)
Definition upd {A : Type} (m : Z -> A) (k : Z) (v : A) : Z -> A :=
  fun a => if a =? k then v else m a.

Definition set_superblock (fs : fs_ctx) (sb : a1fs_superblock) : fs_ctx :=
  mk_fs (fs_size fs) sb (d_bitmap fs) (inode_table fs) (data_blks fs).
Definition set_d_bitmap (fs : fs_ctx) (bm : Z -> Z) : fs_ctx :=
  mk_fs (fs_size fs) (superblock fs) bm (inode_table fs) (data_blks fs).
Definition set_inode_table (fs : fs_ctx) (t : Z -> a1fs_inode) : fs_ctx :=
  mk_fs (fs_size fs) (superblock fs) (d_bitmap fs) t (data_blks fs).
Definition set_data_blks (fs : fs_ctx) (d : Z -> Z) : fs_ctx :=
  mk_fs (fs_size fs) (superblock fs) (d_bitmap fs) (inode_table fs) d.
Definition set_inode (fs : fs_ctx) (ino : Z) (i : a1fs_inode) : fs_ctx :=
  set_inode_table fs (upd (inode_table fs) ino i).

Definition sb_set_free_inodes (sb : a1fs_superblock) (v : Z) :=
  mk_superblock (magic sb) (s_size sb) (num_inodes sb) v (num_tot_dblocks sb)
    (num_free_dblocks sb) (data_bitmap sb) (s_inode_table sb) (data_blk sb).
Definition sb_set_free_dblocks (sb : a1fs_superblock) (v : Z) :=
  mk_superblock (magic sb) (s_size sb) (num_inodes sb) (num_free_inodes sb)
    (num_tot_dblocks sb) v (data_bitmap sb) (s_inode_table sb) (data_blk sb).

Definition i_set_links (i : a1fs_inode) (v : Z) :=
  mk_inode (mode i) v (i_size i) (mtime i) (num_extents i) (direct_extents i)
    (indirect_extent_blk i).
Definition i_set_size (i : a1fs_inode) (v : Z) :=
  mk_inode (mode i) (links i) v (mtime i) (num_extents i) (direct_extents i)
    (indirect_extent_blk i).
Definition i_set_mtime (i : a1fs_inode) (v : timespec) :=
  mk_inode (mode i) (links i) (i_size i) v (num_extents i) (direct_extents i)
    (indirect_extent_blk i).
Definition i_set_num_extents (i : a1fs_inode) (v : Z) :=
  mk_inode (mode i) (links i) (i_size i) (mtime i) v (direct_extents i)
    (indirect_extent_blk i).
Definition i_set_direct_extents (i : a1fs_inode) (v : Z -> a1fs_extent) :=
  mk_inode (mode i) (links i) (i_size i) (mtime i) (num_extents i) v
    (indirect_extent_blk i).
Definition i_set_indirect (i : a1fs_inode) (v : Z) :=
  mk_inode (mode i) (links i) (i_size i) (mtime i) (num_extents i)
    (direct_extents i) v.

(** ** The data bitmap

    [d_bitmap] is an array of [char]; only the bit pattern of a byte matters
    to the tests and updates below, so a byte is kept as its value in
    0..255. *)

(** [0 != (d_bitmap[i / 8] & (1 << (i % 8)))] for an unsigned [i]. *)
Definition bit_is_set (bm : Z -> Z) (i : Z) : bool :=
  negb (Z.land (bm (i / 8)) (Z.shiftl 1 (i mod 8)) =? 0).

(** [d_bitmap[b/8] = d_bitmap[b/8] | (1 << (b % 8))] for an [int] b. *)
Definition bitmap_set (bm : Z -> Z) (b : Z) : Z -> Z :=
  upd bm (Z.quot b 8) (u8 (Z.lor (bm (Z.quot b 8)) (Z.shiftl 1 (Z.rem b 8)))).

(** [d_bitmap[b/8] = d_bitmap[b/8] & ~(1 << (b % 8))] for an unsigned b. *)
Definition bitmap_clear (bm : Z -> Z) (b : Z) : Z -> Z :=
  upd bm (b / 8) (u8 (Z.land (bm (b / 8)) (Z.lnot (Z.shiftl 1 (b mod 8))))).

(** Number of data blocks among the first [n] whose bit is 0. *)
Fixpoint count_zero_bits (bm : Z -> Z) (n : nat) : Z :=
  match n with
  | O => 0
  | S n' => count_zero_bits bm n'
            + (if bit_is_set bm (Z.of_nat n') then 0 else 1)
  end.

(** ** first_free_sequence (fs_utils.c) *)

Record ffs_state := mk_ffs { max_s : Z; max_e : Z; cur_start : Z; cur_end : Z }.

(** The update guarded by [end-start > max_e-max_s]. *)
Definition ffs_update_max (st : ffs_state) : ffs_state :=
  if cur_end st - cur_start st >? max_e st - max_s st
  then mk_ffs (cur_start st) (cur_end st - 1) (cur_start st) (cur_end st)
  else st.

(** The [for] loop over the bitmap, [n] iterations left, at bit [i].  The
    result is either the tuple of the early [return] or the state at loop
    exit. *)
Fixpoint ffs_scan (n : nat) (i needed : Z) (bm : Z -> Z) (st : ffs_state)
  : a1fs_tuple + ffs_state :=
  match n with
  | O => inr st
  | S n' =>
      if bit_is_set bm i then
        if cur_end st - cur_start st =? needed
        then inl (mk_tuple (cur_start st) (cur_end st))
        else
          let st1 := ffs_update_max st in
          ffs_scan n' (i + 1) needed bm
            (mk_ffs (max_s st1) (max_e st1) (cur_end st1 + 1) (cur_end st1 + 1))
      else
        ffs_scan n' (i + 1) needed bm
          (mk_ffs (max_s st) (max_e st) (cur_start st) (cur_end st + 1))
  end.

Definition first_free_sequence (needed : Z) (fs : fs_ctx) : a1fs_tuple :=
  match ffs_scan (Z.to_nat (num_tot_dblocks (superblock fs))) 0 needed
          (d_bitmap fs) (mk_ffs 0 0 0 0) with
  | inl t => t
  | inr st =>
      let st1 := ffs_update_max st in
      if max_e st1 - max_s st1 >=? needed
      then mk_tuple (cur_start st1) (cur_start st1 + needed - 1)
      else mk_tuple (max_s st1) (max_e st1)
  end.

(** ** tail_length (fs_utils.c) *)

Fixpoint tail_scan (n : nat) (i len : Z) (bm : Z -> Z) : Z :=
  match n with
  | O => len
  | S n' => if bit_is_set bm i then len else tail_scan n' (i + 1) (len + 1) bm
  end.

Definition tail_length (start : Z) (fs : fs_ctx) : Z :=
  tail_scan (Z.to_nat (num_tot_dblocks (superblock fs) - start)) start 0
    (d_bitmap fs).

(** ** Extent records and get_extent (fs_utils.c)

    Extent records live either in the inode or in the indirect block of the
    data region, as two little-endian 32-bit words. *)

Definition load_u32 (m : Z -> Z) (a : Z) : Z :=
  m a + 256 * m (a + 1) + 65536 * m (a + 2) + 16777216 * m (a + 3).

Definition store_u32 (m : Z -> Z) (a v : Z) : Z -> Z :=
  upd (upd (upd (upd m a (v mod 256))
                (a + 1) ((v / 256) mod 256))
           (a + 2) ((v / 65536) mod 256))
      (a + 3) ((v / 16777216) mod 256).

Inductive extent_ptr :=
| DirectExtent (ino index : Z)     (* &inode->direct_extents[index] *)
| IndirectExtent (addr : Z).       (* offset in the data region *)

Definition get_extent (ino index : Z) (fs : fs_ctx) : extent_ptr :=
  if index <? A1FS_NUM_DIRECT_EXTENT then DirectExtent ino index
  else IndirectExtent
         (u32 (indirect_extent_blk (inode_table fs ino) * A1FS_BLOCK_SIZE)
          + (index - A1FS_NUM_DIRECT_EXTENT) * sizeof_a1fs_extent).

Definition load_extent (fs : fs_ctx) (p : extent_ptr) : a1fs_extent :=
  match p with
  | DirectExtent ino index => direct_extents (inode_table fs ino) index
  | IndirectExtent a =>
      mk_extent (load_u32 (data_blks fs) a) (load_u32 (data_blks fs) (a + 4))
  end.

Definition store_extent_start (fs : fs_ctx) (p : extent_ptr) (v : Z) : fs_ctx :=
  match p with
  | DirectExtent ino index =>
      let i := inode_table fs ino in
      set_inode fs ino
        (i_set_direct_extents i
           (upd (direct_extents i) index
              (mk_extent (u32 v) (e_count (direct_extents i index)))))
  | IndirectExtent a => set_data_blks fs (store_u32 (data_blks fs) a (u32 v))
  end.

Definition store_extent_count (fs : fs_ctx) (p : extent_ptr) (v : Z) : fs_ctx :=
  match p with
  | DirectExtent ino index =>
      let i := inode_table fs ino in
      set_inode fs ino
        (i_set_direct_extents i
           (upd (direct_extents i) index
              (mk_extent (e_start (direct_extents i index)) (u32 v))))
  | IndirectExtent a =>
      set_data_blks fs (store_u32 (data_blks fs) (a + 4) (u32 v))
  end.

(** ** update_last_extent (fs_utils.c) *)

(** [for(int b = start; b < start+count; b++)] setting bit b: [n] iterations
    left, at block [b].  The loop has no bound tied to the bitmap: a bit at
    or past [bitmap_bits] is, in C, a bit of the inode table or of the data
    region, which the separate bitmap view below does not show. *)
Fixpoint mark_bits (n : nat) (b : Z) (bm : Z -> Z) : Z -> Z :=
  match n with
  | O => bm
  | S n' => mark_bits n' (b + 1) (bitmap_set bm b)
  end.

Definition dec_free_dblocks (fs : fs_ctx) (by_ : Z) : fs_ctx :=
  set_superblock fs
    (sb_set_free_dblocks (superblock fs)
       (u32 (num_free_dblocks (superblock fs) - by_))).

(** The code calls the function on an inode that has an extent
    ([allocate_data_blocks] tests or increments [num_extents] first).  On
    an inode without extent the C code stores before [direct_extents],
    into other fields of the record; the cell [-1] that the function
    below updates stands for none of them, and nothing is stated of that
    case. *)
Definition update_last_extent (ino start count : Z) (fs : fs_ctx) : fs_ctx :=
  (* Mark the bitmap *)
  let fs1 := set_d_bitmap fs (mark_bits (Z.to_nat count) start (d_bitmap fs)) in
  (* We need to allocate a new indirect block *)
  let fs2 :=
    if num_extents (inode_table fs1 ino) =? A1FS_NUM_DIRECT_EXTENT + 1 then
      let indirect_block := first_free_sequence 1 fs1 in
      let fs1a :=
        set_d_bitmap fs1 (bitmap_set (d_bitmap fs1) (t_start indirect_block)) in
      let fs1b := dec_free_dblocks fs1a 1 in
      set_inode fs1b ino
        (i_set_indirect (inode_table fs1b ino) (u32 (t_start indirect_block)))
    else fs1 in
  let extent :=
    get_extent ino (i32 (num_extents (inode_table fs2 ino) - 1)) fs2 in
  (* Update the inode and the extent's content *)
  let fs3 := store_extent_start fs2 extent start in
  let old_count := e_count (load_extent fs3 extent) in
  let count_additional_blocks :=
    if negb (old_count =? 0) then i32 (count - old_count) else count in
  let fs4 := store_extent_count fs3 extent count in
  dec_free_dblocks fs4 count_additional_blocks.

(** ** allocate_data_blocks (fs_utils.c) *)

Definition inc_num_extents (ino : Z) (fs : fs_ctx) : fs_ctx :=
  let i := inode_table fs ino in
  set_inode fs ino (i_set_num_extents i (u32 (num_extents i + 1))).

(** The [while (0 < remainder)] loop.  [None] stands for an exhausted
    iteration budget; [alloc_loop_total] below shows that a budget of
    [remainder] iterations never runs out. *)
Fixpoint alloc_loop (fuel : nat) (remainder ino : Z) (fs : fs_ctx)
  : option (Z * fs_ctx) :=
  if 0 <? remainder then
    match fuel with
    | O => None
    | S fuel' =>
        (* Find the longest free sequence *)
        let new_extent_info := first_free_sequence remainder fs in
        let len := t_end new_extent_info - t_start new_extent_info + 1 in
        let remainder' := remainder - len in
        if num_extents (inode_table fs ino) =? 512 then Some (- ENOSPC, fs)
        else
          let fs1 := inc_num_extents ino fs in
          let fs2 := update_last_extent ino (t_start new_extent_info) len fs1 in
          alloc_loop fuel' remainder' ino fs2
    end
  else Some (0, fs).

(** Extension of the last extent, done before the loop; yields the state
    and the value of [remainder] on entry to the loop. *)
Definition extend_last_extent (ino blks_needed : Z) (fs : fs_ctx)
  : Z * fs_ctx :=
  let remainder := i32 blks_needed in
  let inode := inode_table fs ino in
  if negb (num_extents inode =? 0) then
    let last_extent :=
      load_extent fs (get_extent ino (i32 (num_extents inode - 1)) fs) in
    let room_for_growth :=
      u32 (tail_length (u32 (e_start last_extent + e_count last_extent)) fs) in
    let ext_start := i32 (e_start last_extent + e_count last_extent) in
    if negb (room_for_growth =? 0) then
      let '(remainder1, ext_end) :=
        if room_for_growth >=? blks_needed
        then (remainder, i32 (ext_start + blks_needed - 1))
        else
          let r := i32 (blks_needed - room_for_growth) in
          (r, i32 (ext_start + blks_needed - r - 1)) in
      (remainder1,
       update_last_extent ino (i32 (e_start last_extent))
         (i32 (ext_end - e_start last_extent + 1)) fs)
    else (remainder, fs)
  else (remainder, fs).

Definition allocate_data_blocks (ino size : Z) (fs : fs_ctx)
  : option (Z * fs_ctx) :=
  let inode := inode_table fs ino in
  let size1 :=
    if negb (i_size inode mod A1FS_BLOCK_SIZE =? 0)
    then u64 (size - i_size inode mod A1FS_BLOCK_SIZE)
    else size in
  (* The number of blocks needed to allocate *)
  let blks_needed := u32 (Ceil size1 A1FS_BLOCK_SIZE) in
  if blks_needed =? 0 then Some (0, fs)
  else if num_free_dblocks (superblock fs) <? blks_needed
  then Some (- ENOSPC, fs)
  else
    let '(remainder, fs1) := extend_last_extent ino blks_needed fs in
    alloc_loop (Z.to_nat remainder) remainder ino fs1.

(** ** The block iterator (fs_utils.c) *)

Record a1fs_block_iterator := mk_iter {
  it_inode : Z;
  cur_extent : option extent_ptr;     (* [None] is the NULL pointer *)
  extent_index : Z;
  blk_in_extent_index : Z
}.

Definition block_iterator_init (ino : Z) (fs : fs_ctx) : a1fs_block_iterator :=
  mk_iter ino
    (if negb (num_extents (inode_table fs ino) =? 0)
     then Some (get_extent ino 0 fs) else None)
    0 0.

(** The value returned is the offset of the block in the data region
    ([None] for NULL), together with the iterator after the call. *)
Definition block_iterator_next_blk (b_iter : a1fs_block_iterator) (fs : fs_ctx)
  : option Z * a1fs_block_iterator :=
  match cur_extent b_iter with
  | None => (None, b_iter)
  | Some p =>
      let yield (it : a1fs_block_iterator) (q : extent_ptr) :=
        (Some (u32 (u32 (e_start (load_extent fs q) + blk_in_extent_index it)
                    * A1FS_BLOCK_SIZE)),
         mk_iter (it_inode it) (cur_extent it) (extent_index it)
           (u32 (blk_in_extent_index it + 1))) in
      if blk_in_extent_index b_iter =? e_count (load_extent fs p) then
        let ei := u32 (extent_index b_iter + 1) in
        if ei =? num_extents (inode_table fs (it_inode b_iter))
        then (None, mk_iter (it_inode b_iter) (cur_extent b_iter) ei
                      (blk_in_extent_index b_iter))
        else
          let q := get_extent (it_inode b_iter) (i32 ei) fs in
          yield (mk_iter (it_inode b_iter) (Some q) ei 0) q
      else yield b_iter p
  end.

(** Number of blocks covered by the first [n] extents of an inode. *)
Fixpoint extents_block_count (n : nat) (ino : Z) (fs : fs_ctx) : Z :=
  match n with
  | O => 0
  | S n' => extents_block_count n' ino fs
            + e_count (load_extent fs (get_extent ino (Z.of_nat n') fs))
  end.

(** Iteration budget of a [while (NULL != block_iterator_next_blk(..))]
    loop: one call per block of the inode and the final call that returns
    NULL.  A loop that outlives it (which takes an extent of length 0 past
    the first one) is outside the model and yields [None]. *)
Definition iter_fuel (ino : Z) (fs : fs_ctx) : nat :=
  S (Z.to_nat
       (extents_block_count (Z.to_nat (num_extents (inode_table fs ino))) ino fs)).

(** ** C strings *)

Definition byte_of_ascii (c : ascii) : Z := Z.of_N (N_of_ascii c).

(** The bytes of a C string: everything before the first NUL. *)
Fixpoint cstr (s : string) : list Z :=
  match s with
  | EmptyString => []
  | String c s' => if byte_of_ascii c =? 0 then [] else byte_of_ascii c :: cstr s'
  end.

Definition slash : Z := 47.

(** [strncpy(buf, src, n)] into a local buffer followed by its use as a
    string: the first [n] bytes of [src]. *)
Definition strncpy_local (src : list Z) (n : Z) : list Z :=
  firstn (Z.to_nat n) src.

(** The successive results of [strtok(path, "/")]; [cur] accumulates the
    component being read, in reverse. *)
Fixpoint strtok_all (s cur : list Z) : list (list Z) :=
  match s with
  | [] => match cur with [] => [] | _ => [rev cur] end
  | c :: s' =>
      if c =? slash
      then match cur with
           | [] => strtok_all s' []
           | _ => rev cur :: strtok_all s' []
           end
      else strtok_all s' (c :: cur)
  end.

(** [0 == strcmp(p, s)] for the string stored at offset [a] of [m]. *)
Fixpoint strcmp_eq (m : Z -> Z) (a : Z) (s : list Z) : bool :=
  match s with
  | [] => m a =? 0
  | c :: s' => (m a =? c) && strcmp_eq m (a + 1) s'
  end.

(** [strncpy(dst, src, n)] into the data region: [n] bytes are written, the
    bytes of [src] first, NUL padding after them. *)
Definition strncpy_mem (m : Z -> Z) (dst : Z) (src : list Z) (n : Z) : Z -> Z :=
  fun a =>
    if (dst <=? a) && (a <? dst + n)
    then nth (Z.to_nat (a - dst)) src 0
    else m a.

(** [strrchr(path, '/')]: the bytes before the last slash and those after
    it; [None] when the path has no slash. *)
Fixpoint split_last_slash (s : list Z) : option (list Z * list Z) :=
  match s with
  | [] => None
  | c :: s' =>
      match split_last_slash s' with
      | Some (pre, name) => Some (c :: pre, name)
      | None => if c =? slash then Some ([], s') else None
      end
  end.

(** ** path_lookup (fs_utils.c) *)

Definition dentry_addr (blk d_ind : Z) : Z := blk + d_ind * sizeof_a1fs_dentry.
Definition dentry_name (blk d_ind : Z) : Z := dentry_addr blk d_ind + dentry_name_off.
Definition dentry_ino (fs : fs_ctx) (blk d_ind : Z) : Z :=
  load_u32 (data_blks fs) (dentry_addr blk d_ind).

(** The [for] loop over the entries of one block. *)
Fixpoint lookup_dentries (n : nat) (d_ind blk : Z) (component : list Z)
    (cur_inode_num : Z) (fs : fs_ctx) : Z :=
  match n with
  | O => cur_inode_num
  | S n' =>
      lookup_dentries n' (d_ind + 1) blk component
        (if strcmp_eq (data_blks fs) (dentry_name blk d_ind) component
         then i32 (dentry_ino fs blk d_ind) else cur_inode_num)
        fs
  end.

(** The [while] loop over the blocks of the directory. *)
Fixpoint lookup_blocks (fuel : nat) (b_iter : a1fs_block_iterator)
    (component : list Z) (cur_inode_num : Z) (fs : fs_ctx) : option Z :=
  match fuel with
  | O => None
  | S fuel' =>
      match block_iterator_next_blk b_iter fs with
      | (None, _) => Some cur_inode_num
      | (Some cur_blk, b_iter') =>
          lookup_blocks fuel' b_iter' component
            (lookup_dentries (Z.to_nat NUM_DENTRY_PER_BLOCK) 0 cur_blk
               component cur_inode_num fs)
            fs
      end
  end.

(** The [for] loop over the components of the path. *)
Fixpoint lookup_components (components : list (list Z)) (cur_inode_num : Z)
    (fs : fs_ctx) : option Z :=
  match components with
  | [] => Some (if cur_inode_num >=? 0 then cur_inode_num else - ENOENT)
  | component :: rest =>
      if cur_inode_num <? 0 then Some (- ENOENT)
      else if negb (S_ISDIR (mode (inode_table fs cur_inode_num)))
      then Some (- ENOTDIR)
      else
        match lookup_blocks (iter_fuel cur_inode_num fs)
                (block_iterator_init cur_inode_num fs) component (-1) fs with
        | None => None
        | Some found => lookup_components rest found fs
        end
  end.

(** The function only reads the image (its writes go to the local copy of
    the path), so it is a function of the state and returns no new one. *)
Definition path_lookup_bytes (unmodified_path : list Z) (fs : fs_ctx)
  : option Z :=
  let path := strncpy_local unmodified_path A1FS_PATH_MAX in
  if negb (nth 0 path 0 =? slash) then Some (- ENOENT)
  else lookup_components (strtok_all path []) 0 fs.

Definition path_lookup (unmodified_path : string) (fs : fs_ctx) : option Z :=
  path_lookup_bytes (cstr unmodified_path) fs.

(** ** find_empty_inode and init_inode (fs_utils.c) *)

(** The loop of [find_empty_inode]: [n] iterations left, at index [i].
    The index is a [uint32_t] below [num_inodes], itself 32 bits wide, so
    that [i + 1] does not wrap; the function returns [int], to which the
    index found is converted. *)
Fixpoint find_empty_inode_from (n : nat) (i : Z) (fs : fs_ctx) : Z :=
  match n with
  | O => -1
  | S n' => if links (inode_table fs i) =? 0 then i32 i
            else find_empty_inode_from n' (i + 1) fs
  end.

Definition find_empty_inode (fs : fs_ctx) : Z :=
  find_empty_inode_from (Z.to_nat (num_inodes (superblock fs))) 0 fs.

Definition zero_extent : a1fs_extent := mk_extent 0 0.

(** The real-time clock is an input: [Some t] when [clock_gettime] stores
    [t], [None] when it fails.  The result pairs the returned [bool] with
    the state. *)
Definition init_inode (index mode_ links_ : Z) (now : option timespec)
    (fs : fs_ctx) : bool * fs_ctx :=
  let i0 := inode_table fs index in
  let i1 := mk_inode mode_ links_ 0 (mtime i0) (num_extents i0)
              (direct_extents i0) (indirect_extent_blk i0) in
  match now with
  | None => (false, set_inode fs index i1)
  | Some t =>
      let i2 :=
        mk_inode mode_ links_ 0 t 0
          (fun k => if (0 <=? k) && (k <? A1FS_NUM_DIRECT_EXTENT)
                    then zero_extent else direct_extents i0 k)
          0 in
      let fs1 := set_inode fs index i2 in
      (true,
       set_superblock fs1
         (sb_set_free_inodes (superblock fs1)
            (u32 (num_free_inodes (superblock fs1) - 1))))
  end.

(** ** add_dir_entry (fs_utils.c) *)

(** The parent path and the file name, as computed from the last slash of
    the local copy of the path.  [None]: the path has no slash, and the
    source dereferences a null pointer. *)
Definition split_path (unmodified_path : list Z) : option (list Z * list Z) :=
  match split_last_slash (strncpy_local unmodified_path A1FS_PATH_MAX) with
  | None => None
  | Some (pre, file_name) =>
      Some (match pre with [] => [slash] | _ => pre end, file_name)
  end.

(** The two nested loops that look for an empty entry: the offset of the
    first entry whose name starts with NUL. *)
Fixpoint empty_dentry_in_blk (n : nat) (d_ind blk : Z) (fs : fs_ctx)
  : option Z :=
  match n with
  | O => None
  | S n' =>
      if data_blks fs (dentry_name blk d_ind) =? 0
      then Some (dentry_addr blk d_ind)
      else empty_dentry_in_blk n' (d_ind + 1) blk fs
  end.

Inductive scan_result := SlotFound (entry : Z) | NoSlot.

Fixpoint find_empty_dentry (fuel : nat) (b_iter : a1fs_block_iterator)
    (fs : fs_ctx) : option scan_result :=
  match fuel with
  | O => None
  | S fuel' =>
      match block_iterator_next_blk b_iter fs with
      | (None, _) => Some NoSlot
      | (Some cur_blk, b_iter') =>
          match empty_dentry_in_blk (Z.to_nat NUM_DENTRY_PER_BLOCK) 0 cur_blk fs with
          | Some e => Some (SlotFound e)
          | None => find_empty_dentry fuel' b_iter' fs
          end
      end
  end.

(** The three statements that fill an entry: the name, the inode number,
    the initialization of the inode. *)
Definition fill_dentry (cur_entry : Z) (file_name : list Z) (mode_ links_ : Z)
    (now : option timespec) (fs : fs_ctx) : fs_ctx :=
  let fs1 :=
    set_data_blks fs
      (strncpy_mem (data_blks fs) (cur_entry + dentry_name_off) file_name
         A1FS_NAME_MAX) in
  let ino := u32 (find_empty_inode fs1) in
  let fs2 := set_data_blks fs1 (store_u32 (data_blks fs1) cur_entry ino) in
  snd (init_inode ino mode_ links_ now fs2).

Definition inc_links (ino : Z) (fs : fs_ctx) : fs_ctx :=
  let i := inode_table fs ino in
  set_inode fs ino (i_set_links i (u32 (links i + 1))).

Definition add_dir_entry_bytes (unmodified_path : list Z) (mode_ links_ : Z)
    (now : option timespec) (fs : fs_ctx) : option (Z * fs_ctx) :=
  if num_free_inodes (superblock fs) =? 0 then Some (- ENOSPC, fs)
  else
    match split_path unmodified_path with
    | None => None
    | Some (parent_path, file_name) =>
        if Z.of_nat (List.length file_name) >? A1FS_NAME_MAX
        then Some (- ENAMETOOLONG, fs)
        else
          match path_lookup_bytes parent_path fs with
          | None => None
          | Some par =>
              (* If the new file is a directory, it has a link to the parent *)
              let fs1 := if S_ISDIR mode_ then inc_links par fs else fs in
              match find_empty_dentry (iter_fuel par fs1)
                      (block_iterator_init par fs1) fs1 with
              | None => None
              | Some (SlotFound e) =>
                  Some (0, fill_dentry e file_name mode_ links_ now fs1)
              | Some NoSlot =>
                  (* a new block is needed *)
                  match allocate_data_blocks par A1FS_BLOCK_SIZE fs1 with
                  | None => None
                  | Some (r, fs2) =>
                      if negb (r =? 0) then Some (- ENOSPC, fs2)
                      else
                        let p := inode_table fs2 par in
                        let fs3 :=
                          set_inode fs2 par
                            (i_set_size p (u64 (i_size p + A1FS_BLOCK_SIZE))) in
                        let cur_extent :=
                          load_extent fs3
                            (get_extent par
                               (i32 (num_extents (inode_table fs3 par) - 1)) fs3) in
                        let cur_entry :=
                          u32 (u32 (e_start cur_extent + e_count cur_extent - 1)
                               * A1FS_BLOCK_SIZE) in
                        Some (0, fill_dentry cur_entry file_name mode_ links_ now fs3)
                  end
              end
          end
    end.

Definition add_dir_entry (path : string) (mode_ links_ : Z)
    (now : option timespec) (fs : fs_ctx) : option (Z * fs_ctx) :=
  add_dir_entry_bytes (cstr path) mode_ links_ now fs.

(** ** remove_dir_entry (fs_utils.c) *)

(** Entries of one block whose name equals [file_name] get an empty name. *)
Fixpoint clear_dentries (n : nat) (d_ind blk : Z) (file_name : list Z)
    (fs : fs_ctx) : fs_ctx :=
  match n with
  | O => fs
  | S n' =>
      clear_dentries n' (d_ind + 1) blk file_name
        (if strcmp_eq (data_blks fs) (dentry_name blk d_ind) file_name
         then set_data_blks fs (upd (data_blks fs) (dentry_name blk d_ind) 0)
         else fs)
  end.

Fixpoint clear_blocks (fuel : nat) (b_iter : a1fs_block_iterator)
    (file_name : list Z) (fs : fs_ctx) : option fs_ctx :=
  match fuel with
  | O => None
  | S fuel' =>
      match block_iterator_next_blk b_iter fs with
      | (None, _) => Some fs
      | (Some cur_blk, b_iter') =>
          clear_blocks fuel' b_iter' file_name
            (clear_dentries (Z.to_nat NUM_DENTRY_PER_BLOCK) 0 cur_blk file_name fs)
      end
  end.

Definition inc_free_dblocks (fs : fs_ctx) (by_ : Z) : fs_ctx :=
  set_superblock fs
    (sb_set_free_dblocks (superblock fs)
       (u32 (num_free_dblocks (superblock fs) + by_))).

(** The inner deallocation loop over the blocks of one extent: [n]
    iterations left, at block [b]; each clears a bit and adds the count of
    the extent to the free counter. *)
Fixpoint dealloc_extent_blocks (n : nat) (b : Z) (p : extent_ptr)
    (fs : fs_ctx) : fs_ctx :=
  match n with
  | O => fs
  | S n' =>
      let fs1 := set_d_bitmap fs (bitmap_clear (d_bitmap fs) b) in
      let fs2 := inc_free_dblocks fs1 (e_count (load_extent fs1 p)) in
      dealloc_extent_blocks n' (u32 (b + 1)) p fs2
  end.

(** Iterations of [for (b = start; b < start + count; b++)] on unsigned
    32-bit values. *)
Definition extent_span (start count : Z) : nat :=
  Z.to_nat (u32 (start + count) - start).

(** The outer deallocation loop over the extents: [n] iterations left, at
    extent [i]. *)
Fixpoint dealloc_extents (n : nat) (i ino : Z) (fs : fs_ctx) : fs_ctx :=
  match n with
  | O => fs
  | S n' =>
      let p := get_extent ino (i32 i) fs in
      let e := load_extent fs p in
      dealloc_extents n' (i + 1) ino
        (dealloc_extent_blocks (extent_span (e_start e) (e_count e))
           (e_start e) p fs)
  end.

Definition dec_links (ino : Z) (fs : fs_ctx) : fs_ctx :=
  let i := inode_table fs ino in
  set_inode fs ino (i_set_links i (u32 (links i - 1))).

Definition remove_dir_entry_bytes (unmodified_path : list Z) (fs : fs_ctx)
  : option fs_ctx :=
  match split_path unmodified_path with
  | None => None
  | Some (parent_path, file_name) =>
      match path_lookup_bytes parent_path fs,
            path_lookup_bytes unmodified_path fs with
      | Some par, Some ino =>
          let fs1 :=
            if S_ISDIR (mode (inode_table fs ino))
            then dec_links par (dec_links ino fs) else fs in
          let fs2 := dec_links ino fs1 in
          match clear_blocks (iter_fuel par fs2) (block_iterator_init par fs2)
                  file_name fs2 with
          | None => None
          | Some fs3 =>
              if links (inode_table fs3 ino) =? 0 then
                let fs4 :=
                  set_superblock fs3
                    (sb_set_free_inodes (superblock fs3)
                       (u32 (num_free_inodes (superblock fs3) + 1))) in
                Some (dealloc_extents
                        (Z.to_nat (num_extents (inode_table fs4 ino))) 0 ino fs4)
              else Some fs3
          end
      | _, _ => None
      end
  end.

Definition remove_dir_entry (path : string) (fs : fs_ctx) : option fs_ctx :=
  remove_dir_entry_bytes (cstr path) fs.

(** ** copy_between_buf_and_fs (fs_utils.c) *)

(** [memcpy(dst + dst_off, src + src_off, n)]. *)
Definition memcpy (dst : Z -> Z) (dst_off : Z) (src : Z -> Z) (src_off n : Z)
  : Z -> Z :=
  fun a =>
    if (dst_off <=? a) && (a <? dst_off + n)
    then src (src_off + (a - dst_off))
    else dst a.

(** [memset(buf, 0, n)]. *)
Definition memzero (buf : Z -> Z) (n : Z) : Z -> Z :=
  fun a => if (0 <=? a) && (a <? n) then 0 else buf a.

(** The [while] loop of the copy.  A caller's buffer is a function of the
    byte index.  The result is the byte count, the buffer and the state. *)
Fixpoint copy_loop (fuel : nat) (b_iter : a1fs_block_iterator)
    (size offset cur_offset bytes_written_so_far : Z) (to_fs : bool)
    (buf : Z -> Z) (fs : fs_ctx) : option (Z * (Z -> Z) * fs_ctx) :=
  match fuel with
  | O => None
  | S fuel' =>
      match block_iterator_next_blk b_iter fs with
      | (None, _) => Some (bytes_written_so_far, buf, fs)
      | (Some cur_blk, b_iter') =>
          if size =? 0 then Some (bytes_written_so_far, buf, fs)
          else if cur_offset - offset <=? A1FS_BLOCK_SIZE then
            let offset_within_blk :=
              if offset >? cur_offset then offset - cur_offset else 0 in
            let bytes_to_write_in_blk := Min A1FS_BLOCK_SIZE size in
            let buf' :=
              if to_fs then buf
              else memcpy buf bytes_written_so_far (data_blks fs)
                     (cur_blk + offset_within_blk) bytes_to_write_in_blk in
            let fs' :=
              if to_fs
              then set_data_blks fs
                     (memcpy (data_blks fs) (cur_blk + offset_within_blk) buf
                        bytes_written_so_far bytes_to_write_in_blk)
              else fs in
            copy_loop fuel' b_iter' (size - bytes_to_write_in_blk) offset
              (cur_offset + A1FS_BLOCK_SIZE)
              (bytes_written_so_far + bytes_to_write_in_blk) to_fs buf' fs'
          else
            copy_loop fuel' b_iter' size offset (cur_offset + A1FS_BLOCK_SIZE)
              bytes_written_so_far to_fs buf fs
      end
  end.

Definition copy_between_buf_and_fs (ino : Z) (buf : Z -> Z) (size offset : Z)
    (to_fs : bool) (fs : fs_ctx) : option (Z * (Z -> Z) * fs_ctx) :=
  match copy_loop (iter_fuel ino fs) (block_iterator_init ino fs) size offset
          0 0 to_fs buf fs with
  | None => None
  | Some (n, buf', fs') => Some (i32 n, buf', fs')
  end.

(** ** The entry points of a1fs.c *)

Record statvfs := mk_statvfs {
  f_bsize : Z; f_frsize : Z; f_blocks : Z; f_bfree : Z; f_bavail : Z;
  f_files : Z; f_ffree : Z; f_favail : Z; f_namemax : Z
}.

(** The result pairs the returned [int] with the filled structure. *)
Definition a1fs_statfs (fs : fs_ctx) : Z * statvfs :=
  let sb := superblock fs in
  (0,
   mk_statvfs A1FS_BLOCK_SIZE A1FS_BLOCK_SIZE (s_size sb / A1FS_BLOCK_SIZE)
     (num_free_dblocks sb) (num_free_dblocks sb)
     (num_inodes sb) (num_free_inodes sb) (num_free_inodes sb)
     A1FS_NAME_MAX).

Definition a1fs_mkdir (path : string) (mode_ : Z) (now : option timespec)
    (fs : fs_ctx) : option (Z * fs_ctx) :=
  add_dir_entry path (Z.lor mode_ S_IFDIR) 2 now fs.

(** [assert(S_ISREG(mode))] aborts the call on any other mode: [None]. *)
Definition a1fs_create (path : string) (mode_ : Z) (now : option timespec)
    (fs : fs_ctx) : option (Z * fs_ctx) :=
  if negb (S_ISREG mode_) then None
  else add_dir_entry path mode_ 1 now fs.

Definition a1fs_unlink (path : string) (fs : fs_ctx) : option (Z * fs_ctx) :=
  match remove_dir_entry path fs with
  | None => None
  | Some fs' => Some (0, fs')
  end.

(** The inner loop of the shrinking branch of [a1fs_truncate]: [n]
    iterations left, at block [b], with the running values of [blk_idx]
    and of the local [num_extents]. *)
Fixpoint shrink_extent_blocks (n : nat) (b blk_idx size num_extents_ : Z)
    (p : extent_ptr) (ino : Z) (fs : fs_ctx) : Z * Z * fs_ctx :=
  match n with
  | O => (blk_idx, num_extents_, fs)
  | S n' =>
      if blk_idx * A1FS_BLOCK_SIZE >? size then
        let fs1 := set_d_bitmap fs (bitmap_clear (d_bitmap fs) b) in
        let fs2 := inc_free_dblocks fs1 1 in
        let fs3 := store_extent_count fs2 p (e_count (load_extent fs2 p) - 1) in
        if e_count (load_extent fs3 p) =? 0 then
          let fs4 :=
            if A1FS_NUM_DIRECT_EXTENT =? num_extents_ then
              (* Deallocate the indirect block *)
              let indir := indirect_extent_blk (inode_table fs3 ino) in
              inc_free_dblocks
                (set_d_bitmap fs3 (bitmap_clear (d_bitmap fs3) indir)) 1
            else fs3 in
          shrink_extent_blocks n' (u32 (b + 1)) (blk_idx + 1) size
            (num_extents_ - 1) p ino fs4
        else
          shrink_extent_blocks n' (u32 (b + 1)) (blk_idx + 1) size
            num_extents_ p ino fs3
      else
        shrink_extent_blocks n' (u32 (b + 1)) (blk_idx + 1) size
          num_extents_ p ino fs
  end.

(** The outer loop over the extents: [n] iterations left, at extent [i]. *)
Fixpoint shrink_extents (n : nat) (i blk_idx size num_extents_ ino : Z)
    (fs : fs_ctx) : Z * fs_ctx :=
  match n with
  | O => (num_extents_, fs)
  | S n' =>
      let p := get_extent ino (i32 i) fs in
      let e := load_extent fs p in
      let count := i32 (e_count e) in
      let '(blk_idx', num_extents', fs') :=
        shrink_extent_blocks (extent_span (e_start e) count) (e_start e)
          blk_idx size num_extents_ p ino fs in
      shrink_extents n' (i + 1) blk_idx' size num_extents' ino fs'
  end.

Definition zero_buf : Z -> Z := fun _ => 0.

Definition set_mtime (ino : Z) (t : timespec) (fs : fs_ctx) : fs_ctx :=
  set_inode fs ino (i_set_mtime (inode_table fs ino) t).

Definition set_i_size (ino v : Z) (fs : fs_ctx) : fs_ctx :=
  set_inode fs ino (i_set_size (inode_table fs ino) v).

(** [malloc] is taken to succeed. *)
Definition a1fs_truncate (path : string) (size : Z) (now : option timespec)
    (fs : fs_ctx) : option (Z * fs_ctx) :=
  match path_lookup path fs with
  | None => None
  | Some ino =>
      match now with
      | None => Some (- EFAULT, fs)
      | Some t =>
          let fs1 := set_mtime ino t fs in
          let inode := inode_table fs1 ino in
          if u64 size >? i_size inode then
            (* The file is being extended *)
            let additional_bytes := size - i_size inode in
            match allocate_data_blocks ino (u64 additional_bytes) fs1 with
            | None => None
            | Some (r, fs2) =>
                if 0 >? r then Some (- ENOSPC, fs2)
                else
                  match copy_between_buf_and_fs ino zero_buf additional_bytes
                          (i_size (inode_table fs2 ino)) true fs2 with
                  | None => None
                  | Some (_, _, fs3) => Some (0, set_i_size ino (u64 size) fs3)
                  end
            end
          else if u64 size <? i_size inode then
            (* The file is being shrunk *)
            let '(num_extents', fs2) :=
              shrink_extents (Z.to_nat (num_extents inode)) 0 0 size
                (i32 (num_extents inode)) ino fs1 in
            let fs3 :=
              set_inode fs2 ino
                (i_set_num_extents (inode_table fs2 ino) (u32 num_extents')) in
            Some (0, set_i_size ino (u64 size) fs3)
          else Some (0, set_i_size ino (u64 size) fs1)
      end
  end.

(** The result pairs the returned [int] with the caller's buffer. *)
Definition a1fs_read (path : string) (buf : Z -> Z) (size offset : Z)
    (fs : fs_ctx) : option (Z * (Z -> Z)) :=
  let buf0 := memzero buf size in
  match path_lookup path fs with
  | None => None
  | Some ino =>
      match copy_between_buf_and_fs ino buf0 size offset false fs with
      | None => None
      | Some (n, buf', _) => Some (n, buf')
      end
  end.

(** [malloc] is taken to succeed. *)
Definition a1fs_write (path : string) (buf : Z -> Z) (size offset : Z)
    (now : option timespec) (fs : fs_ctx) : option (Z * fs_ctx) :=
  match path_lookup path fs with
  | None => None
  | Some ino =>
      match now with
      | None => Some (- EFAULT, fs)
      | Some t =>
          let fs1 := set_mtime ino t fs in
          let fill_hole : option (Z * fs_ctx) :=
            if u64 offset >? i_size (inode_table fs1 ino) then
              let additional_bytes := offset - i_size (inode_table fs1 ino) in
              match allocate_data_blocks ino (u64 additional_bytes) fs1 with
              | None => None
              | Some (r, fs2) =>
                  if 0 >? r then Some (- ENOSPC, fs2)
                  else
                    match copy_between_buf_and_fs ino zero_buf additional_bytes
                            (i_size (inode_table fs2 ino)) true fs2 with
                    | None => None
                    | Some (_, _, fs3) =>
                        Some (0, set_i_size ino
                                   (u64 (i_size (inode_table fs3 ino)
                                         + additional_bytes)) fs3)
                    end
              end
            else Some (0, fs1) in
          match fill_hole with
          | None => None
          | Some (r, fs4) =>
              if negb (r =? 0) then Some (r, fs4)
              else
                match allocate_data_blocks ino (u64 size) fs4 with
                | None => None
                | Some (r', fs5) =>
                    if 0 >? r' then Some (- ENOSPC, fs5)
                    else
                      let fs6 :=
                        set_i_size ino
                          (u64 (i_size (inode_table fs5 ino) + size)) fs5 in
                      match copy_between_buf_and_fs ino buf size offset true fs6 with
                      | None => None
                      | Some (n, _, fs7) => Some (n, fs7)
                      end
                end
          end
      end
  end.

(** ** mkfs (mkfs.c) *)

(** The formatter works on the views of the image to be formatted, whose
    previous contents are arbitrary; [n_inodes] is the option [-i]. *)
Definition mkfs (fs : fs_ctx) (size n_inodes : Z) (now : option timespec)
  : bool * fs_ctx :=
  let num_total_blocks := u32 (size / A1FS_BLOCK_SIZE) in
  let num_inode_blocks :=
    u32 (Ceil (u64 (n_inodes * sizeof_a1fs_inode)) A1FS_BLOCK_SIZE) in
  if num_inode_blocks <=? 0 then (false, fs)
  else
    let num_data_blocks := u32 (num_total_blocks - num_inode_blocks - 2) in
    let num_data_bitmap_blocks :=
      u32 (Ceil num_data_blocks (8 * A1FS_BLOCK_SIZE)) in
    if num_total_blocks <? u32 (num_inode_blocks + num_data_bitmap_blocks + 2)
    then (false, fs)
    else
      let sb :=
        mk_superblock A1FS_MAGIC size (u32 n_inodes) (u32 n_inodes)
          (u32 (num_data_blocks - num_data_bitmap_blocks))
          (u32 (num_data_blocks - num_data_bitmap_blocks))
          2 (u32 (2 + num_data_bitmap_blocks))
          (u32 (2 + num_data_bitmap_blocks + num_inode_blocks)) in
      (* Initialize the inode table to be empty *)
      let tbl := fun i =>
        if (0 <=? i) && (i <? num_inode_blocks * NUM_INODES_PER_BLOCK)
        then i_set_links (inode_table fs i) 0 else inode_table fs i in
      (* Initialize the data bitmap *)
      let bm := memzero (d_bitmap fs) (num_data_bitmap_blocks * A1FS_BLOCK_SIZE) in
      init_inode 0 (Z.lor S_IFDIR 511) 2 now
        (mk_fs size sb bm tbl (data_blks fs)).


(** ** a1fs_getattr (a1fs.c) *)

Record stat := mk_stat {
  st_mode : Z; st_nlink : Z; st_size : Z; st_blocks : Z; st_mtim : timespec
}.

(** The structure once [memset] has cleared it. *)
Definition zero_stat : stat := mk_stat 0 0 0 0 (mk_timespec 0 0).

(** The result pairs the returned [int] with the structure as the call
    leaves it; [st] is the structure as the caller passed it. *)
Definition a1fs_getattr (path : string) (st : stat) (fs : fs_ctx)
  : option (Z * stat) :=
  if Z.of_nat (List.length (cstr path)) >=? A1FS_PATH_MAX
  then Some (- ENAMETOOLONG, st)
  else
    match path_lookup path fs with
    | None => None
    | Some i =>
        if i <? 0 then Some (i, zero_stat)
        else
          let inode := inode_table fs (u32 i) in
          Some (0, mk_stat (mode inode) (links inode) (i_size inode)
                     (i_size inode / 512) (mtime inode))
    end.

(** ** a1fs_is_present (mkfs.c) *)

Definition a1fs_is_present (fs : fs_ctx) : bool :=
  let sb := superblock fs in
  if negb (A1FS_MAGIC =? magic sb) then false
  else
    let num_total_blocks := u32 (s_size sb / A1FS_BLOCK_SIZE) in
    let num_inode_blocks :=
      u32 (Ceil (u64 (num_inodes sb * sizeof_a1fs_inode)) A1FS_BLOCK_SIZE) in
    let num_data_blocks := u32 (num_total_blocks - num_inode_blocks - 2) in
    let num_data_bitmap_blocks :=
      u32 (Ceil num_data_blocks (8 * A1FS_BLOCK_SIZE)) in
    if negb (2 =? data_bitmap sb) then false
    else if negb (u32 (2 + num_data_bitmap_blocks) =? s_inode_table sb)
    then false
    else if negb (u32 (2 + num_data_bitmap_blocks + num_inode_blocks)
                  =? data_blk sb)
    then false
    else if negb ((if negb (u32 (2 + num_data_bitmap_blocks + num_inode_blocks)
                            =? u32 (data_blk sb + num_data_blocks))
                   then 1 else 0) * A1FS_BLOCK_SIZE =? s_size sb)
    then false
    else true.

(** ** The blocks that the iterator hands out *)

(** The successive results of [block_iterator_next_blk] up to the first
    NULL, on a state that does not change in between. *)
Fixpoint iterator_blocks (fuel : nat) (b_iter : a1fs_block_iterator)
    (fs : fs_ctx) : option (list Z) :=
  match fuel with
  | O => None
  | S fuel' =>
      match block_iterator_next_blk b_iter fs with
      | (None, _) => Some []
      | (Some blk, b_iter') =>
          match iterator_blocks fuel' b_iter' fs with
          | None => None
          | Some l => Some (blk :: l)
          end
      end
  end.

(** Offsets in the data region of [n] successive blocks of an extent that
    starts at block [start], from its [k]-th block on. *)
Fixpoint extent_block_offsets (start k : Z) (n : nat) : list Z :=
  match n with
  | O => []
  | S n' => u32 (u32 (start + k) * A1FS_BLOCK_SIZE)
            :: extent_block_offsets start (k + 1) n'
  end.

(** Offsets of the blocks of the [n] extents of an inode from the [i]-th
    on, in file order. *)
Fixpoint inode_block_offsets (n : nat) (i ino : Z) (fs : fs_ctx) : list Z :=
  match n with
  | O => []
  | S n' =>
      let e := load_extent fs (get_extent ino i fs) in
      extent_block_offsets (e_start e) 0 (Z.to_nat (e_count e))
      ++ inode_block_offsets n' (i + 1) ino fs
  end.

(** ** a1fs_rmdir (a1fs.c) *)

(** The [for] loop over the entries of one block: is there an entry whose
    name does not start with NUL? *)
Fixpoint nonempty_dentry_in_blk (n : nat) (d_ind blk : Z) (fs : fs_ctx)
  : bool :=
  match n with
  | O => false
  | S n' =>
      if negb (data_blks fs (dentry_name blk d_ind) =? 0) then true
      else nonempty_dentry_in_blk n' (d_ind + 1) blk fs
  end.

(** The [while] loop over the blocks of the directory. *)
Fixpoint dir_has_entry (fuel : nat) (b_iter : a1fs_block_iterator)
    (fs : fs_ctx) : option bool :=
  match fuel with
  | O => None
  | S fuel' =>
      match block_iterator_next_blk b_iter fs with
      | (None, _) => Some false
      | (Some cur_blk, b_iter') =>
          if nonempty_dentry_in_blk (Z.to_nat NUM_DENTRY_PER_BLOCK) 0 cur_blk fs
          then Some true
          else dir_has_entry fuel' b_iter' fs
      end
  end.

Definition a1fs_rmdir (path : string) (fs : fs_ctx) : option (Z * fs_ctx) :=
  match path_lookup path fs with
  | None => None
  | Some ino =>
      match dir_has_entry (iter_fuel ino fs) (block_iterator_init ino fs) fs with
      | None => None
      | Some true => Some (- ENOTEMPTY, fs)
      | Some false =>
          (* The directory is empty so it can be removed *)
          match remove_dir_entry path fs with
          | None => None
          | Some fs' => Some (0, fs')
          end
      end
  end.
(** * Vocabulary of the statements *)

(** Two states agree on the size of every inode. *)
Definition same_sizes (fs fs' : fs_ctx) : Prop :=
  forall j, i_size (inode_table fs' j) = i_size (inode_table fs j).

(** The state in which [add_dir_entry] scans the parent for an empty entry:
    the link count of the parent has been raised when the new entry is a
    directory. *)
Definition after_link_increment (mode_ par : Z) (fs : fs_ctx) : fs_ctx :=
  if S_ISDIR mode_ then inc_links par fs else fs.

(** Success of a call with a given return value, and a property of what
    comes with it (the state, or the caller's buffer). *)
Definition returns {S : Type} (o : option (Z * S)) (code : Z)
    (post : S -> Prop) : Prop :=
  match o with
  | Some (r, s) => r = code /\ post s
  | None => False
  end.

Fixpoint count_free_inodes (tbl : Z -> a1fs_inode) (n : nat) : Z :=
  match n with
  | O => 0
  | S n' => count_free_inodes tbl n'
            + (if links (tbl (Z.of_nat n')) =? 0 then 1 else 0)
  end.

(** The accounting invariant P1: the zero bits of the data bitmap are as
    many as the superblock says, and so are the inodes without links. *)
Definition bitmap_accounting (fs : fs_ctx) : Prop :=
  count_zero_bits (d_bitmap fs) (Z.to_nat (num_tot_dblocks (superblock fs)))
  = num_free_dblocks (superblock fs)
  /\ count_free_inodes (inode_table fs) (Z.to_nat (num_inodes (superblock fs)))
     = num_free_inodes (superblock fs).

(** Every mark of the bitmap view is the mark of a data block: the bitmap
    lies after the superblock, its blocks hold a bit for every data block,
    and no bit at or past the number of data blocks is set.  The code only
    sets bits when it allocates, so a state in which this holds after an
    allocation has been reached without a store through the bitmap view
    outside the blocks of the bitmap. *)
Definition marks_within_image (fs : fs_ctx) : Prop :=
  1 < data_bitmap (superblock fs)
  /\ num_tot_dblocks (superblock fs) <= bitmap_bits fs
  /\ forall b, num_tot_dblocks (superblock fs) <= b ->
       bit_is_set (d_bitmap fs) b = false.

(** Modelled from the spec: an inode record begins with the mode and the
    link count, 32 bits each, followed by the 64-bit size, which therefore
    takes the bytes 8 to 15 of the record. *)
Definition offsetof_i_size : Z := 8.

(** Offset in the image of byte [j] of the size of inode [ino]. *)
Definition i_size_byte_offset (ino j : Z) (fs : fs_ctx) : Z :=
  inode_table_offset fs + ino * sizeof_a1fs_inode + offsetof_i_size + j.

(** The bytes of the bitmap view at the eight offsets of the image that
    hold the size of inode [ino]: in C, where the views are windows of one
    buffer, the bytes of the size itself once a store through the bitmap
    view has reached them. *)
Definition d_bitmap_over_i_size (ino : Z) (fs : fs_ctx) : list Z :=
  map (fun j => d_bitmap fs (i_size_byte_offset ino j fs - d_bitmap_offset fs))
    [0; 1; 2; 3; 4; 5; 6; 7].

(** The values that [path_lookup] can return: an inode number, or one of
    its two error codes. *)
Definition lookup_code (r : Z) : Prop :=
  0 <= r < 2 ^ 31 \/ r = - ENOENT \/ r = - ENOTDIR.

(** Offset in the data region of the first block of an inode, as the
    iterator computes it from the first inline extent. *)
Definition first_block (ino : Z) (fs : fs_ctx) : Z :=
  u32 (u32 (e_start (direct_extents (inode_table fs ino) 0) + 0) * A1FS_BLOCK_SIZE).

(** What a growth of inode [ino] leaves alone: the other inodes, the mode,
    link count and modification time of [ino], and every field of the
    superblock but the count of free data blocks. *)
Definition alloc_frame (ino : Z) (fs fs' : fs_ctx) : Prop :=
  (forall j, j <> ino -> inode_table fs' j = inode_table fs j)
  /\ mode (inode_table fs' ino) = mode (inode_table fs ino)
  /\ links (inode_table fs' ino) = links (inode_table fs ino)
  /\ mtime (inode_table fs' ino) = mtime (inode_table fs ino)
  /\ sb_set_free_dblocks (superblock fs') 0
     = sb_set_free_dblocks (superblock fs) 0.

(** The inodes without links are as many as the superblock says. *)
Definition inode_accounting (fs : fs_ctx) : Prop :=
  count_free_inodes (inode_table fs) (Z.to_nat (num_inodes (superblock fs)))
  = num_free_inodes (superblock fs).

(** Two states record the same extents for inode [dir]. *)
Definition same_extents (dir : Z) (fs g : fs_ctx) : Prop :=
  num_extents (inode_table g dir) = num_extents (inode_table fs dir)
  /\ forall i, direct_extents (inode_table g dir) i
               = direct_extents (inode_table fs dir) i.

(** Offsets of the blocks of an inode, in file order. *)
Definition dir_blocks (dir : Z) (fs : fs_ctx) : list Z :=
  inode_block_offsets (Z.to_nat (num_extents (inode_table fs dir))) 0 dir fs.

(** The extents of the inode are all inline and none of them is empty. *)
Definition inline_dir (dir : Z) (fs : fs_ctx) : Prop :=
  0 <= num_extents (inode_table fs dir) <= A1FS_NUM_DIRECT_EXTENT
  /\ forall i, 0 <= i < num_extents (inode_table fs dir) ->
       1 <= e_count (direct_extents (inode_table fs dir) i) < 2 ^ 32.

(** An iterator over the blocks of [dir] that has [l] left to hand out. *)
Definition iter_at (dir : Z) (fs : fs_ctx) (it : a1fs_block_iterator)
    (l : list Z) : Prop :=
  (cur_extent it = None /\ l = [])
  \/ exists ei bi m,
       it = mk_iter dir (Some (DirectExtent dir ei)) ei bi
       /\ 0 <= ei
       /\ ei + 1 + Z.of_nat m = num_extents (inode_table fs dir)
       /\ 0 <= bi <= e_count (direct_extents (inode_table fs dir) ei)
       /\ l = extent_block_offsets
                (e_start (direct_extents (inode_table fs dir) ei)) bi
                (Z.to_nat (e_count (direct_extents (inode_table fs dir) ei) - bi))
              ++ inode_block_offsets m (ei + 1) dir fs.

(** The data region [m'] is [m] but for first name bytes of directory
    entries set to NUL. *)
Definition names_cleared (m m' : Z -> Z) : Prop :=
  forall x, m' x = m x
            \/ (x mod sizeof_a1fs_dentry = dentry_name_off /\ m' x = 0).

(** No entry of directory [dir] carries the name [name]. *)
Definition name_absent (dir : Z) (name : list Z) (fs : fs_ctx) : Prop :=
  forall blk d, In blk (dir_blocks dir fs) -> 0 <= d < NUM_DENTRY_PER_BLOCK ->
    strcmp_eq (data_blks fs) (dentry_name blk d) name = false.

(** * Images used in the scenarios *)

(** A caller's buffer holding the bytes of a string. *)
Definition buf_of_string (s : string) : Z -> Z :=
  fun a => nth (Z.to_nat a) (cstr s) 0.

Definition zero_inode : a1fs_inode :=
  mk_inode 0 0 0 (mk_timespec 0 0) 0 (fun _ => zero_extent) 0.

(** An image filled with zeros, before formatting. *)
Definition blank_image : fs_ctx :=
  mk_fs 0 (mk_superblock 0 0 0 0 0 0 0 0 0) (fun _ => 0) (fun _ => zero_inode)
    (fun _ => 0).

Definition now0 : option timespec := Some (mk_timespec 1600000000 0).

(** A zeroed image of 1 MiB formatted with 32 inodes. *)
Definition fresh_image : fs_ctx := snd (mkfs blank_image 1048576 32 now0).

Definition mode_file : Z := Z.lor S_IFREG 420.   (* S_IFREG | 0644 *)
Definition mode_0755 : Z := 493.

(** Two data blocks, the first free and the second allocated. *)
Definition exact_fit_image : fs_ctx :=
  mk_fs 0 (mk_superblock 0 0 0 0 2 1 0 0 0)
    (fun a => if a =? 0 then 2 else 0) (fun _ => zero_inode) (fun _ => 0).

(** Five data blocks, the first three free and the last two allocated. *)
Definition long_run_image : fs_ctx :=
  mk_fs 0 (mk_superblock 0 0 0 0 5 3 0 0 0)
    (fun a => if a =? 0 then 24 else 0) (fun _ => zero_inode) (fun _ => 0).

(** A root directory of one block, data block 0. *)
Definition root_dir_one_block : a1fs_inode :=
  mk_inode (Z.lor S_IFDIR 511) 2 4096 (mk_timespec 0 0) 1
    (fun k => if k =? 0 then mk_extent 0 1 else zero_extent) 0.

(** An image of 36 blocks (16 inodes, 32 data blocks).  Data block 0 holds
    the root directory, whose only entry is "f" for inode 1, an empty file.
    Every other data block is free; data block 2 still holds the byte 'Z'
    at its offset 2, left by an earlier owner (neither the formatter nor
    the removal of a file clears the contents of a block). *)
Definition stale_image : fs_ctx :=
  mk_fs 147456 (mk_superblock A1FS_MAGIC 147456 16 14 32 31 2 3 4)
    (fun a => if a =? 0 then 1 else 0)
    (fun i =>
       if i =? 0 then root_dir_one_block
       else if i =? 1 then
         mk_inode mode_file 1 0 (mk_timespec 0 0) 0 (fun _ => zero_extent) 0
       else zero_inode)
    (fun a =>
       if a =? 0 then 1                       (* entry 0: inode 1 *)
       else if a =? 4 then 102                (* entry 0: name "f" *)
       else if a =? 2 * 4096 + 2 then 90      (* block 2: stale 'Z' *)
       else 0).

(** An image of 36 blocks (16 inodes, 32 data blocks) in which /f (inode 1)
    has eleven extents of one block each: the data blocks 2, 4, ..., 20
    inline and block 22 recorded in the indirect block, which is data
    block 1.  Data block 0 holds the root directory. *)
Definition eleven_extent_image : fs_ctx :=
  mk_fs 147456 (mk_superblock A1FS_MAGIC 147456 16 14 32 19 2 3 4)
    (fun a => if a =? 0 then 87 else if a =? 1 then 85
              else if a =? 2 then 85 else 0)
    (fun i =>
       if i =? 0 then root_dir_one_block
       else if i =? 1 then
         mk_inode mode_file 1 (11 * 4096) (mk_timespec 0 0) 11
           (fun k => if (0 <=? k) && (k <? 10)
                     then mk_extent (2 * k + 2) 1 else zero_extent) 1
       else zero_inode)
    (fun a =>
       if a =? 0 then 1                       (* entry 0: inode 1 *)
       else if a =? 4 then 102                (* entry 0: name "f" *)
       else if a =? 4096 then 22              (* extent 10: start *)
       else if a =? 4100 then 1               (* extent 10: count *)
       else 0).

(** An image of 6 blocks with 32 inodes and a single data block, which
    holds the root directory; its sixteen entries name the regular files
    "a" to "p" (inodes 1 to 16).  No data block is free. *)
Definition full_dir_image : fs_ctx :=
  mk_fs 24576 (mk_superblock A1FS_MAGIC 24576 32 15 1 0 2 3 5)
    (fun a => if a =? 0 then 1 else 0)
    (fun i =>
       if i =? 0 then root_dir_one_block
       else if (1 <=? i) && (i <=? 16) then
         mk_inode mode_file 1 0 (mk_timespec 0 0) 0 (fun _ => zero_extent) 0
       else zero_inode)
    (fun a =>
       if (0 <=? a) && (a <? 4096) then
         if a mod 256 =? 0 then a / 256 + 1            (* inode number *)
         else if a mod 256 =? 4 then 97 + a / 256      (* one-letter name *)
         else 0
       else 0).


(** An image of 32771 blocks (16 inodes, 32767 data blocks, one bitmap
    block followed by the block of the inode table) as the entry points
    leave it after mkfs, create of /c, /a and /b, truncate of /a to 32765
    blocks, truncate of /b to one block and truncate of /a to 0.  Data
    block 0 holds the root directory with the three entries, /c (inode 1)
    has no block, /a (inode 2) has size 0 and keeps block 1 (shrinking
    compares block indices with the size by [>]), /b (inode 3) has the
    last data block, 32766: the bitmap ends on an allocated block, after a
    run of 32764 free ones.  [small_overrun_image] below is the result of
    the same calls, evaluated, on an image of 36 blocks. *)
Definition overrun_image : fs_ctx :=
  mk_fs 134230016 (mk_superblock A1FS_MAGIC 134230016 16 12 32767 32764 2 3 4)
    (fun a => if a =? 0 then 3 else if a =? 4095 then 64 else 0)
    (fun i =>
       if i =? 0 then
         mk_inode (Z.lor S_IFDIR 511) 2 4096 (mk_timespec 1600000000 0) 1
           (fun k => if k =? 0 then mk_extent 0 1 else zero_extent) 0
       else if i =? 1 then
         mk_inode mode_file 1 0 (mk_timespec 1600000000 0) 0
           (fun _ => zero_extent) 0
       else if i =? 2 then
         mk_inode mode_file 1 0 (mk_timespec 1600000000 0) 1
           (fun k => if k =? 0 then mk_extent 1 1 else zero_extent) 0
       else if i =? 3 then
         mk_inode mode_file 1 4096 (mk_timespec 1600000000 0) 1
           (fun k => if k =? 0 then mk_extent 32766 1 else zero_extent) 0
       else zero_inode)
    (fun a =>
       if a =? 0 then 1                       (* entry 0: inode 1 *)
       else if a =? 4 then 99                 (* entry 0: name "c" *)
       else if a =? 256 then 2                (* entry 1: inode 2 *)
       else if a =? 260 then 97               (* entry 1: name "a" *)
       else if a =? 512 then 3                (* entry 2: inode 3 *)
       else if a =? 516 then 98               (* entry 2: name "b" *)
       else 0).

(** The fresh image after the creation of the regular file /f. *)
Definition one_file_image : fs_ctx :=
  match add_dir_entry "/f"%string mode_file 1 now0 fresh_image with
  | Some (_, fs') => fs'
  | None => fresh_image
  end.

(** [one_file_image] after /f has been extended to 8192 bytes. *)
Definition two_block_file_image : fs_ctx :=
  match a1fs_truncate "/f"%string 8192 now0 one_file_image with
  | Some (_, fs') => fs'
  | None => one_file_image
  end.

(** [stale_image] after inode 1 has been given one block. *)
Definition grown_file_image : fs_ctx :=
  match allocate_data_blocks 1 4096 stale_image with
  | Some (_, fs') => fs'
  | None => stale_image
  end.

(** [stale_image] after the removal of /f. *)
Definition removed_file_image : fs_ctx :=
  match remove_dir_entry "/f"%string stale_image with
  | Some fs' => fs'
  | None => stale_image
  end.

(** [stale_image] after the creation of the regular file /g. *)
Definition two_file_image : fs_ctx :=
  match add_dir_entry "/g"%string mode_file 1 now0 stale_image with
  | Some (_, fs') => fs'
  | None => stale_image
  end.

(** [stale_image] after "hi" has been written at the start of /f. *)
Definition written_file_image : fs_ctx :=
  match a1fs_write "/f"%string (buf_of_string "hi") 2 0 now0 stale_image with
  | Some (_, fs') => fs'
  | None => stale_image
  end.

(** A sequence of calls, one for each element of a list, each of which
    returns 0. *)
Fixpoint all_return_0 {A : Type} (f : A -> fs_ctx -> option (Z * fs_ctx))
    (l : list A) (fs : fs_ctx) : option fs_ctx :=
  match l with
  | [] => Some fs
  | x :: rest =>
      match f x fs with
      | Some (0, fs') => all_return_0 f rest fs'
      | _ => None
      end
  end.

(** The calls that lead to [overrun_image], at the scale of an image of 36
    blocks (16 inodes, 32 data blocks): mkfs, create of /c, /a and /b,
    truncate of /a to all the data blocks but two, truncate of /b to one
    block and truncate of /a to 0. *)
Definition small_overrun_image : option fs_ctx :=
  all_return_0 (fun call => call)
    [a1fs_create "/c"%string mode_file now0;
     a1fs_create "/a"%string mode_file now0;
     a1fs_create "/b"%string mode_file now0;
     a1fs_truncate "/a"%string (30 * A1FS_BLOCK_SIZE) now0;
     a1fs_truncate "/b"%string A1FS_BLOCK_SIZE now0;
     a1fs_truncate "/a"%string 0 now0]
    (snd (mkfs blank_image (36 * A1FS_BLOCK_SIZE) 16 now0)).

Definition sixteen_files : list string :=
  ["/d/a"; "/d/b"; "/d/c"; "/d/d"; "/d/e"; "/d/f"; "/d/g"; "/d/h";
   "/d/i"; "/d/j"; "/d/k"; "/d/l"; "/d/m"; "/d/n"; "/d/o"; "/d/p"]%string.

(** A zeroed image of 7 blocks formatted with 32 inodes (two data blocks),
    after mkdir of /d and the creation of sixteen regular files in /d:
    the root directory has data block 0, /d (inode 1) has data block 1 and
    no empty entry, and no data block is free. *)
Definition full_subdir_image : fs_ctx :=
  match a1fs_mkdir "/d"%string mode_0755 now0
          (snd (mkfs blank_image 28672 32 now0)) with
  | Some (_, fs1) =>
      match all_return_0 (fun p => a1fs_create p mode_file now0)
              sixteen_files fs1 with
      | Some fs2 => fs2
      | None => blank_image
      end
  | None => blank_image
  end.

(** The path of a file of the root directory whose name is [n] times the
    letter n. *)
Fixpoint repeat_string (c : ascii) (n : nat) : string :=
  match n with
  | O => EmptyString
  | S n' => String c (repeat_string c n')
  end.

Definition long_path (n : nat) : string :=
  String "/"%char (repeat_string "n"%char n).

(** * Properties *)

(** Evaluation of a scenario down to equations between numerals. *)
Ltac run_scenario := vm_compute; repeat split; try reflexivity.

(** ** Frame lemmas: what the allocator leaves alone *)

Create HintDb frame.

Lemma same_sizes_refl fs : same_sizes fs fs.
Proof. intro j. reflexivity. Qed.

Lemma same_sizes_trans fs1 fs2 fs3 :
  same_sizes fs1 fs2 -> same_sizes fs2 fs3 -> same_sizes fs1 fs3.
Proof. intros H12 H23 j. rewrite H23. apply H12. Qed.

Lemma same_sizes_set_inode fs ino i :
  i_size i = i_size (inode_table fs ino) -> same_sizes fs (set_inode fs ino i).
Proof.
  intros Hi j. unfold set_inode, set_inode_table, upd. simpl.
  destruct (j =? ino) eqn:E; [apply Z.eqb_eq in E; subst j; exact Hi | reflexivity].
Qed.

Lemma same_sizes_store_extent_start fs p v :
  same_sizes fs (store_extent_start fs p v).
Proof.
  destruct p as [ino index | a]; simpl.
  - apply same_sizes_set_inode. reflexivity.
  - intro j. reflexivity.
Qed.

Lemma same_sizes_store_extent_count fs p v :
  same_sizes fs (store_extent_count fs p v).
Proof.
  destruct p as [ino index | a]; simpl.
  - apply same_sizes_set_inode. reflexivity.
  - intro j. reflexivity.
Qed.

#[local] Hint Resolve same_sizes_refl same_sizes_store_extent_start
  same_sizes_store_extent_count : frame.

Lemma same_sizes_update_last_extent ino start count fs :
  same_sizes fs (update_last_extent ino start count fs).
Proof.
  unfold update_last_extent.
  set (fs1 := set_d_bitmap fs _).
  set (fs2 := if _ =? _ then _ else fs1).
  assert (H2 : same_sizes fs fs2).
  { subst fs2. destruct (_ =? _).
    - eapply same_sizes_trans; [| apply same_sizes_set_inode; reflexivity ].
      intro j. reflexivity.
    - intro j. reflexivity. }
  set (extent := get_extent _ _ _).
  eapply same_sizes_trans; [exact H2 |].
  eapply same_sizes_trans; [apply (same_sizes_store_extent_start fs2 extent start) |].
  set (fs3 := store_extent_start fs2 extent start).
  eapply same_sizes_trans; [apply (same_sizes_store_extent_count fs3 extent count) |].
  intro j. reflexivity.
Qed.

(** ** The free-run finder always reports a sequence of length at least 1 *)

Lemma ffs_update_max_nonneg st :
  0 <= max_e st - max_s st ->
  0 <= max_e (ffs_update_max st) - max_s (ffs_update_max st).
Proof.
  intro H. unfold ffs_update_max.
  destruct (_ >? _) eqn:E; simpl; [| exact H].
  apply Z.gtb_lt in E. lia.
Qed.

Lemma ffs_scan_inv needed bm : forall n i st,
  0 <= max_e st - max_s st ->
  match ffs_scan n i needed bm st with
  | inl t => t_end t - t_start t = needed
  | inr st' => 0 <= max_e st' - max_s st'
  end.
Proof.
  induction n as [| n IH]; intros i st H; simpl; [exact H |].
  destruct (bit_is_set bm i).
  - destruct (_ =? needed) eqn:E.
    + simpl. apply Z.eqb_eq in E. exact E.
    + apply IH. simpl. apply ffs_update_max_nonneg. exact H.
  - apply IH. simpl. exact H.
Qed.

Lemma first_free_sequence_len needed fs :
  1 <= needed ->
  1 <= t_end (first_free_sequence needed fs)
       - t_start (first_free_sequence needed fs) + 1.
Proof.
  intro Hn. unfold first_free_sequence.
  pose proof (ffs_scan_inv needed (d_bitmap fs)
                (Z.to_nat (num_tot_dblocks (superblock fs))) 0
                (mk_ffs 0 0 0 0)) as H.
  simpl in H. specialize (H ltac:(lia)).
  destruct (ffs_scan _ _ _ _ _) as [t | st].
  - lia.
  - apply ffs_update_max_nonneg in H.
    destruct (_ >=? _); simpl; lia.
Qed.

(** ** The allocation loop terminates and keeps the sizes *)

Lemma alloc_loop_total : forall fuel remainder ino fs,
  remainder <= Z.of_nat fuel ->
  exists r fs',
    alloc_loop fuel remainder ino fs = Some (r, fs')
    /\ (r = 0 \/ r = - ENOSPC)
    /\ same_sizes fs fs'.
Proof.
  induction fuel as [| fuel IH]; intros remainder ino fs Hf.
  - simpl. destruct (0 <? remainder) eqn:E.
    + apply Z.ltb_lt in E. lia.
    + exists 0, fs. auto with frame.
  - cbn [alloc_loop]. destruct (0 <? remainder) eqn:E.
    + apply Z.ltb_lt in E.
      destruct (_ =? 512).
      * exists (- ENOSPC), fs. auto with frame.
      * pose proof (first_free_sequence_len remainder fs ltac:(lia)) as Hlen.
        set (t := first_free_sequence remainder fs) in *.
        set (fs2 := update_last_extent _ _ _ _).
        destruct (IH (remainder - (t_end t - t_start t + 1)) ino fs2 ltac:(lia))
          as (r & fs' & Hrun & Hr & Hs).
        exists r, fs'. repeat split; [exact Hrun | exact Hr |].
        eapply same_sizes_trans; [| exact Hs].
        subst fs2.
        eapply same_sizes_trans;
          [| apply same_sizes_update_last_extent ].
        apply same_sizes_set_inode. reflexivity.
    + exists 0, fs. auto with frame.
Qed.

Lemma same_sizes_extend_last_extent ino blks_needed fs :
  same_sizes fs (snd (extend_last_extent ino blks_needed fs)).
Proof.
  unfold extend_last_extent.
  destruct (negb _); [| apply same_sizes_refl].
  destruct (negb _); [| apply same_sizes_refl].
  destruct (_ >=? _); cbn [snd]; apply same_sizes_update_last_extent.
Qed.

(** Within its iteration budget the allocator returns, with 0 or with
    -ENOSPC. *)
Lemma allocate_data_blocks_total ino size fs :
  exists r fs',
    allocate_data_blocks ino size fs = Some (r, fs')
    /\ (r = 0 \/ r = - ENOSPC).
Proof.
  unfold allocate_data_blocks.
  set (blks_needed := u32 _).
  destruct (blks_needed =? 0).
  { exists 0, fs. auto. }
  destruct (_ <? blks_needed).
  { exists (- ENOSPC), fs. auto. }
  destruct (extend_last_extent ino blks_needed fs) as [remainder fs1].
  destruct (alloc_loop_total (Z.to_nat remainder) remainder ino fs1 ltac:(lia))
    as (r & fs' & Hrun & Hr & _).
  exists r, fs'. auto.
Qed.

(** C9.  The size of the inode does not survive every growth.  On
    [overrun_image] the bitmap view has 32768 bits before the inode table
    and the image 32767 data blocks, the last of them allocated.  Asked
    for 2200 blocks, first_free_sequence answers with the blocks 32767 to
    34966, a run that begins where the data blocks end, and
    allocate_data_blocks on /c (inode 1, size 0) returns 0 after
    update_last_extent has set these bits: the bitmap view then holds 255
    in the bytes that lie at the offsets of the size of inode 1 (and of
    the size of the root directory), where it held 0.  In C these bytes
    are the size field itself, which reads 2^64 - 1 after the call.  The
    state reached has the bit of block 32767 set, which is the bit of no
    data block. *)
Theorem allocate_data_blocks_overwrites_size :
  bitmap_bits overrun_image = 32768
  /\ num_tot_dblocks (superblock overrun_image) = 32767
  /\ first_free_sequence 2200 overrun_image = mk_tuple 32767 34966
  /\ i_size (inode_table overrun_image 1) = 0
  /\ d_bitmap_over_i_size 1 overrun_image = [0; 0; 0; 0; 0; 0; 0; 0]
  /\ returns (allocate_data_blocks 1 (2200 * A1FS_BLOCK_SIZE) overrun_image) 0
       (fun fs' =>
          d_bitmap_over_i_size 1 fs'
          = [255; 255; 255; 255; 255; 255; 255; 255]
          /\ d_bitmap_over_i_size 0 fs'
             = [255; 255; 255; 255; 255; 255; 255; 255]
          /\ bit_is_set (d_bitmap fs') (num_tot_dblocks (superblock fs'))
             = true).
Proof. run_scenario. Qed.

(** The entry points reach a state of the shape of [overrun_image].  On
    an image of 36 blocks the calls of [small_overrun_image] all return 0
    and leave the 32 data blocks with the blocks 0, 1 and 31 allocated,
    /c without block, /a with size 0 and block 1, /b with block 31.  In
    this state first_free_sequence answers a request for 5 blocks with the
    blocks 32 to 36, past the last data block, and allocate_data_blocks
    on /c returns 0 with the bit of block 32 set. *)
Lemma overrun_reached_by_entry_points :
  match small_overrun_image with
  | Some fs =>
      num_tot_dblocks (superblock fs) = 32
      /\ num_free_dblocks (superblock fs) = 29
      /\ map (d_bitmap fs) [0; 1; 2; 3] = [3; 0; 0; 128]
      /\ path_lookup "/c"%string fs = Some 1
      /\ num_extents (inode_table fs 1) = 0
      /\ i_size (inode_table fs 2) = 0
      /\ num_extents (inode_table fs 2) = 1
      /\ direct_extents (inode_table fs 2) 0 = mk_extent 1 1
      /\ i_size (inode_table fs 3) = 4096
      /\ direct_extents (inode_table fs 3) 0 = mk_extent 31 1
      /\ first_free_sequence 5 fs = mk_tuple 32 36
      /\ returns (allocate_data_blocks 1 (5 * A1FS_BLOCK_SIZE) fs) 0
           (fun fs' =>
              bit_is_set (d_bitmap fs') (num_tot_dblocks (superblock fs'))
              = true)
  | None => False
  end.
Proof. run_scenario. Qed.

(** ** Paths that are not absolute *)

Lemma byte_of_ascii_inj c d : byte_of_ascii c = byte_of_ascii d -> c = d.
Proof.
  unfold byte_of_ascii. intro H. apply N2Z.inj in H.
  rewrite <- (ascii_N_embedding c), <- (ascii_N_embedding d), H. reflexivity.
Qed.

Lemma cstr_first_not_slash path :
  String.get 0 path <> Some "/"%char -> nth 0 (cstr path) 0 <> slash.
Proof.
  destruct path as [| c rest]; simpl; intro H.
  - discriminate.
  - destruct (byte_of_ascii c =? 0) eqn:E0; simpl; [discriminate |].
    intro Hc. apply H. f_equal.
    apply byte_of_ascii_inj. rewrite Hc. reflexivity.
Qed.

Lemma nth_0_strncpy_local l :
  nth 0 (strncpy_local l A1FS_PATH_MAX) 0 = nth 0 l 0.
Proof. destruct l; reflexivity. Qed.

(** C10. For every path whose first character is not '/' (the empty path
    included, whose first byte is the terminator), [path_lookup] returns
    -ENOENT, whatever the image holds.  The function is embedded as a
    function of the state that produces no new state, as the source only
    reads the image; the image is therefore the same after the call. *)
Theorem path_lookup_rejects_relative : forall path fs,
  String.get 0 path <> Some "/"%char ->
  path_lookup path fs = Some (- ENOENT).
Proof.
  intros path fs H. unfold path_lookup, path_lookup_bytes.
  rewrite nth_0_strncpy_local.
  apply cstr_first_not_slash in H.
  destruct (nth 0 (cstr path) 0 =? slash) eqn:E.
  - apply Z.eqb_eq in E. contradiction.
  - reflexivity.
Qed.

(** C10 at the relative path "f" on the fresh image. *)
Lemma path_lookup_rejects_relative_witness :
  String.get 0 "f"%string <> Some "/"%char
  /\ path_lookup "f"%string fresh_image = Some (- ENOENT).
Proof.
  assert (H : String.get 0 "f"%string <> Some "/"%char) by (simpl; discriminate).
  split; [exact H | exact (path_lookup_rejects_relative "f"%string fresh_image H)].
Defined.

(** ** add_dir_entry on a full parent with no free data block *)

Lemma one_block_needed isz :
  u32 (Ceil (if negb (isz mod A1FS_BLOCK_SIZE =? 0)
             then u64 (A1FS_BLOCK_SIZE - isz mod A1FS_BLOCK_SIZE)
             else A1FS_BLOCK_SIZE) A1FS_BLOCK_SIZE) = 1.
Proof.
  unfold A1FS_BLOCK_SIZE, Ceil, u32, u64.
  pose proof (Z.mod_pos_bound isz 4096 ltac:(lia)) as Hr.
  destruct (isz mod 4096 =? 0) eqn:E; simpl negb; cbv iota.
  - reflexivity.
  - apply Z.eqb_neq in E.
    rewrite (Z.mod_small (4096 - isz mod 4096)) by lia.
    replace ((4096 - isz mod 4096 + 4096 - 1) / 4096) with 1.
    + reflexivity.
    + apply Z.div_unique with (r := 4095 - isz mod 4096); lia.
Qed.

Lemma allocate_one_block_no_space par fs :
  num_free_dblocks (superblock fs) = 0 ->
  allocate_data_blocks par A1FS_BLOCK_SIZE fs = Some (- ENOSPC, fs).
Proof.
  intro Hfree. unfold allocate_data_blocks.
  rewrite one_block_needed, Hfree. reflexivity.
Qed.

Lemma superblock_after_link_increment mode_ par fs :
  superblock (after_link_increment mode_ par fs) = superblock fs.
Proof. unfold after_link_increment. destruct (S_ISDIR mode_); reflexivity. Qed.

(** The return of [add_dir_entry] on a full parent, in general.  When the
    parent directory has no empty entry and no data block is free,
    [add_dir_entry] returns -ENOSPC in the state in which it scanned the
    parent: the one before the call for a mode that is not a directory,
    and the one with the link count of the parent raised by one, a store
    that no later statement takes back, for a directory. *)
Lemma add_dir_entry_full_parent_no_space :
  forall path mode_ links_ now fs parent_path file_name par,
    num_free_inodes (superblock fs) <> 0 ->
    split_path (cstr path) = Some (parent_path, file_name) ->
    Z.of_nat (List.length file_name) <= A1FS_NAME_MAX ->
    path_lookup_bytes parent_path fs = Some par ->
    find_empty_dentry (iter_fuel par (after_link_increment mode_ par fs))
      (block_iterator_init par (after_link_increment mode_ par fs))
      (after_link_increment mode_ par fs) = Some NoSlot ->
    num_free_dblocks (superblock fs) = 0 ->
    add_dir_entry path mode_ links_ now fs
    = Some (- ENOSPC, after_link_increment mode_ par fs)
    /\ (S_ISDIR mode_ = false -> after_link_increment mode_ par fs = fs)
    /\ (S_ISDIR mode_ = true ->
        links (inode_table (after_link_increment mode_ par fs) par)
        = u32 (links (inode_table fs par) + 1)).
Proof.
  intros path mode_ links_ now fs parent_path file_name par
         Hino Hsplit Hname Hpar Hscan Hfree.
  split; [| split].
  - unfold add_dir_entry, add_dir_entry_bytes.
    destruct (num_free_inodes (superblock fs) =? 0) eqn:E;
      [apply Z.eqb_eq in E; contradiction |].
    rewrite Hsplit.
    destruct (Z.of_nat (List.length file_name) >? A1FS_NAME_MAX) eqn:En;
      [apply Z.gtb_lt in En; lia |].
    rewrite Hpar.
    fold (after_link_increment mode_ par fs).
    rewrite Hscan.
    rewrite allocate_one_block_no_space
      by (rewrite superblock_after_link_increment; exact Hfree).
    reflexivity.
  - intro Hm. unfold after_link_increment. rewrite Hm. reflexivity.
  - intro Hm. unfold after_link_increment. rewrite Hm.
    unfold inc_links, set_inode, set_inode_table, upd. simpl.
    rewrite Z.eqb_refl. reflexivity.
Qed.

(** The same at mkdir of /x on [full_dir_image]: the root directory is
    full, no data block is free, and the call returns -ENOSPC with the link
    count of the root raised from 2 to 3. *)
Lemma add_dir_entry_full_parent_no_space_at_root :
  (num_free_inodes (superblock full_dir_image) <> 0
   /\ split_path (cstr "/x"%string) = Some ([slash], [120])
   /\ Z.of_nat (List.length [120]) <= A1FS_NAME_MAX
   /\ path_lookup_bytes [slash] full_dir_image = Some 0
   /\ num_free_dblocks (superblock full_dir_image) = 0)
  /\ add_dir_entry "/x"%string (Z.lor mode_0755 S_IFDIR) 2 now0 full_dir_image
     = Some (- ENOSPC,
             after_link_increment (Z.lor mode_0755 S_IFDIR) 0 full_dir_image)
  /\ (S_ISDIR (Z.lor mode_0755 S_IFDIR) = false ->
      after_link_increment (Z.lor mode_0755 S_IFDIR) 0 full_dir_image
      = full_dir_image)
  /\ (S_ISDIR (Z.lor mode_0755 S_IFDIR) = true ->
      links (inode_table
               (after_link_increment (Z.lor mode_0755 S_IFDIR) 0 full_dir_image) 0)
      = u32 (links (inode_table full_dir_image 0) + 1)).
Proof.
  assert (H1 : num_free_inodes (superblock full_dir_image) <> 0)
    by (vm_compute; discriminate).
  assert (H2 : split_path (cstr "/x"%string) = Some ([slash], [120]))
    by reflexivity.
  assert (H3 : Z.of_nat (List.length [120]) <= A1FS_NAME_MAX)
    by (vm_compute; discriminate).
  assert (H4 : path_lookup_bytes [slash] full_dir_image = Some 0)
    by (vm_compute; reflexivity).
  assert (H6 : num_free_dblocks (superblock full_dir_image) = 0)
    by reflexivity.
  split; [repeat split; assumption |].
  apply (add_dir_entry_full_parent_no_space "/x"%string
           (Z.lor mode_0755 S_IFDIR) 2 now0 full_dir_image [slash] [120] 0
           H1 H2 H3 H4).
  - vm_compute. reflexivity.
  - exact H6.
Defined.

(** C7.  The increment of the link count of the parent is not undone.
    On [full_dir_image], where P1 holds, the root directory is full and no
    data block is free: mkdir of /x returns -ENOSPC, yet the link count of
    the root directory is 3 afterwards and was 2 before, so the state is
    not the one before the call. *)
Theorem add_dir_entry_enospc_keeps_link_increment :
  bitmap_accounting full_dir_image
  /\ links (inode_table full_dir_image 0) = 2
  /\ returns (a1fs_mkdir "/x"%string mode_0755 now0 full_dir_image) (- ENOSPC)
       (fun fs' =>
          links (inode_table fs' 0) = 3
          /\ links (inode_table fs' 0) <> links (inode_table full_dir_image 0)).
Proof. run_scenario. discriminate. Qed.

(** What the increment that stays costs.  On [full_subdir_image] the
    directory /d (inode 1, link count 2) is full and no data block is
    free.  After the mkdir of /d/x that returns -ENOSPC, the sixteen files
    of /d are removed and rmdir of /d returns 0: the name is gone, but
    inode 1 keeps a link count of 1 and its data block stays allocated, so
    that 30 inodes are free and no data block.  Without the failed mkdir
    the same removals leave 31 free inodes and the block of /d free. *)
Lemma add_dir_entry_enospc_leaks_directory :
  links (inode_table full_subdir_image 1) = 2
  /\ num_free_dblocks (superblock full_subdir_image) = 0
  /\ returns (a1fs_mkdir "/d/x"%string mode_0755 now0 full_subdir_image)
       (- ENOSPC)
       (fun fs1 =>
          links (inode_table fs1 1) = 3
          /\ match all_return_0 a1fs_unlink sixteen_files fs1 with
             | Some fs2 =>
                 returns (a1fs_rmdir "/d"%string fs2) 0 (fun fs3 =>
                   path_lookup "/d"%string fs3 = Some (- ENOENT)
                   /\ links (inode_table fs3 1) = 1
                   /\ num_free_inodes (superblock fs3) = 30
                   /\ bit_is_set (d_bitmap fs3) 1 = true)
             | None => False
             end)
  /\ match all_return_0 a1fs_unlink sixteen_files full_subdir_image with
     | Some fs2 =>
         returns (a1fs_rmdir "/d"%string fs2) 0 (fun fs3 =>
           path_lookup "/d"%string fs3 = Some (- ENOENT)
           /\ links (inode_table fs3 1) = 0
           /\ num_free_inodes (superblock fs3) = 31
           /\ bit_is_set (d_bitmap fs3) 1 = false)
     | None => False
     end.
Proof. run_scenario. Qed.

(** ** statfs *)

(** What [a1fs_statfs] reports.  It returns 0 and fills in the block
    size 4096, the image size divided by the block size, the free data
    blocks of the superblock (as free and as available), the total and the
    free inode counts of the superblock, and A1FS_NAME_MAX itself as the
    maximum name length.  On a 1 MiB image formatted with 32 inodes,
    whatever it held before, this is f_bsize = 4096, f_blocks = 256,
    f_bfree = f_bavail = 251, f_files = 32, f_ffree = 31 and
    f_namemax = 252. *)
Lemma a1fs_statfs_fields :
  (forall fs,
     a1fs_statfs fs
     = (0, mk_statvfs A1FS_BLOCK_SIZE A1FS_BLOCK_SIZE
             (s_size (superblock fs) / A1FS_BLOCK_SIZE)
             (num_free_dblocks (superblock fs))
             (num_free_dblocks (superblock fs))
             (num_inodes (superblock fs))
             (num_free_inodes (superblock fs))
             (num_free_inodes (superblock fs))
             A1FS_NAME_MAX))
  /\ (forall image t,
        fst (mkfs image 1048576 32 (Some t)) = true
        /\ a1fs_statfs (snd (mkfs image 1048576 32 (Some t)))
           = (0, mk_statvfs 4096 4096 256 251 251 32 31 31 252)).
Proof.
  split.
  - intro fs. reflexivity.
  - intros image t. split; reflexivity.
Qed.

(** C8.  The maximum name length reported is one too large.  On the
    freshly formatted image of 1 MiB with 32 inodes, a1fs_statfs returns 0
    with f_bsize = 4096, f_blocks = 256, f_files = 32 and f_ffree = 31, but
    with f_namemax = 252, which is A1FS_NAME_MAX and not
    A1FS_NAME_MAX - 1 = 251. *)
Theorem a1fs_statfs_namemax_is_name_max :
  fst (a1fs_statfs fresh_image) = 0
  /\ f_bsize (snd (a1fs_statfs fresh_image)) = 4096
  /\ f_blocks (snd (a1fs_statfs fresh_image)) = 256
  /\ f_files (snd (a1fs_statfs fresh_image)) = 32
  /\ f_ffree (snd (a1fs_statfs fresh_image)) = 31
  /\ f_namemax (snd (a1fs_statfs fresh_image)) = 252
  /\ f_namemax (snd (a1fs_statfs fresh_image)) = A1FS_NAME_MAX
  /\ f_namemax (snd (a1fs_statfs fresh_image)) <> A1FS_NAME_MAX - 1.
Proof. repeat split; vm_compute; (reflexivity || discriminate). Qed.

(** A name of 252 bytes, the length reported, does not work.  It passes
    the length test of [add_dir_entry] and is stored without its
    terminator, so that the comparison of [path_lookup] runs on into the
    inode number of the next entry.  On the fresh image the file is
    created and found as long as the next entry is unused; once /y has
    been created in it, the file is no longer found.  A name of 251 bytes
    is found before and after, one of 253 bytes is refused. *)
Lemma name_of_name_max_bytes_is_lost :
  returns (a1fs_create (long_path 252) mode_file now0 fresh_image) 0
    (fun fs1 =>
       path_lookup (long_path 252) fs1 = Some 1
       /\ returns (a1fs_create "/y"%string mode_file now0 fs1) 0 (fun fs2 =>
            path_lookup "/y"%string fs2 = Some 2
            /\ path_lookup (long_path 252) fs2 = Some (- ENOENT)))
  /\ returns (a1fs_create (long_path 251) mode_file now0 fresh_image) 0
       (fun fs1 =>
          path_lookup (long_path 251) fs1 = Some 1
          /\ returns (a1fs_create "/y"%string mode_file now0 fs1) 0 (fun fs2 =>
               path_lookup (long_path 251) fs2 = Some 1))
  /\ returns (a1fs_create (long_path 253) mode_file now0 fresh_image)
       (- ENAMETOOLONG) (fun _ => True).
Proof. run_scenario. Qed.

(** ** Scenarios on which the code departs from its contract *)

(** C1.  The accounting invariant holds after formatting, after the
    creation of /f and after its extension to two blocks, and is broken by
    the successful unlink that follows: the two bits of the file are
    cleared (250 zero bits) while the free counter goes from 248 to 252. *)
Theorem unlink_breaks_bitmap_accounting :
  fst (mkfs blank_image 1048576 32 now0) = true
  /\ bitmap_accounting fresh_image
  /\ returns (a1fs_create "/f"%string mode_file now0 fresh_image) 0 (fun fs1 =>
       bitmap_accounting fs1
       /\ returns (a1fs_truncate "/f"%string 8192 now0 fs1) 0 (fun fs2 =>
            bitmap_accounting fs2
            /\ num_free_dblocks (superblock fs2) = 248
            /\ returns (a1fs_unlink "/f"%string fs2) 0 (fun fs3 =>
                 count_zero_bits (d_bitmap fs3)
                   (Z.to_nat (num_tot_dblocks (superblock fs3))) = 250
                 /\ num_free_dblocks (superblock fs3) = 252
                 /\ ~ bitmap_accounting fs3))).
Proof.
  run_scenario.
  intros [H _]. discriminate H.
Qed.

(** C2.  With one block needed, on the bitmap 0,1 the finder returns the
    tuple (0, 1), which its callers read as the two blocks 0 and 1, the
    second of which is allocated; the first run long enough is block 0
    alone.  On the bitmap 0,0,0,1,1 it returns (5, 5), a block past the end
    of the bitmap, where the first run long enough starts at block 0. *)
Theorem first_free_sequence_exact_fit_overruns :
  (num_free_dblocks (superblock exact_fit_image) = 1
   /\ bit_is_set (d_bitmap exact_fit_image) 0 = false
   /\ bit_is_set (d_bitmap exact_fit_image) 1 = true
   /\ first_free_sequence 1 exact_fit_image = mk_tuple 0 1)
  /\ (map (bit_is_set (d_bitmap long_run_image)) [0; 1; 2; 3; 4]
      = [false; false; false; true; true]
      /\ num_tot_dblocks (superblock long_run_image) = 5
      /\ first_free_sequence 1 long_run_image = mk_tuple 5 5).
Proof. run_scenario. Qed.

(** C3.  On [stale_image] the invariant P1 holds and /f is empty.  The
    write of "ab" at offset 0 returns 2; the write of "XYZ" at offset 4099
    returns 3 and makes the size 4102.  The bytes written read back, but
    position 4098, which lies in the hole between the two writes and was
    never written, reads as 'Z' (90) instead of 0. *)
Theorem hole_write_leaves_stale_bytes :
  bitmap_accounting stale_image
  /\ path_lookup "/f"%string stale_image = Some 1
  /\ i_size (inode_table stale_image 1) = 0
  /\ returns (a1fs_write "/f"%string (buf_of_string "ab") 2 0 now0 stale_image)
       2 (fun fs1 =>
       returns (a1fs_write "/f"%string (buf_of_string "XYZ") 3 4099 now0 fs1)
         3 (fun fs2 =>
         i_size (inode_table fs2 1) = 4102
         /\ returns (a1fs_read "/f"%string zero_buf 2 0 fs2) 2 (fun buf =>
              map buf [0; 1] = [97; 98])
         /\ returns (a1fs_read "/f"%string zero_buf 3 4099 fs2) 3 (fun buf =>
              map buf [0; 1; 2] = [88; 89; 90])
         /\ returns (a1fs_read "/f"%string zero_buf 1 4098 fs2) 1 (fun buf =>
              buf 0 = 90))).
Proof. run_scenario. Qed.

(** The situation of [stale_image] arises from a zeroed, freshly formatted
    image through the entry points alone: /g is written and removed, which
    leaves its bytes in the freed blocks; /f then gets the same blocks, and
    position 4099 of /f, inside the hole of its second write, reads as the
    'Z' of /g. *)
Lemma stale_bytes_arise_from_unlink :
  returns (a1fs_create "/g"%string mode_file now0 fresh_image) 0 (fun fs1 =>
  returns (a1fs_write "/g"%string (buf_of_string "ZZZ") 3 4099 now0 fs1) 3
    (fun fs2 =>
  returns (a1fs_unlink "/g"%string fs2) 0 (fun fs3 =>
  returns (a1fs_create "/f"%string mode_file now0 fs3) 0 (fun fs4 =>
  returns (a1fs_write "/f"%string (buf_of_string "ab") 2 0 now0 fs4) 2
    (fun fs5 =>
  returns (a1fs_write "/f"%string (buf_of_string "WXYZ") 4 4100 now0 fs5) 4
    (fun fs6 =>
     i_size (inode_table fs6 1) = 4104
     /\ returns (a1fs_read "/f"%string zero_buf 1 4099 fs6) 1 (fun buf =>
          buf 0 = 90))))))).
Proof. run_scenario. Qed.

(** C4.  After the creation of /f on the fresh image and the write of the
    five bytes "hello" at offset 0, the file has size 5; a read of one byte
    at offset 5, and a read of ten bytes at offset 4096, both entirely past
    the end of the file, return 1 and 10. *)
Theorem read_past_eof_returns_bytes :
  returns (a1fs_create "/f"%string mode_file now0 fresh_image) 0 (fun fs1 =>
    returns (a1fs_write "/f"%string (buf_of_string "hello") 5 0 now0 fs1) 5
      (fun fs2 =>
         path_lookup "/f"%string fs2 = Some 1
         /\ i_size (inode_table fs2 1) = 5
         /\ returns (a1fs_read "/f"%string zero_buf 1 5 fs2) 1 (fun _ => True)
         /\ returns (a1fs_read "/f"%string zero_buf 10 4096 fs2) 10
              (fun _ => True))).
Proof. run_scenario. Qed.

(** What the shrinking branch of [a1fs_truncate] does keep: for a file
    whose extents are all inline, it returns 0, leaves every byte of the
    data region as it was and sets the size to the new size. *)

Lemma i32_small i : 0 <= i < 2 ^ 31 -> i32 i = i.
Proof. intro H. unfold i32. rewrite Z.mod_small; lia. Qed.

Lemma shrink_extent_blocks_data ino index size : forall n b blk_idx ne fs,
  data_blks (snd (shrink_extent_blocks n b blk_idx size ne
                    (DirectExtent ino index) ino fs)) = data_blks fs.
Proof.
  induction n as [| n IH]; intros b blk_idx ne fs; [reflexivity |].
  cbn [shrink_extent_blocks].
  destruct (_ >? size); [| apply IH].
  destruct (_ =? 0).
  - rewrite IH. destruct (_ =? ne); reflexivity.
  - rewrite IH. reflexivity.
Qed.

Lemma shrink_extents_data size ino : forall n i blk_idx ne fs,
  0 <= i -> i + Z.of_nat n <= A1FS_NUM_DIRECT_EXTENT ->
  data_blks (snd (shrink_extents n i blk_idx size ne ino fs)) = data_blks fs.
Proof.
  induction n as [| n IH]; intros i blk_idx ne fs Hi Hn; [reflexivity |].
  cbn [shrink_extents].
  assert (Hp : get_extent ino (i32 i) fs = DirectExtent ino (i32 i)).
  { unfold get_extent. unfold A1FS_NUM_DIRECT_EXTENT in *.
    rewrite i32_small by lia.
    destruct (i <? 10) eqn:E; [reflexivity | apply Z.ltb_ge in E; lia]. }
  rewrite Hp.
  pose proof (shrink_extent_blocks_data ino (i32 i) size
                (extent_span (e_start (load_extent fs (DirectExtent ino (i32 i))))
                   (i32 (e_count (load_extent fs (DirectExtent ino (i32 i))))))
                (e_start (load_extent fs (DirectExtent ino (i32 i))))
                blk_idx ne fs) as Hd.
  destruct (shrink_extent_blocks _ _ _ _ _ _ _ _) as [[blk_idx' ne'] fs'].
  simpl in Hd. rewrite IH by lia. exact Hd.
Qed.

Lemma inode_after_set_mtime ino t fs :
  inode_table (set_mtime ino t fs) ino = i_set_mtime (inode_table fs ino) t.
Proof.
  unfold set_mtime, set_inode, set_inode_table, upd. simpl.
  rewrite Z.eqb_refl. reflexivity.
Qed.

Lemma i_size_after_set_i_size ino v fs :
  i_size (inode_table (set_i_size ino v fs) ino) = v.
Proof.
  unfold set_i_size, set_inode, set_inode_table, upd. simpl.
  rewrite Z.eqb_refl. reflexivity.
Qed.

(** X18.  With a working clock, for a file whose extents are all inline,
    a truncation to a smaller size returns 0, leaves every byte of the
    data region as it was, and records the new size in the inode. *)
Lemma truncate_shrink_keeps_data_and_sets_size path size t fs ino :
  path_lookup path fs = Some ino ->
  0 <= num_extents (inode_table fs ino) <= A1FS_NUM_DIRECT_EXTENT ->
  u64 size < i_size (inode_table fs ino) ->
  exists fs',
    a1fs_truncate path size (Some t) fs = Some (0, fs')
    /\ data_blks fs' = data_blks fs
    /\ i_size (inode_table fs' ino) = u64 size.
Proof.
  intros Hl Hn Hs. unfold a1fs_truncate. rewrite Hl.
  rewrite inode_after_set_mtime.
  cbn [i_size i_set_mtime num_extents].
  destruct (u64 size >? i_size (inode_table fs ino)) eqn:E1;
    [apply Z.gtb_lt in E1; lia |].
  destruct (u64 size <? i_size (inode_table fs ino)) eqn:E2;
    [| apply Z.ltb_ge in E2; lia].
  match goal with
  | |- context [shrink_extents ?n ?i ?b ?s ?ne ?io ?f] =>
      assert (Hd : data_blks (snd (shrink_extents n i b s ne io f)) = data_blks f)
        by (apply shrink_extents_data; unfold A1FS_NUM_DIRECT_EXTENT in *; lia);
      destruct (shrink_extents n i b s ne io f) as [ne' fs2]
  end.
  simpl in Hd.
  eexists. split; [reflexivity |]. split.
  - simpl. exact Hd.
  - apply i_size_after_set_i_size.
Qed.

(** C5.  (a) /f is created on the fresh image and extended to 8192 bytes,
    in the data blocks 1 and 2; its truncation to 4096 bytes returns 0 and
    sets the size, but frees nothing: the block that starts at file byte
    4096 keeps its bit, the extent keeps both blocks and the free counter
    stays at 248.  (b) On [eleven_extent_image], where P1 holds, the
    truncation of /f to 40000 bytes frees the eleventh block and takes the
    extent count from 11 to 10, yet the indirect block (data block 1) keeps
    its bit; the next truncation, to 36000 bytes, takes the count from 10
    to 9 and it is then that the bit of block 1 is cleared. *)
Theorem truncate_shrink_keeps_boundary_block :
  returns (a1fs_create "/f"%string mode_file now0 fresh_image) 0 (fun fs1 =>
    returns (a1fs_truncate "/f"%string 8192 now0 fs1) 0 (fun fs2 =>
      direct_extents (inode_table fs2 1) 0 = mk_extent 1 2
      /\ num_free_dblocks (superblock fs2) = 248
      /\ returns (a1fs_truncate "/f"%string 4096 now0 fs2) 0 (fun fs3 =>
           i_size (inode_table fs3 1) = 4096
           /\ bit_is_set (d_bitmap fs3) 2 = true
           /\ direct_extents (inode_table fs3 1) 0 = mk_extent 1 2
           /\ num_free_dblocks (superblock fs3) = 248)))
  /\ bitmap_accounting eleven_extent_image
  /\ returns (a1fs_truncate "/f"%string 40000 now0 eleven_extent_image) 0
       (fun fs1 =>
          num_extents (inode_table fs1 1) = 10
          /\ bit_is_set (d_bitmap fs1) 22 = false
          /\ bit_is_set (d_bitmap fs1) 1 = true
          /\ num_free_dblocks (superblock fs1) = 20
          /\ returns (a1fs_truncate "/f"%string 36000 now0 fs1) 0 (fun fs2 =>
               num_extents (inode_table fs2 1) = 9
               /\ bit_is_set (d_bitmap fs2) 20 = false
               /\ bit_is_set (d_bitmap fs2) 1 = false
               /\ num_free_dblocks (superblock fs2) = 22)).
Proof. run_scenario. Qed.

(** C6.  (a) /f is created on the fresh image and extended to one extent of
    two blocks (data blocks 1 and 2).  Its removal takes the link count to
    0, raises the free inode counter by one and clears both bits, but
    raises the free block counter by four, from 248 to 252.  (b) On
    [eleven_extent_image] the removal of /f, which has eleven extents,
    leaves the bit of its indirect block (data block 1) set. *)
Theorem remove_dir_entry_overcredits_free_blocks :
  returns (a1fs_create "/f"%string mode_file now0 fresh_image) 0 (fun fs1 =>
    returns (a1fs_truncate "/f"%string 8192 now0 fs1) 0 (fun fs2 =>
      num_extents (inode_table fs2 1) = 1
      /\ direct_extents (inode_table fs2 1) 0 = mk_extent 1 2
      /\ num_free_inodes (superblock fs2) = 30
      /\ num_free_dblocks (superblock fs2) = 248
      /\ match remove_dir_entry "/f"%string fs2 with
         | Some fs3 =>
             links (inode_table fs3 1) = 0
             /\ num_free_inodes (superblock fs3) = 31
             /\ bit_is_set (d_bitmap fs3) 1 = false
             /\ bit_is_set (d_bitmap fs3) 2 = false
             /\ num_free_dblocks (superblock fs3) = 252
         | None => False
         end))
  /\ num_extents (inode_table eleven_extent_image 1) = 11
  /\ indirect_extent_blk (inode_table eleven_extent_image 1) = 1
  /\ match remove_dir_entry "/f"%string eleven_extent_image with
     | Some fs' =>
         links (inode_table fs' 1) = 0
         /\ bit_is_set (d_bitmap fs') 1 = true
         /\ num_free_dblocks (superblock fs') = 30
     | None => False
     end.
Proof. run_scenario. Qed.
(** * Further properties of the code *)


(** ** Bits of the data bitmap *)

Lemma land_shiftl_1 x k :
  0 <= k ->
  Z.land x (Z.shiftl 1 k) = if Z.testbit x k then Z.shiftl 1 k else 0.
Proof.
  intro Hk. rewrite Z.shiftl_1_l. apply Z.bits_inj'. intros n Hn.
  rewrite Z.land_spec, Z.pow2_bits_eqb by lia.
  destruct (k =? n) eqn:E.
  - apply Z.eqb_eq in E. subst n. rewrite andb_true_r.
    destruct (Z.testbit x k).
    + rewrite Z.pow2_bits_eqb by lia. symmetry. apply Z.eqb_refl.
    + rewrite Z.bits_0. reflexivity.
  - rewrite andb_false_r.
    destruct (Z.testbit x k).
    + rewrite Z.pow2_bits_eqb by lia. symmetry. exact E.
    + rewrite Z.bits_0. reflexivity.
Qed.

Lemma shiftl_1_nonzero k : 0 <= k -> Z.shiftl 1 k <> 0.
Proof.
  intro Hk. rewrite Z.shiftl_1_l. apply Z.pow_nonzero; lia.
Qed.

Lemma bit_is_set_testbit bm i :
  bit_is_set bm i = Z.testbit (bm (i / 8)) (i mod 8).
Proof.
  unfold bit_is_set.
  pose proof (Z.mod_pos_bound i 8 ltac:(lia)) as Hm.
  rewrite land_shiftl_1 by lia.
  destruct (Z.testbit _ _).
  - pose proof (shiftl_1_nonzero (i mod 8) ltac:(lia)) as Hz.
    apply Z.eqb_neq in Hz. rewrite Hz. reflexivity.
  - reflexivity.
Qed.

Lemma testbit_shiftl_1 k j :
  0 <= k -> 0 <= j -> Z.testbit (Z.shiftl 1 k) j = (j =? k).
Proof.
  intros Hk Hj. rewrite Z.shiftl_1_l, Z.pow2_bits_eqb by lia.
  apply Z.eqb_sym.
Qed.

Lemma testbit_u8 x j : 0 <= j < 8 -> Z.testbit (u8 x) j = Z.testbit x j.
Proof.
  intro Hj. unfold u8. change 256 with (2 ^ 8).
  apply Z.mod_pow2_bits_low. lia.
Qed.

Lemma same_byte_same_bit i b :
  0 <= i -> 0 <= b -> i / 8 = b / 8 -> (i mod 8 =? b mod 8) = (i =? b).
Proof.
  intros Hi Hb Hd.
  pose proof (Z.div_mod i 8 ltac:(lia)).
  pose proof (Z.div_mod b 8 ltac:(lia)).
  destruct (i mod 8 =? b mod 8) eqn:E.
  - apply Z.eqb_eq in E. symmetry. apply Z.eqb_eq. lia.
  - apply Z.eqb_neq in E. symmetry. apply Z.eqb_neq. intro. subst. lia.
Qed.

Lemma bit_is_set_bitmap_set bm b i :
  0 <= b -> 0 <= i ->
  bit_is_set (bitmap_set bm b) i = (i =? b) || bit_is_set bm i.
Proof.
  intros Hb Hi. rewrite !bit_is_set_testbit. unfold bitmap_set, upd.
  rewrite Z.quot_div_nonneg, Z.rem_mod_nonneg by lia.
  pose proof (Z.mod_pos_bound i 8 ltac:(lia)) as Hm.
  pose proof (Z.mod_pos_bound b 8 ltac:(lia)) as Hm'.
  destruct (i / 8 =? b / 8) eqn:E.
  - apply Z.eqb_eq in E.
    rewrite testbit_u8 by lia.
    rewrite Z.lor_spec, testbit_shiftl_1 by lia.
    rewrite same_byte_same_bit by lia.
    rewrite E. apply orb_comm.
  - apply Z.eqb_neq in E.
    replace (i =? b) with false; [reflexivity |].
    symmetry. apply Z.eqb_neq. intro. subst. contradiction.
Qed.

Lemma bit_is_set_bitmap_clear bm b i :
  0 <= b -> 0 <= i ->
  bit_is_set (bitmap_clear bm b) i = negb (i =? b) && bit_is_set bm i.
Proof.
  intros Hb Hi. rewrite !bit_is_set_testbit. unfold bitmap_clear, upd.
  pose proof (Z.mod_pos_bound i 8 ltac:(lia)) as Hm.
  pose proof (Z.mod_pos_bound b 8 ltac:(lia)) as Hm'.
  destruct (i / 8 =? b / 8) eqn:E.
  - apply Z.eqb_eq in E.
    rewrite testbit_u8 by lia.
    rewrite Z.land_spec, Z.lnot_spec, testbit_shiftl_1 by lia.
    rewrite same_byte_same_bit by lia.
    rewrite E. apply andb_comm.
  - apply Z.eqb_neq in E.
    replace (i =? b) with false; [reflexivity |].
    symmetry. apply Z.eqb_neq. intro. subst. contradiction.
Qed.

Lemma bit_is_set_mark_bits : forall n b bm i,
  0 <= b -> 0 <= i ->
  bit_is_set (mark_bits n b bm) i
  = ((b <=? i) && (i <? b + Z.of_nat n)) || bit_is_set bm i.
Proof.
  induction n as [| n IH]; intros b bm i Hb Hi.
  - simpl. replace ((b <=? i) && (i <? b + 0)) with false; [reflexivity |].
    symmetry. apply andb_false_iff.
    destruct (Z.lt_ge_cases i b); [left; apply Z.leb_gt; lia | right; apply Z.ltb_ge; lia].
  - cbn [mark_bits]. rewrite IH by lia.
    rewrite bit_is_set_bitmap_set by lia.
    destruct (i =? b) eqn:E1, (b <=? i) eqn:E2, (i <? b + Z.of_nat (S n)) eqn:E3,
             (b + 1 <=? i) eqn:E4, (i <? b + 1 + Z.of_nat n) eqn:E5;
      try reflexivity;
      repeat match goal with
             | H : (_ =? _) = true |- _ => apply Z.eqb_eq in H
             | H : (_ =? _) = false |- _ => apply Z.eqb_neq in H
             | H : (_ <=? _) = true |- _ => apply Z.leb_le in H
             | H : (_ <=? _) = false |- _ => apply Z.leb_gt in H
             | H : (_ <? _) = true |- _ => apply Z.ltb_lt in H
             | H : (_ <? _) = false |- _ => apply Z.ltb_ge in H
             end; try lia; destruct (bit_is_set bm i); reflexivity || lia.
Qed.


(** ** update_last_extent and the bitmap *)
Lemma d_bitmap_store_extent_start fs p v :
  d_bitmap (store_extent_start fs p v) = d_bitmap fs.
Proof. destruct p; reflexivity. Qed.

Lemma d_bitmap_store_extent_count fs p v :
  d_bitmap (store_extent_count fs p v) = d_bitmap fs.
Proof. destruct p; reflexivity. Qed.

(** X1.  Let the bitmap lie after the superblock, the inode have an inode
    number that is not negative and between 1 and K extents (its last
    extent is then a field of its record and no indirect block is
    allocated), and let the blocks start .. start+count-1 be blocks whose
    bits lie in the bitmap, before the inode table.  Then
    update_last_extent sets the bits of these blocks and leaves every
    other bit of the bitmap as it was. *)
Theorem update_last_extent_marks_range ino start count fs i :
  1 < data_bitmap (superblock fs) ->
  0 <= ino ->
  1 <= num_extents (inode_table fs ino) <= A1FS_NUM_DIRECT_EXTENT ->
  0 <= start -> start + count <= bitmap_bits fs -> start + count < 2 ^ 31 ->
  0 <= i < bitmap_bits fs ->
  bit_is_set (d_bitmap (update_last_extent ino start count fs)) i
  = ((start <=? i) && (i <? start + count)) || bit_is_set (d_bitmap fs) i.
Proof.
  intros _ _ Hn Hs _ _ Hi.
  assert (Hbm : d_bitmap (update_last_extent ino start count fs)
                = mark_bits (Z.to_nat count) start (d_bitmap fs)).
  { unfold update_last_extent.
    cbn [set_d_bitmap inode_table].
    assert (Hk : num_extents (inode_table fs ino) <> A1FS_NUM_DIRECT_EXTENT + 1)
      by lia.
    apply Z.eqb_neq in Hk. rewrite Hk.
    unfold dec_free_dblocks. cbn [set_superblock d_bitmap].
    rewrite d_bitmap_store_extent_count, d_bitmap_store_extent_start.
    reflexivity. }
  rewrite Hbm, bit_is_set_mark_bits by lia.
  destruct (Z.le_gt_cases 0 count).
  - rewrite Z2Nat.id by lia. reflexivity.
  - replace (Z.of_nat (Z.to_nat count)) with 0 by lia.
    f_equal.
    destruct (start <=? i) eqn:E; [| reflexivity]. apply Z.leb_le in E.
    cbn [andb].
    transitivity false; [apply Z.ltb_ge; lia | symmetry; apply Z.ltb_ge; lia].
Qed.

(** X1 on [stale_image], whose bitmap has 32768 bits: the one extent of
    the root directory, block 0, is extended to the blocks 0 and 1, and
    bit 1 is set. *)
Lemma update_last_extent_marks_range_witness :
  (1 < data_bitmap (superblock stale_image)
   /\ 0 <= 0
   /\ 1 <= num_extents (inode_table stale_image 0) <= A1FS_NUM_DIRECT_EXTENT
   /\ 0 <= 0 /\ 0 + 2 <= bitmap_bits stale_image /\ 0 + 2 < 2 ^ 31
   /\ 0 <= 1 < bitmap_bits stale_image)
  /\ bit_is_set (d_bitmap (update_last_extent 0 0 2 stale_image)) 1
     = ((0 <=? 1) && (1 <? 0 + 2)) || bit_is_set (d_bitmap stale_image) 1.
Proof.
  assert (H1 : 1 < data_bitmap (superblock stale_image)) by reflexivity.
  assert (H2 : 0 <= 0) by lia.
  assert (H3 : 1 <= num_extents (inode_table stale_image 0)
               <= A1FS_NUM_DIRECT_EXTENT)
    by (split; vm_compute; discriminate).
  assert (H4 : 0 + 2 <= bitmap_bits stale_image) by (vm_compute; discriminate).
  assert (H5 : 0 + 2 < 2 ^ 31) by reflexivity.
  assert (H6 : 0 <= 1 < bitmap_bits stale_image)
    by (split; vm_compute; (reflexivity || discriminate)).
  split; [repeat split; assumption || apply H3 || apply H6 |].
  exact (update_last_extent_marks_range 0 0 2 stale_image 1 H1 H2 H3 H2 H4 H5 H6).
Defined.

(** ** tail_length *)
Lemma tail_scan_spec bm : forall n i len,
  0 <= i ->
  let r := tail_scan n i len bm in
  len <= r <= len + Z.of_nat n
  /\ (forall j, i <= j < i + (r - len) -> bit_is_set bm j = false)
  /\ (r - len < Z.of_nat n -> bit_is_set bm (i + (r - len)) = true).
Proof.
  induction n as [| n IH]; intros i len Hi; cbn [tail_scan].
  - cbv zeta. split; [lia |]. split; [intros j Hj; lia | intro; lia].
  - cbv zeta. destruct (bit_is_set bm i) eqn:E.
    + split; [lia |]. split; [intros j Hj; lia |].
      intros _. replace (i + (len - len)) with i by lia. exact E.
    + specialize (IH (i + 1) (len + 1) ltac:(lia)). cbv zeta in IH.
      destruct IH as (Hr & Hfree & Hstop).
      set (r := tail_scan n (i + 1) (len + 1) bm) in *.
      split; [lia |]. split.
      * intros j Hj. destruct (Z.eq_dec j i) as [-> | Hne]; [exact E |].
        apply Hfree. lia.
      * intro Hlt. replace (i + (r - len)) with (i + 1 + (r - (len + 1))) by lia.
        apply Hstop. lia.
Qed.

(** X2.  For a start within the bitmap, tail_length returns the length of
    the run of free blocks that begins at start: the result stays within
    the bitmap, every block of the run is free, and the block after the
    run, if there is one, is allocated. *)
Theorem tail_length_spec start fs :
  0 <= start <= num_tot_dblocks (superblock fs) ->
  0 <= tail_length start fs <= num_tot_dblocks (superblock fs) - start
  /\ (forall j, start <= j < start + tail_length start fs ->
        bit_is_set (d_bitmap fs) j = false)
  /\ (start + tail_length start fs < num_tot_dblocks (superblock fs) ->
      bit_is_set (d_bitmap fs) (start + tail_length start fs) = true).
Proof.
  intros Hs. unfold tail_length.
  pose proof (tail_scan_spec (d_bitmap fs)
                (Z.to_nat (num_tot_dblocks (superblock fs) - start)) start 0
                ltac:(lia)) as H.
  cbv zeta in H. rewrite Z2Nat.id in H by lia.
  set (r := tail_scan _ _ _ _) in *.
  destruct H as (Hr & Hfree & Hstop).
  replace (r - 0) with r in * by lia.
  split; [lia |]. split; [exact Hfree |].
  intro Hlt. apply Hstop. lia.
Qed.

Lemma tail_length_spec_witness :
  0 <= 1 <= num_tot_dblocks (superblock stale_image)
  /\ (0 <= tail_length 1 stale_image
           <= num_tot_dblocks (superblock stale_image) - 1
      /\ (forall j, 1 <= j < 1 + tail_length 1 stale_image ->
            bit_is_set (d_bitmap stale_image) j = false)
      /\ (1 + tail_length 1 stale_image
          < num_tot_dblocks (superblock stale_image) ->
          bit_is_set (d_bitmap stale_image) (1 + tail_length 1 stale_image)
          = true)).
Proof.
  assert (H : 0 <= 1 <= num_tot_dblocks (superblock stale_image))
    by (change (num_tot_dblocks (superblock stale_image)) with 32; lia).
  split; [exact H | exact (tail_length_spec 1 stale_image H)].
Defined.

(** ** find_empty_inode *)
Lemma find_empty_inode_from_spec fs : forall n i,
  (find_empty_inode_from n i fs = -1
   /\ forall j, i <= j < i + Z.of_nat n -> links (inode_table fs j) <> 0)
  \/ (exists r, i <= r < i + Z.of_nat n
                /\ find_empty_inode_from n i fs = i32 r
                /\ links (inode_table fs r) = 0
                /\ forall j, i <= j < r -> links (inode_table fs j) <> 0).
Proof.
  induction n as [| n IH]; intros i; cbn [find_empty_inode_from].
  - left. split; [reflexivity | intros j Hj; lia].
  - destruct (links (inode_table fs i) =? 0) eqn:E.
    + apply Z.eqb_eq in E. right. exists i. split; [lia |].
      split; [reflexivity |]. split; [exact E |].
      intros j Hj. lia.
    + apply Z.eqb_neq in E.
      destruct (IH (i + 1)) as [[Hr Hall] | (r & Hr & Er & Hz & Hall)].
      * left. split; [exact Hr |]. intros j Hj.
        destruct (Z.eq_dec j i) as [-> | Hne]; [exact E | apply Hall; lia].
      * right. exists r. split; [lia |]. split; [exact Er |].
        split; [exact Hz |]. intros j Hj.
        destruct (Z.eq_dec j i) as [-> | Hne]; [exact E | apply Hall; lia].
Qed.

Lemma u32_i32 z : 0 <= z < 2 ^ 32 -> u32 (i32 z) = z.
Proof.
  intro H. unfold u32, i32.
  rewrite Zminus_mod_idemp_l.
  replace (z + 2 ^ 31 - 2 ^ 31) with z by lia.
  apply Z.mod_small. exact H.
Qed.

(** X3.  On an image with at most 2^31 inodes, so that every inode
    number is an [int], find_empty_inode returns the least inode number
    below num_inodes whose link count is 0, and -1 exactly when every
    inode of the table has links. *)
Theorem find_empty_inode_first_free fs :
  num_inodes (superblock fs) <= 2 ^ 31 ->
  (find_empty_inode fs = -1
   /\ forall j, 0 <= j < num_inodes (superblock fs) ->
        links (inode_table fs j) <> 0)
  \/ (0 <= find_empty_inode fs < num_inodes (superblock fs)
      /\ links (inode_table fs (find_empty_inode fs)) = 0
      /\ forall j, 0 <= j < find_empty_inode fs ->
           links (inode_table fs j) <> 0).
Proof.
  intro Hn. unfold find_empty_inode.
  destruct (find_empty_inode_from_spec fs
              (Z.to_nat (num_inodes (superblock fs))) 0)
    as [[Hr Hall] | (r & Hr & Er & Hz & Hall)].
  - left. split; [exact Hr |]. intros j Hj. apply Hall. lia.
  - right. rewrite Er, i32_small by lia.
    split; [lia |]. split; [exact Hz | exact Hall].
Qed.

(** X3 on the fresh image, whose 32 inodes are free but for the root:
    inode 1 is found. *)
Lemma find_empty_inode_first_free_witness :
  num_inodes (superblock fresh_image) <= 2 ^ 31
  /\ ((find_empty_inode fresh_image = -1
       /\ forall j, 0 <= j < num_inodes (superblock fresh_image) ->
            links (inode_table fresh_image j) <> 0)
      \/ (0 <= find_empty_inode fresh_image < num_inodes (superblock fresh_image)
          /\ links (inode_table fresh_image (find_empty_inode fresh_image)) = 0
          /\ forall j, 0 <= j < find_empty_inode fresh_image ->
               links (inode_table fresh_image j) <> 0)).
Proof.
  assert (H : num_inodes (superblock fresh_image) <= 2 ^ 31)
    by (vm_compute; discriminate).
  split; [exact H | exact (find_empty_inode_first_free fresh_image H)].
Defined.

(** ** first_free_sequence on a bitmap without allocated block *)
Lemma ffs_scan_all_free needed bm : forall n i st,
  (forall j, i <= j < i + Z.of_nat n -> bit_is_set bm j = false) ->
  ffs_scan n i needed bm st
  = inr (mk_ffs (max_s st) (max_e st) (cur_start st) (cur_end st + Z.of_nat n)).
Proof.
  induction n as [| n IH]; intros i st Hfree.
  - simpl. destruct st; simpl. rewrite Z.add_0_r. reflexivity.
  - cbn [ffs_scan]. rewrite (Hfree i) by lia.
    rewrite IH by (intros j Hj; apply Hfree; lia).
    simpl. do 2 f_equal. lia.
Qed.

(** X4.  On a bitmap without any allocated block, first_free_sequence
    answers a request of needed >= 1 blocks with the tuple that starts at
    block 0 and ends at block min(needed, total) - 1. *)
Theorem first_free_sequence_on_free_bitmap needed fs :
  1 <= needed ->
  1 <= num_tot_dblocks (superblock fs) ->
  (forall j, 0 <= j < num_tot_dblocks (superblock fs) ->
     bit_is_set (d_bitmap fs) j = false) ->
  first_free_sequence needed fs
  = mk_tuple 0 (Z.min needed (num_tot_dblocks (superblock fs)) - 1).
Proof.
  intros Hn Ht Hfree. unfold first_free_sequence.
  rewrite ffs_scan_all_free
    by (intros j Hj; apply Hfree; rewrite Z2Nat.id in Hj; lia).
  rewrite Z2Nat.id by lia. cbn [max_s max_e cur_start cur_end].
  unfold ffs_update_max. cbn [max_s max_e cur_start cur_end].
  set (n := num_tot_dblocks (superblock fs)) in *.
  replace (0 + n - 0 >? 0 - 0) with true by (symmetry; apply Z.gtb_lt; lia).
  cbn [max_s max_e cur_start cur_end].
  destruct (0 + n - 1 - 0 >=? needed) eqn:E.
  - apply Z.geb_le in E. f_equal. lia.
  - rewrite Z.geb_leb in E. apply Z.leb_gt in E. f_equal. lia.
Qed.

Lemma first_free_sequence_on_free_bitmap_witness :
  (1 <= 3
   /\ 1 <= num_tot_dblocks (superblock fresh_image)
   /\ (forall j, 0 <= j < num_tot_dblocks (superblock fresh_image) ->
         bit_is_set (d_bitmap fresh_image) j = false))
  /\ first_free_sequence 3 fresh_image
     = mk_tuple 0 (Z.min 3 (num_tot_dblocks (superblock fresh_image)) - 1).
Proof.
  assert (H1 : 1 <= 3) by lia.
  assert (H2 : 1 <= num_tot_dblocks (superblock fresh_image))
    by (vm_compute; discriminate).
  assert (H3 : forall j, 0 <= j < num_tot_dblocks (superblock fresh_image) ->
                 bit_is_set (d_bitmap fresh_image) j = false).
  { intros j _. unfold bit_is_set.
    assert (E : d_bitmap fresh_image = memzero (d_bitmap blank_image) 4096)
      by (vm_compute; reflexivity).
    rewrite E. unfold memzero. destruct (_ && _); reflexivity. }
  split; [auto |].
  exact (first_free_sequence_on_free_bitmap 3 fresh_image H1 H2 H3).
Defined.


(** ** path_lookup: result codes *)


Lemma i32_range z : - 2 ^ 31 <= i32 z < 2 ^ 31.
Proof.
  unfold i32. pose proof (Z.mod_pos_bound (z + 2 ^ 31) (2 ^ 32) ltac:(lia)). lia.
Qed.

Lemma lookup_dentries_range component fs blk : forall n d_ind cur,
  - 2 ^ 31 <= cur < 2 ^ 31 ->
  - 2 ^ 31 <= lookup_dentries n d_ind blk component cur fs < 2 ^ 31.
Proof.
  induction n as [| n IH]; intros d_ind cur Hc; cbn [lookup_dentries]; [exact Hc |].
  apply IH. destruct (strcmp_eq _ _ _); [apply i32_range | exact Hc].
Qed.

Lemma lookup_blocks_range component fs : forall fuel b_iter cur r,
  - 2 ^ 31 <= cur < 2 ^ 31 ->
  lookup_blocks fuel b_iter component cur fs = Some r ->
  - 2 ^ 31 <= r < 2 ^ 31.
Proof.
  induction fuel as [| fuel IH]; intros b_iter cur r Hc H; cbn [lookup_blocks] in H;
    [discriminate |].
  destruct (block_iterator_next_blk b_iter fs) as [[blk |] b_iter'].
  - eapply IH; [| exact H]. apply lookup_dentries_range. exact Hc.
  - injection H as <-. exact Hc.
Qed.

Lemma lookup_components_codes fs : forall components cur r,
  - 2 ^ 31 <= cur < 2 ^ 31 ->
  lookup_components components cur fs = Some r -> lookup_code r.
Proof.
  induction components as [| c rest IH]; intros cur r Hc H; cbn [lookup_components] in H.
  - injection H as <-. destruct (cur >=? 0) eqn:E.
    + left. apply Z.geb_le in E. lia.
    + right. left. reflexivity.
  - destruct (cur <? 0); [injection H as <-; right; left; reflexivity |].
    destruct (negb _); [injection H as <-; right; right; reflexivity |].
    destruct (lookup_blocks _ _ _ _ _) as [found |] eqn:Hb; [| discriminate].
    eapply IH; [| exact H].
    eapply lookup_blocks_range; [| exact Hb]. lia.
Qed.

Lemma path_lookup_bytes_codes p fs r :
  path_lookup_bytes p fs = Some r -> lookup_code r.
Proof.
  unfold path_lookup_bytes. destruct (negb _).
  - intro H. injection H as <-. right. left. reflexivity.
  - apply lookup_components_codes. lia.
Qed.

Lemma path_lookup_unfold path fs :
  path_lookup path fs = path_lookup_bytes (cstr path) fs.
Proof. unfold path_lookup. reflexivity. Qed.

(** X5.  Whatever the path and the image, a result of path_lookup is an
    inode number in the range of a non-negative int, -ENOENT or -ENOTDIR;
    no other negative value comes out of it. *)
Theorem path_lookup_result_codes path fs r :
  path_lookup path fs = Some r ->
  0 <= r < 2 ^ 31 \/ r = - ENOENT \/ r = - ENOTDIR.
Proof. unfold path_lookup. apply path_lookup_bytes_codes. Qed.

(** ** path_lookup: a trailing slash *)

Lemma strtok_all_trailing_slash : forall s cur,
  strtok_all (s ++ [slash]) cur = strtok_all s cur.
Proof.
  induction s as [| c s IH]; intro cur.
  - simpl. destruct cur; reflexivity.
  - cbn [app strtok_all]. destruct (c =? slash).
    + destruct cur; rewrite IH; reflexivity.
    + apply IH.
Qed.

Lemma path_lookup_result_codes_witness :
  path_lookup "/f"%string stale_image = Some 1
  /\ (0 <= 1 < 2 ^ 31 \/ 1 = - ENOENT \/ 1 = - ENOTDIR).
Proof.
  assert (H : path_lookup "/f"%string stale_image = Some 1)
    by (vm_compute; reflexivity).
  split; [exact H | exact (path_lookup_result_codes "/f"%string stale_image 1 H)].
Defined.

Lemma path_lookup_bytes_trailing_slash p fs :
  p <> [] -> Z.of_nat (List.length p) < A1FS_PATH_MAX ->
  path_lookup_bytes (p ++ [slash]) fs = path_lookup_bytes p fs.
Proof.
  intros Hp Hlen. unfold path_lookup_bytes, strncpy_local.
  rewrite !firstn_all2
    by (rewrite ?length_app; cbn [List.length]; unfold A1FS_PATH_MAX in *; lia).
  rewrite strtok_all_trailing_slash.
  destruct p as [| c p]; [contradiction | reflexivity].
Qed.

Lemma cstr_append_slash : forall path,
  cstr (path ++ "/") = cstr path
  \/ (cstr (path ++ "/") = cstr path ++ [slash]
      /\ (path <> EmptyString -> cstr path <> [])).
Proof.
  induction path as [| c path IH].
  - right. split; [reflexivity | intro H; contradiction].
  - cbn [append cstr]. destruct (byte_of_ascii c =? 0).
    + left. reflexivity.
    + destruct IH as [IH | [IH _]].
      * left. rewrite IH. reflexivity.
      * right. split; [rewrite IH; reflexivity | intros _; discriminate].
Qed.

(** X6.  A slash appended to a non-empty path shorter than A1FS_PATH_MAX
    does not change the result of path_lookup; in particular the path of a
    regular file followed by a slash resolves to that file, it is not
    refused with -ENOTDIR. *)
Theorem path_lookup_trailing_slash path fs :
  path <> EmptyString ->
  Z.of_nat (List.length (cstr path)) < A1FS_PATH_MAX ->
  path_lookup (path ++ "/") fs = path_lookup path fs.
Proof.
  intros Hp Hlen. unfold path_lookup.
  destruct (cstr_append_slash path) as [E | [E Hne]]; rewrite E; [reflexivity |].
  apply path_lookup_bytes_trailing_slash; auto.
Qed.

Lemma path_lookup_trailing_slash_witness :
  ("/f"%string <> EmptyString
   /\ Z.of_nat (List.length (cstr "/f"%string)) < A1FS_PATH_MAX)
  /\ path_lookup ("/f" ++ "/")%string stale_image
     = path_lookup "/f"%string stale_image.
Proof.
  assert (H1 : "/f"%string <> EmptyString) by discriminate.
  assert (H2 : Z.of_nat (List.length (cstr "/f"%string)) < A1FS_PATH_MAX)
    by (vm_compute; reflexivity).
  split; [auto |].
  exact (path_lookup_trailing_slash "/f"%string stale_image H1 H2).
Defined.

(** ** a1fs_getattr *)

(** X7.  a1fs_getattr has three outcomes.  A path of A1FS_PATH_MAX bytes
    or more gives -ENAMETOOLONG and leaves the caller's structure as it
    was.  A failed lookup gives its error, -ENOENT or -ENOTDIR, with the
    structure cleared.  Otherwise the result is 0 and the structure holds
    the mode, link count, size and modification time of the inode found,
    with st_blocks = size / 512. *)
Theorem a1fs_getattr_outcomes path st fs r st' :
  a1fs_getattr path st fs = Some (r, st') ->
  (r = - ENAMETOOLONG /\ st' = st
   /\ A1FS_PATH_MAX <= Z.of_nat (List.length (cstr path)))
  \/ ((r = - ENOENT \/ r = - ENOTDIR) /\ st' = zero_stat
      /\ path_lookup path fs = Some r)
  \/ (r = 0 /\ exists i,
        path_lookup path fs = Some i /\ 0 <= i
        /\ st' = mk_stat (mode (inode_table fs i)) (links (inode_table fs i))
                   (i_size (inode_table fs i)) (i_size (inode_table fs i) / 512)
                   (mtime (inode_table fs i))).
Proof.
  unfold a1fs_getattr. intro H.
  destruct (_ >=? A1FS_PATH_MAX) eqn:El.
  - injection H as <- <-. left. apply Z.geb_le in El. auto.
  - destruct (path_lookup path fs) as [i |] eqn:Hl; [| discriminate].
    pose proof Hl as Hc. rewrite path_lookup_unfold in Hc.
    apply path_lookup_bytes_codes in Hc.
    destruct (i <? 0) eqn:Ei.
    + injection H as <- <-. right. left. apply Z.ltb_lt in Ei.
      destruct Hc as [Hc | Hc]; [lia | auto].
    + injection H as <- <-. right. right. apply Z.ltb_ge in Ei.
      split; [reflexivity |]. exists i.
      destruct Hc as [Hc | [Hc | Hc]];
        [| unfold ENOENT in Hc; lia | unfold ENOTDIR in Hc; lia].
      assert (Hu : u32 i = i) by (unfold u32; apply Z.mod_small; lia).
      rewrite Hu. auto.
Qed.

Lemma a1fs_getattr_outcomes_witness :
  a1fs_getattr "/f"%string zero_stat stale_image
  = Some (0, mk_stat mode_file 1 0 0 (mk_timespec 0 0))
  /\ ((0 = - ENAMETOOLONG
       /\ mk_stat mode_file 1 0 0 (mk_timespec 0 0) = zero_stat
       /\ A1FS_PATH_MAX <= Z.of_nat (List.length (cstr "/f"%string)))
      \/ ((0 = - ENOENT \/ 0 = - ENOTDIR)
          /\ mk_stat mode_file 1 0 0 (mk_timespec 0 0) = zero_stat
          /\ path_lookup "/f"%string stale_image = Some 0)
      \/ (0 = 0 /\ exists i,
            path_lookup "/f"%string stale_image = Some i /\ 0 <= i
            /\ mk_stat mode_file 1 0 0 (mk_timespec 0 0)
               = mk_stat (mode (inode_table stale_image i))
                   (links (inode_table stale_image i))
                   (i_size (inode_table stale_image i))
                   (i_size (inode_table stale_image i) / 512)
                   (mtime (inode_table stale_image i)))).
Proof.
  assert (H : a1fs_getattr "/f"%string zero_stat stale_image
              = Some (0, mk_stat mode_file 1 0 0 (mk_timespec 0 0)))
    by (vm_compute; reflexivity).
  split; [exact H |].
  exact (a1fs_getattr_outcomes "/f"%string zero_stat stale_image 0 _ H).
Defined.


(** ** mkfs *)

(** The quantities that [mkfs] computes, for an image of [size] bytes and
    [n] inodes within the 32-bit range. *)
Lemma mkfs_layout_arith size n :
  0 <= size -> 0 <= n < 2 ^ 32 ->
  let total := u32 (size / A1FS_BLOCK_SIZE) in
  let bi := u32 (Ceil (u64 (n * sizeof_a1fs_inode)) A1FS_BLOCK_SIZE) in
  let nd := u32 (total - bi - 2) in
  let bd := u32 (Ceil nd (8 * A1FS_BLOCK_SIZE)) in
  (bi <=? 0) = false ->
  (total <? u32 (bi + bd + 2)) = false ->
  1 <= n
  /\ n <= bi * NUM_INODES_PER_BLOCK
  /\ 0 <= bd /\ 1 <= bi
  /\ nd = total - bi - 2
  /\ 0 <= nd - bd < 2 ^ 32
  /\ nd - bd <= 8 * (bd * A1FS_BLOCK_SIZE)
  /\ u32 (2 + bd) = 2 + bd
  /\ u32 (2 + bd + bi) = 2 + bd + bi
  /\ 2 + bd + bi + (nd - bd) = total
  /\ 3 <= total.
Proof.
  intros Hsize Hn total bi nd bd Hbi Hfit.
  apply Z.leb_gt in Hbi. apply Z.ltb_ge in Hfit.
  unfold NUM_INODES_PER_BLOCK, A1FS_BLOCK_SIZE, sizeof_a1fs_inode, Ceil, u32, u64
    in *.
  assert (Ht : 0 <= total < 2 ^ 32) by (apply Z.mod_pos_bound; lia).
  assert (Hu64 : (n * 256) mod 2 ^ 64 = n * 256) by (apply Z.mod_small; lia).
  assert (Hbi0 : 0 <= (n * 256 + 4096 - 1) / 4096 < 2 ^ 29)
    by (split; [apply Z.div_pos; lia | apply Z.div_lt_upper_bound; lia]).
  assert (Hbieq : bi = (n * 256 + 4096 - 1) / 4096).
  { subst bi. rewrite Hu64. apply Z.mod_small. lia. }
  assert (Hnd : 0 <= nd < 2 ^ 32) by (apply Z.mod_pos_bound; lia).
  assert (Hbd0 : 0 <= (nd + 8 * 4096 - 1) / (8 * 4096) < 2 ^ 18)
    by (split; [apply Z.div_pos; lia | apply Z.div_lt_upper_bound; lia]).
  assert (Hbdeq : bd = (nd + 8 * 4096 - 1) / (8 * 4096)).
  { subst bd. apply Z.mod_small. lia. }
  assert (Hsum : (bi + bd + 2) mod 2 ^ 32 = bi + bd + 2)
    by (apply Z.mod_small; lia).
  rewrite Hsum in Hfit.
  assert (Hndeq : nd = total - bi - 2).
  { subst nd. apply Z.mod_small. lia. }
  assert (Hceil_i : n * 256 <= 4096 * bi).
  { rewrite Hbieq. pose proof (Z.mul_succ_div_gt (n * 256 + 4096 - 1) 4096 ltac:(lia)). lia. }
  assert (Hceil_d : nd <= 32768 * bd /\ (1 <= nd -> bd <= nd)).
  { rewrite Hbdeq.
    pose proof (Z.mul_succ_div_gt (nd + 8 * 4096 - 1) (8 * 4096) ltac:(lia)).
    pose proof (Z.mul_div_le (nd + 8 * 4096 - 1) (8 * 4096) ltac:(lia)).
    split; [lia |]. intro. 
    assert ((nd + 8 * 4096 - 1) / (8 * 4096) <= nd); [| lia].
    apply Z.div_le_upper_bound; lia. }
  assert (Hn1 : 1 <= n).
  { destruct (Z.eq_dec n 0) as [E | ]; [| lia].
    exfalso. rewrite Hbieq, E in Hbi. revert Hbi. clear. intro Hbi.
    change ((0 * 256 + 4096 - 1) / 4096) with 0 in Hbi. lia. }
  change (4096 / 256) with 16.
  repeat split; try lia; rewrite Z.mod_small; lia.
Qed.

Lemma count_zero_bits_all_clear bm : forall n,
  (forall i, 0 <= i < Z.of_nat n -> bit_is_set bm i = false) ->
  count_zero_bits bm n = Z.of_nat n.
Proof.
  induction n as [| n IH]; intro H; [reflexivity |].
  cbn [count_zero_bits]. rewrite IH by (intros i Hi; apply H; lia).
  rewrite H by lia. lia.
Qed.

Lemma count_free_inodes_all_but_first tbl : forall n,
  links (tbl 0) <> 0 ->
  (forall i, 1 <= i <= Z.of_nat n -> links (tbl i) = 0) ->
  count_free_inodes tbl (S n) = Z.of_nat n.
Proof.
  induction n as [| n IH]; intros H0 H.
  - cbn. apply Z.eqb_neq in H0. rewrite H0. reflexivity.
  - assert (IH' : count_free_inodes tbl (S n) = Z.of_nat n)
      by (apply IH; [exact H0 | intros i Hi; apply H; lia]).
    change (count_free_inodes tbl (S (S n)))
      with (count_free_inodes tbl (S n)
            + (if links (tbl (Z.of_nat (S n))) =? 0 then 1 else 0)).
    rewrite IH', H by lia. cbn [Z.eqb]. lia.
Qed.

Lemma bit_is_set_zero_byte bm i : bm (i / 8) = 0 -> bit_is_set bm i = false.
Proof. intro H. unfold bit_is_set. rewrite H, Z.land_0_l. reflexivity. Qed.

(** X8.  A successful mkfs, with any image size and a number of inodes
    that fits 32 bits, leaves an image on which both counters of the
    superblock are exact: no bit of the data bitmap is set and the free
    data blocks are all the data blocks; the root is the only inode with
    links and the free inodes are all the others. *)
Theorem mkfs_establishes_accounting image size n t :
  0 <= size -> 0 <= n < 2 ^ 32 ->
  fst (mkfs image size n (Some t)) = true ->
  bitmap_accounting (snd (mkfs image size n (Some t))).
Proof.
  intros Hsize Hn. unfold mkfs.
  pose proof (mkfs_layout_arith size n Hsize Hn) as Ha. cbv zeta in Ha.
  set (total := u32 (size / A1FS_BLOCK_SIZE)) in *.
  set (bi := u32 (Ceil (u64 (n * sizeof_a1fs_inode)) A1FS_BLOCK_SIZE)) in *.
  set (nd := u32 (total - bi - 2)) in *.
  set (bd := u32 (Ceil nd (8 * A1FS_BLOCK_SIZE))) in *.
  destruct (bi <=? 0) eqn:E1; [discriminate |].
  destruct (total <? u32 (bi + bd + 2)) eqn:E2; [discriminate |].
  intros _.
  destruct (Ha eq_refl eq_refl)
    as (Hn1 & Hslots & Hbd & Hbi & Hnd & Htot & Hbits & _).
  assert (Hun : u32 n = n) by (unfold u32; apply Z.mod_small; lia).
  assert (Hut : u32 (nd - bd) = nd - bd) by (unfold u32; apply Z.mod_small; lia).
  unfold bitmap_accounting, init_inode.
  cbn [snd superblock d_bitmap inode_table set_inode set_inode_table
       set_superblock sb_set_free_inodes num_tot_dblocks num_free_dblocks
       num_inodes num_free_inodes].
  rewrite Hun, Hut. split.
  - rewrite count_zero_bits_all_clear; [lia |].
    intros i Hi. apply bit_is_set_zero_byte. unfold memzero.
    rewrite Z2Nat.id in Hi by lia.
    assert (Hb : 0 <= i / 8 < bd * A1FS_BLOCK_SIZE).
    { split; [apply Z.div_pos; lia | apply Z.div_lt_upper_bound; lia]. }
    destruct (0 <=? i / 8) eqn:Ea; [| apply Z.leb_gt in Ea; lia].
    destruct (i / 8 <? bd * A1FS_BLOCK_SIZE) eqn:Eb; [| apply Z.ltb_ge in Eb; lia].
    reflexivity.
  - replace (Z.to_nat n) with (S (Z.to_nat (n - 1))) by lia.
    rewrite count_free_inodes_all_but_first.
    + unfold u32. rewrite Z.mod_small; lia.
    + unfold upd. cbn. discriminate.
    + intros i Hi. unfold upd.
      destruct (i =? 0) eqn:E0; [apply Z.eqb_eq in E0; lia |].
      destruct (0 <=? i) eqn:Ea; [| apply Z.leb_gt in Ea; lia].
      destruct (i <? bi * NUM_INODES_PER_BLOCK) eqn:Eb; [| apply Z.ltb_ge in Eb; lia].
      reflexivity.
Qed.

Lemma mkfs_establishes_accounting_witness :
  (0 <= 1048576 /\ 0 <= 32 < 2 ^ 32
   /\ fst (mkfs blank_image 1048576 32 (Some (mk_timespec 1600000000 0)))
      = true)
  /\ bitmap_accounting
       (snd (mkfs blank_image 1048576 32 (Some (mk_timespec 1600000000 0)))).
Proof.
  assert (H1 : 0 <= 1048576) by lia.
  assert (H2 : 0 <= 32 < 2 ^ 32) by lia.
  assert (H3 : fst (mkfs blank_image 1048576 32
                      (Some (mk_timespec 1600000000 0))) = true)
    by (vm_compute; reflexivity).
  split; [auto |].
  exact (mkfs_establishes_accounting blank_image 1048576 32
           (mk_timespec 1600000000 0) H1 H2 H3).
Defined.

(** X9.  A successful mkfs records the magic number, the image size and
    the number of inodes, and lays the regions out in order: the bitmap at
    block 2, then the inode table, then the data blocks.  The bitmap
    region has a bit for every data block, the inode table has a slot for
    every inode, and the data region ends exactly at the last block of the
    image. *)
Theorem mkfs_layout_tiles_image image size n t :
  0 <= size -> 0 <= n < 2 ^ 32 ->
  fst (mkfs image size n (Some t)) = true ->
  let sb := superblock (snd (mkfs image size n (Some t))) in
  magic sb = A1FS_MAGIC /\ s_size sb = size /\ num_inodes sb = n
  /\ data_bitmap sb = 2
  /\ data_bitmap sb <= s_inode_table sb < data_blk sb
  /\ num_tot_dblocks sb
     <= 8 * A1FS_BLOCK_SIZE * (s_inode_table sb - data_bitmap sb)
  /\ num_inodes sb
     <= NUM_INODES_PER_BLOCK * (data_blk sb - s_inode_table sb)
  /\ data_blk sb + num_tot_dblocks sb = u32 (size / A1FS_BLOCK_SIZE).
Proof.
  intros Hsize Hn. unfold mkfs.
  pose proof (mkfs_layout_arith size n Hsize Hn) as Ha. cbv zeta in Ha.
  set (total := u32 (size / A1FS_BLOCK_SIZE)) in *.
  set (bi := u32 (Ceil (u64 (n * sizeof_a1fs_inode)) A1FS_BLOCK_SIZE)) in *.
  set (nd := u32 (total - bi - 2)) in *.
  set (bd := u32 (Ceil nd (8 * A1FS_BLOCK_SIZE))) in *.
  destruct (bi <=? 0) eqn:E1; [discriminate |].
  destruct (total <? u32 (bi + bd + 2)) eqn:E2; [discriminate |].
  intros _.
  destruct (Ha eq_refl eq_refl)
    as (Hn1 & Hslots & Hbd & Hbi & Hnd & Htot & Hbits & Hu1 & Hu2 & Hsum & _).
  assert (Hun : u32 n = n) by (unfold u32; apply Z.mod_small; lia).
  assert (Hut : u32 (nd - bd) = nd - bd) by (unfold u32; apply Z.mod_small; lia).
  unfold init_inode.
  cbn [snd superblock set_inode set_inode_table set_superblock sb_set_free_inodes
       magic s_size num_tot_dblocks num_inodes data_bitmap s_inode_table data_blk].
  rewrite Hun, Hut, Hu1, Hu2.
  repeat split; try reflexivity; lia.
Qed.

Lemma mkfs_layout_tiles_image_witness :
  (0 <= 147456 /\ 0 <= 16 < 2 ^ 32
   /\ fst (mkfs blank_image 147456 16 (Some (mk_timespec 1600000000 0)))
      = true)
  /\ (let sb := superblock
                  (snd (mkfs blank_image 147456 16
                          (Some (mk_timespec 1600000000 0)))) in
      magic sb = A1FS_MAGIC /\ s_size sb = 147456 /\ num_inodes sb = 16
      /\ data_bitmap sb = 2
      /\ data_bitmap sb <= s_inode_table sb < data_blk sb
      /\ num_tot_dblocks sb
         <= 8 * A1FS_BLOCK_SIZE * (s_inode_table sb - data_bitmap sb)
      /\ num_inodes sb
         <= NUM_INODES_PER_BLOCK * (data_blk sb - s_inode_table sb)
      /\ data_blk sb + num_tot_dblocks sb = u32 (147456 / A1FS_BLOCK_SIZE)).
Proof.
  assert (H1 : 0 <= 147456) by lia.
  assert (H2 : 0 <= 16 < 2 ^ 32) by lia.
  assert (H3 : fst (mkfs blank_image 147456 16
                      (Some (mk_timespec 1600000000 0))) = true)
    by (vm_compute; reflexivity).
  split; [auto |].
  exact (mkfs_layout_tiles_image blank_image 147456 16
           (mk_timespec 1600000000 0) H1 H2 H3).
Defined.

(** X10.  When the clock works, a mkfs that returns false has not written
    to the image: both refusals (no inode block, image too small for the
    metadata) come before the first store. *)
Theorem mkfs_failure_leaves_image image size n t :
  fst (mkfs image size n (Some t)) = false ->
  snd (mkfs image size n (Some t)) = image.
Proof.
  unfold mkfs.
  destruct (_ <=? 0); [reflexivity |].
  destruct (_ <? _); [reflexivity |].
  cbn. discriminate.
Qed.

Lemma mkfs_failure_leaves_image_witness :
  fst (mkfs blank_image 4096 1 (Some (mk_timespec 1600000000 0))) = false
  /\ snd (mkfs blank_image 4096 1 (Some (mk_timespec 1600000000 0)))
     = blank_image.
Proof.
  assert (H : fst (mkfs blank_image 4096 1 (Some (mk_timespec 1600000000 0)))
              = false) by (vm_compute; reflexivity).
  split; [exact H |].
  exact (mkfs_failure_leaves_image blank_image 4096 1
           (mk_timespec 1600000000 0) H).
Defined.

(** ** a1fs_is_present *)

Lemma a1fs_is_present_needs_one_block fs :
  s_size (superblock fs) <> 0 ->
  s_size (superblock fs) <> A1FS_BLOCK_SIZE ->
  a1fs_is_present fs = false.
Proof.
  intros H0 H1. unfold a1fs_is_present.
  destruct (negb _); [reflexivity |].
  destruct (negb _); [reflexivity |].
  destruct (negb _); [reflexivity |].
  destruct (negb (_ =? data_blk _)); [reflexivity |].
  match goal with
  | |- context [if negb ?c then 1 else 0] => destruct (negb c)
  end.
  - destruct (1 * A1FS_BLOCK_SIZE =? _) eqn:E; [| reflexivity].
    apply Z.eqb_eq in E. unfold A1FS_BLOCK_SIZE in *. lia.
  - destruct (0 * A1FS_BLOCK_SIZE =? _) eqn:E; [| reflexivity].
    apply Z.eqb_eq in E. unfold A1FS_BLOCK_SIZE in *. lia.
Qed.

(** X11.  a1fs_is_present answers false on every image that mkfs has just
    formatted with success: its last test compares the image size with
    the value of a comparison (0 or 1) times the block size, and a
    formatted image has at least three blocks. *)
Theorem a1fs_is_present_rejects_formatted image size n t :
  0 <= size -> 0 <= n < 2 ^ 32 ->
  fst (mkfs image size n (Some t)) = true ->
  a1fs_is_present (snd (mkfs image size n (Some t))) = false.
Proof.
  intros Hsize Hn Hok.
  pose proof (mkfs_layout_arith size n Hsize Hn) as Ha. cbv zeta in Ha.
  assert (Hs : s_size (superblock (snd (mkfs image size n (Some t)))) = size
               /\ 3 <= u32 (size / A1FS_BLOCK_SIZE)).
  { revert Hok. unfold mkfs.
    destruct (_ <=? 0) eqn:E1; [discriminate |].
    destruct (_ <? _) eqn:E2; [discriminate |].
    intros _. split; [reflexivity |].
    apply (Ha eq_refl eq_refl). }
  destruct Hs as [Hs Ht].
  assert (Hbig : 3 * 4096 <= size).
  { unfold u32, A1FS_BLOCK_SIZE in Ht.
    pose proof (Z.mod_le (size / 4096) (2 ^ 32) ltac:(apply Z.div_pos; lia) ltac:(lia)).
    pose proof (Z.mul_div_le size 4096 ltac:(lia)). lia. }
  apply a1fs_is_present_needs_one_block; rewrite Hs; unfold A1FS_BLOCK_SIZE; lia.
Qed.

Lemma a1fs_is_present_rejects_formatted_witness :
  (0 <= 1048576 /\ 0 <= 32 < 2 ^ 32
   /\ fst (mkfs blank_image 1048576 32 (Some (mk_timespec 1600000000 0)))
      = true)
  /\ a1fs_is_present
       (snd (mkfs blank_image 1048576 32 (Some (mk_timespec 1600000000 0))))
     = false.
Proof.
  assert (H1 : 0 <= 1048576) by lia.
  assert (H2 : 0 <= 32 < 2 ^ 32) by lia.
  assert (H3 : fst (mkfs blank_image 1048576 32
                      (Some (mk_timespec 1600000000 0))) = true)
    by (vm_compute; reflexivity).
  split; [auto |].
  exact (a1fs_is_present_rejects_formatted blank_image 1048576 32
           (mk_timespec 1600000000 0) H1 H2 H3).
Defined.


(** ** Reading never writes to the image nor past the bytes it returns *)

Lemma Min_block_bounds size :
  0 < size -> 0 < Min A1FS_BLOCK_SIZE size <= size.
Proof.
  intro H. unfold Min, A1FS_BLOCK_SIZE.
  destruct (4096 <? size) eqn:E; [apply Z.ltb_lt in E | apply Z.ltb_ge in E]; lia.
Qed.

Lemma copy_loop_read_frame offset : forall fuel b_iter size cur w buf fs n buf' fs',
  0 <= size ->
  copy_loop fuel b_iter size offset cur w false buf fs = Some (n, buf', fs') ->
  fs' = fs /\ w <= n <= w + size
  /\ forall k, ~ (w <= k < n) -> buf' k = buf k.
Proof.
  induction fuel as [| fuel IH]; intros b_iter size cur w buf fs n buf' fs' Hs H;
    cbn [copy_loop] in H; [discriminate |].
  destruct (block_iterator_next_blk b_iter fs) as [[blk |] b_iter'].
  2: { injection H as <- <- <-. split; [reflexivity |]. split; [lia | auto]. }
  destruct (size =? 0) eqn:E0.
  { injection H as <- <- <-. split; [reflexivity |]. split; [lia | auto]. }
  apply Z.eqb_neq in E0.
  destruct (cur - offset <=? A1FS_BLOCK_SIZE).
  - pose proof (Min_block_bounds size ltac:(lia)) as Hm.
    apply IH in H; [| lia].
    destruct H as (Hfs & Hn & Hbuf).
    split; [exact Hfs |]. split; [lia |].
    intros k Hk. rewrite Hbuf by lia.
    unfold memcpy.
    destruct (w <=? k) eqn:Ea; [| reflexivity]. apply Z.leb_le in Ea.
    destruct (k <? w + Min A1FS_BLOCK_SIZE size) eqn:Eb; [| reflexivity].
    apply Z.ltb_lt in Eb. lia.
  - apply IH in H; [| lia]. exact H.
Qed.


Lemma copy_read_frame ino buf size offset fs n buf' fs' :
  0 <= size < 2 ^ 31 ->
  copy_between_buf_and_fs ino buf size offset false fs = Some (n, buf', fs') ->
  fs' = fs /\ 0 <= n <= size
  /\ forall k, ~ (0 <= k < n) -> buf' k = buf k.
Proof.
  intros Hs H. unfold copy_between_buf_and_fs in H.
  destruct (copy_loop _ _ _ _ _ _ _ _ _) as [[[m b] f] |] eqn:Hc; [| discriminate].
  injection H as <- <- <-.
  apply copy_loop_read_frame in Hc; [| lia].
  destruct Hc as (Hfs & Hn & Hbuf).
  rewrite i32_small by lia. auto.
Qed.

(** X12.  In the direction from the image to the buffer, a call of
    copy_between_buf_and_fs that returns n for a request of size bytes
    leaves the file system as it was, has 0 <= n <= size, and has changed
    no byte of the buffer outside its first n. *)
Theorem read_copy_is_bounded_and_pure ino buf size offset fs n buf' fs' :
  0 <= size < 2 ^ 31 ->
  copy_between_buf_and_fs ino buf size offset false fs = Some (n, buf', fs') ->
  fs' = fs /\ 0 <= n <= size
  /\ forall k, ~ (0 <= k < n) -> buf' k = buf k.
Proof. apply copy_read_frame. Qed.

Lemma read_copy_is_bounded_and_pure_witness :
  (0 <= 5 < 2 ^ 31
   /\ copy_between_buf_and_fs 1 zero_buf 5 0 false eleven_extent_image
      = Some (5,
              memcpy zero_buf 0 (data_blks eleven_extent_image)
                (first_block 1 eleven_extent_image + 0) 5,
              eleven_extent_image))
  /\ (eleven_extent_image = eleven_extent_image /\ 0 <= 5 <= 5
      /\ forall k, ~ (0 <= k < 5) ->
           memcpy zero_buf 0 (data_blks eleven_extent_image)
             (first_block 1 eleven_extent_image + 0) 5 k
           = zero_buf k).
Proof.
  assert (H1 : 0 <= 5 < 2 ^ 31) by lia.
  assert (H2 : copy_between_buf_and_fs 1 zero_buf 5 0 false eleven_extent_image
               = Some (5,
                       memcpy zero_buf 0 (data_blks eleven_extent_image)
                         (first_block 1 eleven_extent_image + 0) 5,
                       eleven_extent_image))
    by reflexivity.
  split; [auto |].
  exact (read_copy_is_bounded_and_pure 1 zero_buf 5 0 eleven_extent_image
           5 _ _ H1 H2).
Defined.

(** X13.  A call of a1fs_read that returns n for a request of size bytes
    (below 2^31) has 0 <= n <= size, leaves the bytes n .. size-1 of the
    buffer at 0, and writes nothing outside the size bytes of the
    buffer. *)
Theorem a1fs_read_bounds path buf size offset fs n buf' :
  0 <= size < 2 ^ 31 ->
  a1fs_read path buf size offset fs = Some (n, buf') ->
  0 <= n <= size
  /\ (forall k, n <= k < size -> buf' k = 0)
  /\ (forall k, ~ (0 <= k < size) -> buf' k = buf k).
Proof.
  intros Hs. unfold a1fs_read. intro H.
  destruct (path_lookup path fs) as [ino |]; [| discriminate].
  destruct (copy_between_buf_and_fs _ _ _ _ _ _) as [[[m b] f] |] eqn:Hc;
    [| discriminate].
  injection H as <- <-.
  apply copy_read_frame in Hc; [| exact Hs].
  destruct Hc as (_ & Hn & Hbuf).
  split; [exact Hn |]. split.
  - intros k Hk. rewrite Hbuf by lia. unfold memzero.
    destruct (0 <=? k) eqn:Ea; [| apply Z.leb_gt in Ea; lia].
    destruct (k <? size) eqn:Eb; [| apply Z.ltb_ge in Eb; lia].
    reflexivity.
  - intros k Hk. rewrite Hbuf by lia. unfold memzero.
    destruct (0 <=? k) eqn:Ea; [| reflexivity]. apply Z.leb_le in Ea.
    destruct (k <? size) eqn:Eb; [| reflexivity]. apply Z.ltb_lt in Eb. lia.
Qed.

Lemma a1fs_read_bounds_witness :
  (0 <= 5 < 2 ^ 31
   /\ a1fs_read "/f"%string (buf_of_string "abcdefgh") 5 4096
        eleven_extent_image
      = Some (5,
              memcpy (memzero (buf_of_string "abcdefgh") 5) 0
                (data_blks eleven_extent_image)
                (first_block 1 eleven_extent_image + 4096) 5))
  /\ (0 <= 5 <= 5
      /\ (forall k, 5 <= k < 5 ->
            memcpy (memzero (buf_of_string "abcdefgh") 5) 0
              (data_blks eleven_extent_image)
              (first_block 1 eleven_extent_image + 4096) 5 k = 0)
      /\ (forall k, ~ (0 <= k < 5) ->
            memcpy (memzero (buf_of_string "abcdefgh") 5) 0
              (data_blks eleven_extent_image)
              (first_block 1 eleven_extent_image + 4096) 5 k
            = buf_of_string "abcdefgh" k)).
Proof.
  assert (H1 : 0 <= 5 < 2 ^ 31) by lia.
  assert (H2 : a1fs_read "/f"%string (buf_of_string "abcdefgh") 5 4096
                 eleven_extent_image
               = Some (5,
                       memcpy (memzero (buf_of_string "abcdefgh") 5) 0
                         (data_blks eleven_extent_image)
                         (first_block 1 eleven_extent_image + 4096) 5))
    by reflexivity.
  split; [auto |].
  exact (a1fs_read_bounds "/f"%string (buf_of_string "abcdefgh") 5 4096
           eleven_extent_image 5 _ H1 H2).
Defined.


(** ** A request of at most one block: write, then read back *)


Lemma iterator_first_block ino fs :
  num_extents (inode_table fs ino) <> 0 ->
  e_count (direct_extents (inode_table fs ino) 0) <> 0 ->
  exists b_iter',
    block_iterator_next_blk (block_iterator_init ino fs) fs
    = (Some (first_block ino fs), b_iter').
Proof.
  intros Hn Hc. unfold block_iterator_init, block_iterator_next_blk.
  apply Z.eqb_neq in Hn. rewrite Hn. cbn [negb cur_extent].
  change (get_extent ino 0 fs) with (DirectExtent ino 0).
  cbn [load_extent blk_in_extent_index].
  assert (E : (0 =? e_count (direct_extents (inode_table fs ino) 0)) = false)
    by (apply Z.eqb_neq; auto).
  rewrite E. eexists. reflexivity.
Qed.

Lemma copy_loop_one_chunk to_fs : forall fuel b_iter blk b_iter' size offset buf fs,
  block_iterator_next_blk b_iter fs = (Some blk, b_iter') ->
  0 < size <= A1FS_BLOCK_SIZE -> 0 <= offset ->
  copy_loop (S (S fuel)) b_iter size offset 0 0 to_fs buf fs
  = Some (size,
          if to_fs then buf
          else memcpy buf 0 (data_blks fs) (blk + offset) size,
          if to_fs
          then set_data_blks fs (memcpy (data_blks fs) (blk + offset) buf 0 size)
          else fs).
Proof.
  intros fuel b_iter blk b_iter' size offset buf fs Hnext Hs Ho.
  cbn [copy_loop]. rewrite Hnext.
  assert (E0 : (size =? 0) = false) by (apply Z.eqb_neq; lia). rewrite E0.
  assert (E1 : (0 - offset <=? A1FS_BLOCK_SIZE) = true)
    by (apply Z.leb_le; unfold A1FS_BLOCK_SIZE; lia).
  rewrite E1.
  assert (Em : Min A1FS_BLOCK_SIZE size = size).
  { unfold Min. destruct (A1FS_BLOCK_SIZE <? size) eqn:E; [| reflexivity].
    apply Z.ltb_lt in E. lia. }
  rewrite Em.
  assert (Ew : (if offset >? 0 then offset - 0 else 0) = offset).
  { destruct (offset >? 0) eqn:E; [lia |]. rewrite Z.gtb_ltb in E.
    apply Z.ltb_ge in E. lia. }
  rewrite Ew. rewrite Z.sub_diag, Z.add_0_l. cbn [Z.eqb].
  destruct (block_iterator_next_blk b_iter' _) as [[blk2 |] b_iter2]; reflexivity.
Qed.

Lemma extents_block_count_inline ino fs : forall n,
  Z.of_nat n <= A1FS_NUM_DIRECT_EXTENT ->
  (forall i, 0 <= i < Z.of_nat n ->
     0 <= e_count (direct_extents (inode_table fs ino) i)) ->
  (1 <= n)%nat ->
  e_count (direct_extents (inode_table fs ino) 0)
  <= extents_block_count n ino fs.
Proof.
  induction n as [| n IH]; intros Hn Hc H1; [lia |].
  cbn [extents_block_count].
  assert (Hg : get_extent ino (Z.of_nat n) fs = DirectExtent ino (Z.of_nat n)).
  { unfold get_extent. destruct (Z.of_nat n <? A1FS_NUM_DIRECT_EXTENT) eqn:E;
      [reflexivity | apply Z.ltb_ge in E; lia]. }
  rewrite Hg. cbn [load_extent].
  destruct n as [| n].
  - cbn. lia.
  - specialize (IH ltac:(lia) ltac:(intros i Hi; apply Hc; lia) ltac:(lia)).
    pose proof (Hc (Z.of_nat (S n)) ltac:(lia)). lia.
Qed.

Lemma extents_block_count_data ino fs d : forall n,
  Z.of_nat n <= A1FS_NUM_DIRECT_EXTENT ->
  extents_block_count n ino (set_data_blks fs d) = extents_block_count n ino fs.
Proof.
  induction n as [| n IH]; intro Hn; [reflexivity |].
  cbn [extents_block_count]. rewrite IH by lia.
  assert (Hg : forall f, get_extent ino (Z.of_nat n) f = DirectExtent ino (Z.of_nat n)).
  { intro f. unfold get_extent. destruct (Z.of_nat n <? A1FS_NUM_DIRECT_EXTENT) eqn:E;
      [reflexivity | apply Z.ltb_ge in E; lia]. }
  rewrite !Hg. reflexivity.
Qed.




(** ** The iterator hands out the blocks of the extents in file order *)

Section Iterator.
Variables (ino : Z) (fs : fs_ctx).
Let N := num_extents (inode_table fs ino).
Let ext (i : Z) := load_extent fs (get_extent ino i fs).

Hypothesis N_range : 0 <= N < 2 ^ 31.
Hypothesis counts : forall i, 0 <= i < N -> 1 <= e_count (ext i) < 2 ^ 32.

Lemma u32_small z : 0 <= z < 2 ^ 32 -> u32 z = z.
Proof. intro H. unfold u32. apply Z.mod_small. exact H. Qed.

Lemma length_extent_block_offsets s : forall n k,
  List.length (extent_block_offsets s k n) = n.
Proof.
  induction n as [| n IHn]; intro k; [reflexivity |].
  cbn. rewrite IHn. reflexivity.
Qed.

Lemma iterator_blocks_from : forall fuel m ei bi,
  0 <= ei -> ei + 1 + Z.of_nat m = N ->
  0 <= bi <= e_count (ext ei) ->
  (Z.to_nat (e_count (ext ei) - bi)
   + List.length (inode_block_offsets m (ei + 1) ino fs) < fuel)%nat ->
  iterator_blocks fuel (mk_iter ino (Some (get_extent ino ei fs)) ei bi) fs
  = Some (extent_block_offsets (e_start (ext ei)) bi
            (Z.to_nat (e_count (ext ei) - bi))
          ++ inode_block_offsets m (ei + 1) ino fs).
Proof.
  induction fuel as [| fuel IH]; intros m ei bi Hei Hm Hbi Hfuel; [lia |].
  pose proof (counts ei ltac:(lia)) as Hc.
  cbn [iterator_blocks]. unfold block_iterator_next_blk.
  cbn [cur_extent blk_in_extent_index extent_index it_inode].
  fold (ext ei). fold N.
  destruct (bi =? e_count (ext ei)) eqn:E.
  - apply Z.eqb_eq in E. subst bi.
    rewrite Z.sub_diag. cbn [Z.to_nat extent_block_offsets app].
    rewrite (u32_small (ei + 1)) by lia.
    destruct m as [| m].
    + assert (En : (ei + 1 =? N) = true) by (apply Z.eqb_eq; lia).
      rewrite En. reflexivity.
    + assert (En : (ei + 1 =? N) = false) by (apply Z.eqb_neq; lia).
      rewrite En. rewrite i32_small by lia.
      cbn [cur_extent blk_in_extent_index extent_index it_inode].
      fold (ext (ei + 1)).
      pose proof (counts (ei + 1) ltac:(lia)) as Hc'.
      cbn [inode_block_offsets] in *. fold (ext (ei + 1)) in *.
      rewrite (u32_small (0 + 1)) by lia.
      rewrite Z.sub_diag in Hfuel. cbn [Z.to_nat] in Hfuel.
      rewrite length_app in Hfuel.
      assert (Hs1 : Z.to_nat (e_count (ext (ei + 1)))
                    = S (Z.to_nat (e_count (ext (ei + 1)) - (0 + 1))))
        by (clear - Hc'; lia).
      rewrite length_extent_block_offsets in Hfuel.
      rewrite Hs1 in *.
      cbn [extent_block_offsets] in *.
      rewrite (IH m (ei + 1) (0 + 1)); try lia.
      reflexivity.
  - apply Z.eqb_neq in E.
    rewrite (u32_small (bi + 1)) by lia.
    assert (Hs1 : Z.to_nat (e_count (ext ei) - bi)
                  = S (Z.to_nat (e_count (ext ei) - (bi + 1))))
      by (clear - Hbi E; lia).
    rewrite Hs1 in *.
    cbn [extent_block_offsets app].
    rewrite (IH m ei (bi + 1)); try lia.
    reflexivity.
Qed.

Lemma extents_block_count_length : forall m k,
  (Z.of_nat (k + m) <= N)%Z ->
  extents_block_count (k + m) ino fs
  = extents_block_count k ino fs
    + Z.of_nat (List.length (inode_block_offsets m (Z.of_nat k) ino fs)).
Proof.
  induction m as [| m IH]; intros k Hk.
  - rewrite Nat.add_0_r. cbn. lia.
  - replace (k + S m)%nat with (S k + m)%nat by lia.
    rewrite IH by lia.
    cbn [extents_block_count inode_block_offsets].
    rewrite length_app, length_extent_block_offsets. fold (ext (Z.of_nat k)).
    pose proof (counts (Z.of_nat k) ltac:(lia)).
    replace (Z.of_nat k + 1) with (Z.of_nat (S k)) by lia.
    lia.
Qed.

(** X15.  For an inode whose extents all have at least one block, the
    successive calls of block_iterator_next_blk return the offsets of the
    blocks of extent 0, then of extent 1, and so on through the last
    extent (in the indirect block from the K-th on), each extent from its
    start block upwards, and then NULL; the loop budget of the model is
    enough for it. *)
Theorem iterator_visits_blocks_in_order :
  iterator_blocks (iter_fuel ino fs) (block_iterator_init ino fs) fs
  = Some (inode_block_offsets (Z.to_nat N) 0 ino fs).
Proof.
  unfold iter_fuel, block_iterator_init. fold N.
  destruct (N =? 0) eqn:E0.
  - apply Z.eqb_eq in E0. rewrite E0. reflexivity.
  - apply Z.eqb_neq in E0. cbn [negb].
    pose proof (extents_block_count_length (Z.to_nat N) 0 ltac:(lia)) as Hl.
    cbn [Nat.add] in Hl. cbn [extents_block_count Z.of_nat] in Hl.
    rewrite Hl. rewrite Z.add_0_l, Nat2Z.id.
    replace (Z.to_nat N) with (S (Z.to_nat (N - 1))) in * by lia.
    cbn [inode_block_offsets] in *. fold (ext 0) in *.
    rewrite length_app.
    rewrite (iterator_blocks_from _ (Z.to_nat (N - 1)) 0 0); try lia.
    + rewrite Z.sub_0_r. reflexivity.
    + pose proof (counts 0 ltac:(lia)). lia.
    + rewrite Z.sub_0_r.
      rewrite length_extent_block_offsets. lia.
Qed.
End Iterator.

Lemma iterator_visits_blocks_in_order_witness :
  (0 <= num_extents (inode_table eleven_extent_image 1) < 2 ^ 31
   /\ (forall i, 0 <= i < num_extents (inode_table eleven_extent_image 1) ->
         1 <= e_count (load_extent eleven_extent_image
                         (get_extent 1 i eleven_extent_image)) < 2 ^ 32))
  /\ iterator_blocks (iter_fuel 1 eleven_extent_image)
       (block_iterator_init 1 eleven_extent_image) eleven_extent_image
     = Some (inode_block_offsets
               (Z.to_nat (num_extents (inode_table eleven_extent_image 1)))
               0 1 eleven_extent_image).
Proof.
  assert (E : num_extents (inode_table eleven_extent_image 1) = 11)
    by (vm_compute; reflexivity).
  assert (H1 : 0 <= num_extents (inode_table eleven_extent_image 1) < 2 ^ 31)
    by (rewrite E; lia).
  assert (H2 : forall i,
             0 <= i < num_extents (inode_table eleven_extent_image 1) ->
             1 <= e_count (load_extent eleven_extent_image
                             (get_extent 1 i eleven_extent_image)) < 2 ^ 32).
  { intros i Hi. rewrite E in Hi.
    assert (Hc : i = 0 \/ i = 1 \/ i = 2 \/ i = 3 \/ i = 4 \/ i = 5
                 \/ i = 6 \/ i = 7 \/ i = 8 \/ i = 9 \/ i = 10) by lia.
    repeat (destruct Hc as [Hc | Hc];
            [rewrite Hc; vm_compute; split;
             [intro Hd; discriminate Hd | reflexivity] |]).
    rewrite Hc. vm_compute. split; [intro Hd; discriminate Hd | reflexivity]. }
  split; [auto |].
  exact (iterator_visits_blocks_in_order 1 eleven_extent_image H1 H2).
Defined.


(** ** What allocate_data_blocks leaves alone *)


Lemma alloc_frame_refl ino fs : alloc_frame ino fs fs.
Proof. unfold alloc_frame. auto. Qed.

Lemma alloc_frame_trans ino fs1 fs2 fs3 :
  alloc_frame ino fs1 fs2 -> alloc_frame ino fs2 fs3 -> alloc_frame ino fs1 fs3.
Proof.
  intros (A1 & A2 & A3 & A4 & A5) (B1 & B2 & B3 & B4 & B5).
  unfold alloc_frame. repeat split; try congruence.
  intros j Hj. rewrite B1, A1 by exact Hj. reflexivity.
Qed.

Lemma alloc_frame_set_inode ino fs i :
  mode i = mode (inode_table fs ino) ->
  links i = links (inode_table fs ino) ->
  mtime i = mtime (inode_table fs ino) ->
  alloc_frame ino fs (set_inode fs ino i).
Proof.
  intros Hm Hl Ht. unfold alloc_frame, set_inode, set_inode_table, upd.
  cbn [inode_table superblock]. rewrite Z.eqb_refl.
  repeat split; auto.
  intros j Hj. apply Z.eqb_neq in Hj. rewrite Hj. reflexivity.
Qed.

Lemma alloc_frame_bitmap ino fs bm : alloc_frame ino fs (set_d_bitmap fs bm).
Proof. unfold alloc_frame. cbn. auto. Qed.

Lemma alloc_frame_dec_free ino fs k : alloc_frame ino fs (dec_free_dblocks fs k).
Proof. unfold alloc_frame. cbn. auto. Qed.

Lemma alloc_frame_store_start ino idx fs0 fs v :
  alloc_frame ino fs (store_extent_start fs (get_extent ino idx fs0) v).
Proof.
  unfold get_extent. destruct (idx <? _); cbn [store_extent_start].
  - apply alloc_frame_set_inode; reflexivity.
  - unfold alloc_frame. cbn. auto.
Qed.

Lemma alloc_frame_store_count ino idx fs0 fs v :
  alloc_frame ino fs (store_extent_count fs (get_extent ino idx fs0) v).
Proof.
  unfold get_extent. destruct (idx <? _); cbn [store_extent_count].
  - apply alloc_frame_set_inode; reflexivity.
  - unfold alloc_frame. cbn. auto.
Qed.

Lemma alloc_frame_update_last_extent ino start count fs :
  alloc_frame ino fs (update_last_extent ino start count fs).
Proof.
  unfold update_last_extent.
  set (fs1 := set_d_bitmap fs _).
  set (fs2 := if _ =? _ then _ else fs1).
  assert (H2 : alloc_frame ino fs fs2).
  { subst fs2. destruct (_ =? _).
    - eapply alloc_frame_trans; [apply alloc_frame_bitmap |].
      eapply alloc_frame_trans; [apply alloc_frame_bitmap |].
      eapply alloc_frame_trans; [apply alloc_frame_dec_free |].
      apply alloc_frame_set_inode; reflexivity.
    - apply alloc_frame_bitmap. }
  eapply alloc_frame_trans; [exact H2 |].
  eapply alloc_frame_trans; [apply alloc_frame_store_start |].
  eapply alloc_frame_trans; [apply alloc_frame_store_count |].
  apply alloc_frame_dec_free.
Qed.

Lemma alloc_loop_frame : forall fuel remainder ino fs r fs',
  alloc_loop fuel remainder ino fs = Some (r, fs') -> alloc_frame ino fs fs'.
Proof.
  induction fuel as [| fuel IH]; intros remainder ino fs r fs' H.
  - cbn in H. destruct (0 <? remainder); [discriminate |].
    injection H as <- <-. apply alloc_frame_refl.
  - cbn [alloc_loop] in H. destruct (0 <? remainder).
    + destruct (_ =? 512).
      * injection H as <- <-. apply alloc_frame_refl.
      * apply IH in H.
        eapply alloc_frame_trans; [| exact H].
        eapply alloc_frame_trans; [| apply alloc_frame_update_last_extent].
        apply alloc_frame_set_inode; reflexivity.
    + injection H as <- <-. apply alloc_frame_refl.
Qed.

Lemma alloc_frame_extend_last_extent ino blks_needed fs :
  alloc_frame ino fs (snd (extend_last_extent ino blks_needed fs)).
Proof.
  unfold extend_last_extent.
  destruct (negb _); [| apply alloc_frame_refl].
  destruct (negb _); [| apply alloc_frame_refl].
  destruct (_ >=? _); cbn [snd]; apply alloc_frame_update_last_extent.
Qed.

Lemma alloc_frame_allocate ino size fs r fs' :
  allocate_data_blocks ino size fs = Some (r, fs') -> alloc_frame ino fs fs'.
Proof.
  unfold allocate_data_blocks. set (blks_needed := u32 _). intro H.
  destruct (blks_needed =? 0); [injection H as <- <-; apply alloc_frame_refl |].
  destruct (_ <? blks_needed); [injection H as <- <-; apply alloc_frame_refl |].
  pose proof (alloc_frame_extend_last_extent ino blks_needed fs) as He.
  destruct (extend_last_extent ino blks_needed fs) as [remainder fs1].
  cbn [snd] in He.
  apply alloc_loop_frame in H.
  eapply alloc_frame_trans; [exact He | exact H].
Qed.

(** When every byte of the bitmap view is 0 from the byte that holds bit
    [num_tot_dblocks] onwards, no mark lies outside the data blocks. *)
Lemma marks_within_image_intro fs :
  1 < data_bitmap (superblock fs) ->
  num_tot_dblocks (superblock fs) <= bitmap_bits fs ->
  (forall k, num_tot_dblocks (superblock fs) / 8 <= k -> d_bitmap fs k = 0) ->
  marks_within_image fs.
Proof.
  intros H1 H2 H3. split; [exact H1 |]. split; [exact H2 |].
  intros b Hb. apply bit_is_set_zero_byte. apply H3.
  apply Z.div_le_mono; lia.
Qed.

(** The same for an image of the scenarios, all of whose marks lie in byte
    0 of the bitmap; [n] is the index of the byte that holds bit
    [num_tot_dblocks]. *)
Ltac marks_in_byte_0 n :=
  apply marks_within_image_intro;
  [vm_compute; reflexivity | vm_compute; discriminate |];
  let k := fresh "k" in
  let Hk := fresh "Hk" in
  let E := fresh "E" in
  intros k Hk;
  match type of Hk with
  | ?q <= _ => assert (E : q = n) by (vm_compute; reflexivity); rewrite E in Hk
  end;
  destruct k; [lia | | lia]; vm_compute;
  try match goal with |- (if ?c then _ else _) = _ => destruct c end;
  reflexivity.

(** X16.  Let allocate_data_blocks be called on an inode of the table, in
    a state in which every mark of the bitmap is the mark of a data block,
    and reach a state of which this is true as well (the call has then set
    no bit outside the blocks of the bitmap).  Whatever it returns, it leaves every other inode as it was, keeps the
    mode, link count and modification time of the inode itself, and keeps
    the number of inodes, of free inodes, of data blocks and the image
    size recorded in the superblock. *)
Theorem allocate_data_blocks_frame ino size fs r fs' :
  0 <= ino < num_inodes (superblock fs) ->
  marks_within_image fs ->
  allocate_data_blocks ino size fs = Some (r, fs') ->
  marks_within_image fs' ->
  (forall j, j <> ino -> inode_table fs' j = inode_table fs j)
  /\ mode (inode_table fs' ino) = mode (inode_table fs ino)
  /\ links (inode_table fs' ino) = links (inode_table fs ino)
  /\ mtime (inode_table fs' ino) = mtime (inode_table fs ino)
  /\ num_inodes (superblock fs') = num_inodes (superblock fs)
  /\ num_free_inodes (superblock fs') = num_free_inodes (superblock fs)
  /\ num_tot_dblocks (superblock fs') = num_tot_dblocks (superblock fs)
  /\ s_size (superblock fs') = s_size (superblock fs).
Proof.
  intros _ _ H _. apply alloc_frame_allocate in H.
  destruct H as (H1 & H2 & H3 & H4 & H5).
  repeat split; auto.
  - apply (f_equal num_inodes) in H5. exact H5.
  - apply (f_equal num_free_inodes) in H5. exact H5.
  - apply (f_equal num_tot_dblocks) in H5. exact H5.
  - apply (f_equal s_size) in H5. exact H5.
Qed.

(** X16 on [stale_image], where /f (inode 1) is given one block: the
    marks of both bitmaps lie in byte 0. *)
Lemma allocate_data_blocks_frame_witness :
  (0 <= 1 < num_inodes (superblock stale_image)
   /\ marks_within_image stale_image
   /\ allocate_data_blocks 1 4096 stale_image = Some (0, grown_file_image)
   /\ marks_within_image grown_file_image)
  /\ ((forall j, j <> 1 ->
         inode_table grown_file_image j = inode_table stale_image j)
      /\ mode (inode_table grown_file_image 1) = mode (inode_table stale_image 1)
      /\ links (inode_table grown_file_image 1)
         = links (inode_table stale_image 1)
      /\ mtime (inode_table grown_file_image 1)
         = mtime (inode_table stale_image 1)
      /\ num_inodes (superblock grown_file_image)
         = num_inodes (superblock stale_image)
      /\ num_free_inodes (superblock grown_file_image)
         = num_free_inodes (superblock stale_image)
      /\ num_tot_dblocks (superblock grown_file_image)
         = num_tot_dblocks (superblock stale_image)
      /\ s_size (superblock grown_file_image) = s_size (superblock stale_image)).
Proof.
  assert (H0 : 0 <= 1 < num_inodes (superblock stale_image))
    by (split; vm_compute; (reflexivity || discriminate)).
  assert (H : allocate_data_blocks 1 4096 stale_image
              = Some (0, grown_file_image)) by (vm_compute; reflexivity).
  assert (Hp : marks_within_image stale_image) by marks_in_byte_0 4.
  assert (Hm : marks_within_image grown_file_image) by marks_in_byte_0 4.
  split; [auto |].
  exact (allocate_data_blocks_frame 1 4096 stale_image 0 grown_file_image
           H0 Hp H Hm).
Defined.


(** ** add_dir_entry and the count of free inodes *)


Lemma count_free_inodes_ext tbl tbl' : forall n,
  (forall j, 0 <= j < Z.of_nat n ->
     (links (tbl' j) =? 0) = (links (tbl j) =? 0)) ->
  count_free_inodes tbl' n = count_free_inodes tbl n.
Proof.
  induction n as [| n IH]; intro H; [reflexivity |].
  cbn [count_free_inodes]. rewrite IH by (intros j Hj; apply H; lia).
  rewrite H by lia. reflexivity.
Qed.

Lemma count_free_inodes_bounds tbl : forall n,
  0 <= count_free_inodes tbl n <= Z.of_nat n.
Proof.
  induction n as [| n IH]; [cbn; lia |].
  cbn [count_free_inodes]. destruct (_ =? 0); lia.
Qed.

Lemma count_free_inodes_none tbl : forall n,
  (forall j, 0 <= j < Z.of_nat n -> links (tbl j) <> 0) ->
  count_free_inodes tbl n = 0.
Proof.
  induction n as [| n IH]; intro H; [reflexivity |].
  cbn [count_free_inodes]. rewrite IH by (intros j Hj; apply H; lia).
  pose proof (H (Z.of_nat n) ltac:(lia)) as Hn. apply Z.eqb_neq in Hn.
  rewrite Hn. reflexivity.
Qed.

Lemma in_range_succ r n :
  (if (0 <=? r) && (r <? Z.of_nat (S n)) then 1 else 0)
  = (if (0 <=? r) && (r <? Z.of_nat n) then 1 else 0)
    + (if Z.of_nat n =? r then 1 else 0).
Proof.
  destruct (0 <=? r) eqn:Ea, (r <? Z.of_nat (S n)) eqn:Eb,
           (r <? Z.of_nat n) eqn:Ec, (Z.of_nat n =? r) eqn:Ed;
    cbn [andb]; try reflexivity; exfalso;
    repeat match goal with
           | H : (_ =? _) = true |- _ => apply Z.eqb_eq in H
           | H : (_ =? _) = false |- _ => apply Z.eqb_neq in H
           | H : (_ <=? _) = true |- _ => apply Z.leb_le in H
           | H : (_ <=? _) = false |- _ => apply Z.leb_gt in H
           | H : (_ <? _) = true |- _ => apply Z.ltb_lt in H
           | H : (_ <? _) = false |- _ => apply Z.ltb_ge in H
           end; lia.
Qed.

Lemma count_free_inodes_take tbl r i : forall n,
  links (tbl r) = 0 -> links i <> 0 ->
  count_free_inodes (upd tbl r i) n
  = count_free_inodes tbl n - (if (0 <=? r) && (r <? Z.of_nat n) then 1 else 0).
Proof.
  intros n Hr Hi. induction n as [| n IH].
  - cbn [count_free_inodes].
    replace ((0 <=? r) && (r <? Z.of_nat 0)) with false; [reflexivity |].
    symmetry. apply andb_false_iff.
    destruct (Z.lt_ge_cases r 0); [left; apply Z.leb_gt | right; apply Z.ltb_ge]; lia.
  - cbn [count_free_inodes]. rewrite IH, in_range_succ. unfold upd at 1.
    destruct (Z.of_nat n =? r) eqn:E.
    + apply Z.eqb_eq in E. subst r. rewrite Hr. apply Z.eqb_neq in Hi. rewrite Hi.
      cbn [Z.eqb]. lia.
    + lia.
Qed.

Lemma find_empty_inode_same_table fs g :
  inode_table g = inode_table fs ->
  num_inodes (superblock g) = num_inodes (superblock fs) ->
  find_empty_inode g = find_empty_inode fs.
Proof.
  intros Ht Hn. unfold find_empty_inode. rewrite Hn.
  generalize (Z.to_nat (num_inodes (superblock fs))) 0.
  induction n as [| n IH]; intro i; [reflexivity |].
  cbn [find_empty_inode_from]. rewrite Ht, IH. reflexivity.
Qed.

Lemma fill_dentry_accounting e name mode_ links_ t fs :
  0 <= num_inodes (superblock fs) <= 2 ^ 32 ->
  inode_accounting fs ->
  num_free_inodes (superblock fs) <> 0 ->
  links_ <> 0 ->
  let fs' := fill_dentry e name mode_ links_ (Some t) fs in
  num_inodes (superblock fs') = num_inodes (superblock fs)
  /\ num_free_inodes (superblock fs') = num_free_inodes (superblock fs) - 1
  /\ inode_accounting fs'.
Proof.
  intros Hn Hacc Hfree Hl. unfold inode_accounting in *.
  pose proof (count_free_inodes_bounds (inode_table fs)
                (Z.to_nat (num_inodes (superblock fs)))) as Hb.
  rewrite Z2Nat.id in Hb by lia.
  unfold fill_dentry.
  set (fs1 := set_data_blks fs _).
  assert (Hf : find_empty_inode fs1 = find_empty_inode fs)
    by (apply find_empty_inode_same_table; reflexivity).
  rewrite Hf.
  pose proof (find_empty_inode_from_spec fs
                (Z.to_nat (num_inodes (superblock fs))) 0) as Hspec.
  fold (find_empty_inode fs) in Hspec.
  destruct Hspec as [[_ Hall] | (r & Hr & Er & Hz & _)].
  { exfalso. apply Hfree. rewrite <- Hacc. apply count_free_inodes_none.
    intros j Hj. apply Hall. lia. }
  rewrite Z2Nat.id in Hr by lia.
  assert (Hu : u32 (find_empty_inode fs) = r)
    by (rewrite Er; apply u32_i32; lia).
  rewrite Hu. unfold init_inode. subst fs1.
  cbn [snd superblock inode_table set_inode set_inode_table set_superblock
       sb_set_free_inodes num_inodes num_free_inodes set_data_blks].
  assert (Hu' : u32 (num_free_inodes (superblock fs) - 1)
                = num_free_inodes (superblock fs) - 1)
    by (unfold u32; apply Z.mod_small; lia).
  rewrite Hu'. split; [reflexivity |]. split; [reflexivity |].
  rewrite count_free_inodes_take by (cbn; auto).
  rewrite Hacc.
  replace ((0 <=? r) && (r <? Z.of_nat (Z.to_nat (num_inodes (superblock fs)))))
    with true; [reflexivity |].
  symmetry. apply andb_true_iff. split; [apply Z.leb_le | apply Z.ltb_lt]; lia.
Qed.

Lemma accounting_transfer fs g :
  num_inodes (superblock g) = num_inodes (superblock fs) ->
  num_free_inodes (superblock g) = num_free_inodes (superblock fs) ->
  (forall j, (links (inode_table g j) =? 0) = (links (inode_table fs j) =? 0)) ->
  inode_accounting fs -> inode_accounting g.
Proof.
  intros Hn Hf Hl Hacc. unfold inode_accounting in *.
  rewrite Hn, Hf, <- Hacc. apply count_free_inodes_ext. intros j _. apply Hl.
Qed.

Lemma links_after_link_increment mode_ par fs j :
  0 < links (inode_table fs par) < 2 ^ 32 - 1 ->
  (links (inode_table (after_link_increment mode_ par fs) j) =? 0)
  = (links (inode_table fs j) =? 0).
Proof.
  intro Hp. unfold after_link_increment.
  destruct (S_ISDIR mode_); [| reflexivity].
  unfold inc_links, set_inode, set_inode_table, upd. cbn [inode_table].
  destruct (j =? par) eqn:E; [| reflexivity].
  apply Z.eqb_eq in E. subst j. cbn [links i_set_links].
  unfold u32. rewrite Z.mod_small by lia.
  transitivity false; [apply Z.eqb_neq; lia | symmetry; apply Z.eqb_neq; lia].
Qed.

(** X17.  With a working clock, on an image whose count of free inodes
    is exact, a call of add_dir_entry that returns 0 (for a new entry with
    a non-zero link count, in a parent whose own link count is neither 0
    nor at its maximum) takes exactly one inode: the number of inodes is
    unchanged, the count of free inodes drops by one, and the count is
    exact again afterwards, whether the entry went into an empty slot or
    into a newly allocated block. *)
Theorem add_dir_entry_keeps_inode_accounting
    path mode_ links_ t fs fs' parent_path file_name par :
  0 <= num_inodes (superblock fs) <= 2 ^ 32 ->
  inode_accounting fs ->
  split_path (cstr path) = Some (parent_path, file_name) ->
  path_lookup_bytes parent_path fs = Some par ->
  0 < links (inode_table fs par) < 2 ^ 32 - 1 ->
  links_ <> 0 ->
  add_dir_entry path mode_ links_ (Some t) fs = Some (0, fs') ->
  num_inodes (superblock fs') = num_inodes (superblock fs)
  /\ num_free_inodes (superblock fs') = num_free_inodes (superblock fs) - 1
  /\ inode_accounting fs'.
Proof.
  intros Hn Hacc Hsplit Hpar Hpl Hl H.
  unfold add_dir_entry, add_dir_entry_bytes in H.
  destruct (num_free_inodes (superblock fs) =? 0) eqn:Efree;
    [injection H as H _; discriminate H |].
  apply Z.eqb_neq in Efree.
  rewrite Hsplit in H.
  destruct (_ >? A1FS_NAME_MAX); [injection H as H _; discriminate H |].
  rewrite Hpar in H.
  fold (after_link_increment mode_ par fs) in H.
  set (fs1 := after_link_increment mode_ par fs) in *.
  assert (Hsb1 : superblock fs1 = superblock fs)
    by apply superblock_after_link_increment.
  assert (Hacc1 : inode_accounting fs1).
  { apply (accounting_transfer fs); try (rewrite Hsb1; reflexivity); auto.
    intro j. apply links_after_link_increment. exact Hpl. }
  destruct (find_empty_dentry _ _ _) as [[e |] |]; [| | discriminate].
  - injection H as <-.
    pose proof (fill_dentry_accounting e file_name mode_ links_ t fs1
                  ltac:(rewrite Hsb1; exact Hn) Hacc1
                  ltac:(rewrite Hsb1; exact Efree) Hl) as Hfd.
    cbv zeta in Hfd. rewrite Hsb1 in Hfd. exact Hfd.
  - destruct (allocate_data_blocks par A1FS_BLOCK_SIZE fs1) as [[r fs2] |] eqn:Ha;
      [| discriminate].
    destruct (negb (r =? 0)); [injection H as H _; discriminate H |].
    injection H as <-.
    apply alloc_frame_allocate in Ha.
    destruct Ha as (A1 & _ & A3 & _ & A5).
    set (fs3 := set_inode fs2 par _).
    assert (Hn3 : num_inodes (superblock fs3) = num_inodes (superblock fs)).
    { rewrite <- Hsb1. apply (f_equal num_inodes) in A5. exact A5. }
    assert (Hf3 : num_free_inodes (superblock fs3) = num_free_inodes (superblock fs)).
    { rewrite <- Hsb1. apply (f_equal num_free_inodes) in A5. exact A5. }
    assert (Hacc3 : inode_accounting fs3).
    { apply (accounting_transfer fs1); try congruence.
      intro j. subst fs3. unfold set_inode, set_inode_table, upd.
      cbn [inode_table].
      destruct (j =? par) eqn:E.
      - apply Z.eqb_eq in E. subst j. cbn [links i_set_size]. rewrite A3.
        reflexivity.
      - apply Z.eqb_neq in E. rewrite A1 by exact E. reflexivity. }
    match goal with
    | |- context [fill_dentry ?e _ _ _ _ fs3] =>
        pose proof (fill_dentry_accounting e file_name mode_ links_ t fs3
                      ltac:(rewrite Hn3; exact Hn) Hacc3
                      ltac:(rewrite Hf3; exact Efree) Hl) as Hfd
    end.
    cbv zeta in Hfd. rewrite Hn3, Hf3 in Hfd. exact Hfd.
Qed.

Lemma add_dir_entry_keeps_inode_accounting_witness :
  (0 <= num_inodes (superblock fresh_image) <= 2 ^ 32
   /\ inode_accounting fresh_image
   /\ split_path (cstr "/f"%string) = Some ([slash], [102])
   /\ path_lookup_bytes [slash] fresh_image = Some 0
   /\ 0 < links (inode_table fresh_image 0) < 2 ^ 32 - 1
   /\ 1 <> 0
   /\ add_dir_entry "/f"%string mode_file 1 (Some (mk_timespec 1600000000 0))
        fresh_image
      = Some (0, one_file_image))
  /\ (num_inodes (superblock one_file_image)
      = num_inodes (superblock fresh_image)
      /\ num_free_inodes (superblock one_file_image)
         = num_free_inodes (superblock fresh_image) - 1
      /\ inode_accounting one_file_image).
Proof.
  assert (H1 : 0 <= num_inodes (superblock fresh_image) <= 2 ^ 32)
    by (change (num_inodes (superblock fresh_image)) with 32; lia).
  assert (H2 : inode_accounting fresh_image) by (vm_compute; reflexivity).
  assert (H3 : split_path (cstr "/f"%string) = Some ([slash], [102]))
    by reflexivity.
  assert (H4 : path_lookup_bytes [slash] fresh_image = Some 0)
    by (vm_compute; reflexivity).
  assert (H5 : 0 < links (inode_table fresh_image 0) < 2 ^ 32 - 1)
    by (change (links (inode_table fresh_image 0)) with 2; lia).
  assert (H6 : 1 <> 0) by discriminate.
  assert (H7 : add_dir_entry "/f"%string mode_file 1
                 (Some (mk_timespec 1600000000 0)) fresh_image
               = Some (0, one_file_image)) by (vm_compute; reflexivity).
  split; [auto 8 |].
  exact (add_dir_entry_keeps_inode_accounting "/f"%string mode_file 1
           (mk_timespec 1600000000 0) fresh_image one_file_image
           [slash] [102] 0 H1 H2 H3 H4 H5 H6 H7).
Defined.

(** ** a1fs_truncate to a smaller size *)

Lemma truncate_shrink_keeps_data_and_sets_size_witness :
  (path_lookup "/f"%string two_block_file_image = Some 1
   /\ 0 <= num_extents (inode_table two_block_file_image 1)
        <= A1FS_NUM_DIRECT_EXTENT
   /\ u64 100 < i_size (inode_table two_block_file_image 1))
  /\ exists fs',
       a1fs_truncate "/f"%string 100 (Some (mk_timespec 1600000000 0))
         two_block_file_image = Some (0, fs')
       /\ data_blks fs' = data_blks two_block_file_image
       /\ i_size (inode_table fs' 1) = u64 100.
Proof.
  assert (H1 : path_lookup "/f"%string two_block_file_image = Some 1)
    by (vm_compute; reflexivity).
  assert (H2 : 0 <= num_extents (inode_table two_block_file_image 1)
                 <= A1FS_NUM_DIRECT_EXTENT)
    by (change (num_extents (inode_table two_block_file_image 1)) with 1;
        unfold A1FS_NUM_DIRECT_EXTENT; lia).
  assert (H3 : u64 100 < i_size (inode_table two_block_file_image 1))
    by (vm_compute; reflexivity).
  split; [auto |].
  exact (truncate_shrink_keeps_data_and_sets_size "/f"%string 100
           (mk_timespec 1600000000 0) two_block_file_image 1 H1 H2 H3).
Defined.


(** ** Loops over the blocks of a directory *)

Lemma get_extent_direct ino i g :
  i < A1FS_NUM_DIRECT_EXTENT -> get_extent ino i g = DirectExtent ino i.
Proof.
  intro H. unfold get_extent.
  destruct (i <? A1FS_NUM_DIRECT_EXTENT) eqn:E;
    [reflexivity | apply Z.ltb_ge in E; lia].
Qed.

Lemma same_extents_refl dir fs : same_extents dir fs fs.
Proof. split; reflexivity. Qed.

Lemma same_extents_tables dir fs g g' :
  inode_table g' = inode_table g -> same_extents dir fs g ->
  same_extents dir fs g'.
Proof. intros E [Hn He]. unfold same_extents. rewrite E. auto. Qed.

Lemma same_extents_set_inode dir fs g j i :
  same_extents dir fs g ->
  num_extents i = num_extents (inode_table g j) ->
  direct_extents i = direct_extents (inode_table g j) ->
  same_extents dir fs (set_inode g j i).
Proof.
  intros [Hn He] En Ed. unfold same_extents, set_inode, set_inode_table, upd.
  cbn [inode_table]. destruct (dir =? j) eqn:E.
  - apply Z.eqb_eq in E. subst j. rewrite En, Ed. auto.
  - auto.
Qed.

Section DirScan.
Variables (dir : Z) (fs : fs_ctx).
Hypothesis Hdir : inline_dir dir fs.

Lemma iter_at_init g :
  same_extents dir fs g ->
  iter_at dir fs (block_iterator_init dir g) (dir_blocks dir fs).
Proof.
  intros [Hn He]. destruct Hdir as [HN Hc].
  unfold block_iterator_init, dir_blocks. rewrite Hn.
  unfold A1FS_NUM_DIRECT_EXTENT in HN.
  destruct (num_extents (inode_table fs dir) =? 0) eqn:E0.
  - apply Z.eqb_eq in E0. left. rewrite E0. split; reflexivity.
  - apply Z.eqb_neq in E0. right. cbn [negb].
    exists 0, 0, (Z.to_nat (num_extents (inode_table fs dir) - 1)).
    rewrite get_extent_direct by (unfold A1FS_NUM_DIRECT_EXTENT; lia).
    split; [reflexivity |]. split; [lia |]. split; [lia |].
    split; [pose proof (Hc 0 ltac:(lia)); lia |].
    replace (Z.to_nat (num_extents (inode_table fs dir)))
      with (S (Z.to_nat (num_extents (inode_table fs dir) - 1))) by lia.
    cbn [inode_block_offsets].
    rewrite get_extent_direct by (unfold A1FS_NUM_DIRECT_EXTENT; lia).
    cbn [load_extent]. rewrite Z.sub_0_r. reflexivity.
Qed.

Lemma iter_next g it l :
  same_extents dir fs g -> iter_at dir fs it l ->
  match l with
  | [] => fst (block_iterator_next_blk it g) = None
  | b :: r =>
      exists it', block_iterator_next_blk it g = (Some b, it')
                  /\ iter_at dir fs it' r
  end.
Proof.
  intros [Hn He] [[Hnull ->] | (ei & bi & m & -> & Hei & Hm & Hbi & ->)].
  - unfold block_iterator_next_blk. rewrite Hnull. reflexivity.
  - destruct Hdir as [HN Hc]. unfold A1FS_NUM_DIRECT_EXTENT in HN.
    pose proof (Hc ei ltac:(lia)) as Hce.
    unfold block_iterator_next_blk.
    cbn [cur_extent blk_in_extent_index extent_index it_inode load_extent].
    rewrite He, Hn.
    set (N := num_extents (inode_table fs dir)) in *.
    set (ext := direct_extents (inode_table fs dir)) in *.
    destruct (bi =? e_count (ext ei)) eqn:E.
    + apply Z.eqb_eq in E. subst bi. rewrite Z.sub_diag.
      cbn [Z.to_nat extent_block_offsets app].
      rewrite (u32_small (ei + 1)) by lia.
      destruct m as [| m].
      * cbn [inode_block_offsets].
        replace (ei + 1 =? N) with true by (symmetry; apply Z.eqb_eq; lia).
        reflexivity.
      * replace (ei + 1 =? N) with false by (symmetry; apply Z.eqb_neq; lia).
        rewrite i32_small by lia.
        rewrite get_extent_direct by (unfold A1FS_NUM_DIRECT_EXTENT; lia).
        cbn [inode_block_offsets].
        rewrite (get_extent_direct dir (ei + 1) fs)
          by (unfold A1FS_NUM_DIRECT_EXTENT; lia).
        cbn [cur_extent blk_in_extent_index extent_index it_inode load_extent].
        rewrite He. fold ext.
        pose proof (Hc (ei + 1) ltac:(lia)) as Hc'. fold ext in Hc'.
        replace (Z.to_nat (e_count (ext (ei + 1))))
          with (S (Z.to_nat (e_count (ext (ei + 1)) - (0 + 1)))) by lia.
        cbn [extent_block_offsets app].
        rewrite (u32_small (0 + 1)) by lia.
        eexists. split; [reflexivity |].
        right. exists (ei + 1), (0 + 1), m.
        split; [reflexivity |]. split; [lia |]. split; [lia |].
        split; [fold ext; lia | reflexivity].
    + apply Z.eqb_neq in E.
      replace (Z.to_nat (e_count (ext ei) - bi))
        with (S (Z.to_nat (e_count (ext ei) - (bi + 1)))) by lia.
      cbn [extent_block_offsets app].
      rewrite (u32_small (bi + 1)) by lia.
      eexists. split; [reflexivity |].
      right. exists ei, (bi + 1), m.
      split; [reflexivity |]. split; [lia |]. split; [lia |].
      split; [fold ext; lia | reflexivity].
Qed.

Lemma extents_block_count_same g :
  same_extents dir fs g ->
  forall n, Z.of_nat n <= A1FS_NUM_DIRECT_EXTENT ->
  extents_block_count n dir g = extents_block_count n dir fs.
Proof.
  intros [Hn He]. induction n as [| n IH]; intro Hle; [reflexivity |].
  cbn [extents_block_count]. rewrite IH by lia.
  rewrite !get_extent_direct by lia. cbn [load_extent]. rewrite He.
  reflexivity.
Qed.

Lemma iter_fuel_enough g :
  same_extents dir fs g ->
  (List.length (dir_blocks dir fs) < iter_fuel dir g)%nat.
Proof.
  intro Hg. pose proof Hg as [Hn He]. destruct Hdir as [HN Hc].
  unfold iter_fuel. rewrite Hn.
  rewrite (extents_block_count_same g Hg) by lia.
  assert (Hr : 0 <= num_extents (inode_table fs dir) < 2 ^ 31)
    by (unfold A1FS_NUM_DIRECT_EXTENT in HN; lia).
  assert (Hc' : forall i, 0 <= i < num_extents (inode_table fs dir) ->
                  1 <= e_count (load_extent fs (get_extent dir i fs)) < 2 ^ 32).
  { intros i Hi. rewrite get_extent_direct by lia. apply Hc. exact Hi. }
  pose proof (extents_block_count_length dir fs Hc'
                (Z.to_nat (num_extents (inode_table fs dir))) 0 ltac:(lia)) as Hl.
  cbn [Nat.add extents_block_count Z.of_nat] in Hl.
  unfold dir_blocks. rewrite Hl. lia.
Qed.

Lemma fold_left_cons {A B : Type} (f : A -> B -> A) b l a :
  fold_left f (b :: l) a = fold_left f l (f a b).
Proof. reflexivity. Qed.

Lemma lookup_blocks_S fuel it comp cur g :
  lookup_blocks (S fuel) it comp cur g
  = match block_iterator_next_blk it g with
    | (None, _) => Some cur
    | (Some cur_blk, b_iter') =>
        lookup_blocks fuel b_iter' comp
          (lookup_dentries (Z.to_nat NUM_DENTRY_PER_BLOCK) 0 cur_blk comp cur g)
          g
    end.
Proof. reflexivity. Qed.

Lemma clear_blocks_S fuel it name g :
  clear_blocks (S fuel) it name g
  = match block_iterator_next_blk it g with
    | (None, _) => Some g
    | (Some cur_blk, b_iter') =>
        clear_blocks fuel b_iter' name
          (clear_dentries (Z.to_nat NUM_DENTRY_PER_BLOCK) 0 cur_blk name g)
    end.
Proof. reflexivity. Qed.

Lemma find_empty_dentry_S fuel it g :
  find_empty_dentry (S fuel) it g
  = match block_iterator_next_blk it g with
    | (None, _) => Some NoSlot
    | (Some cur_blk, b_iter') =>
        match empty_dentry_in_blk (Z.to_nat NUM_DENTRY_PER_BLOCK) 0 cur_blk g with
        | Some e => Some (SlotFound e)
        | None => find_empty_dentry fuel b_iter' g
        end
    end.
Proof. reflexivity. Qed.

Lemma lookup_blocks_fold g comp :
  same_extents dir fs g ->
  forall l fuel it cur,
    iter_at dir fs it l -> (List.length l < fuel)%nat ->
    lookup_blocks fuel it comp cur g
    = Some (fold_left
              (fun c blk =>
                 lookup_dentries (Z.to_nat NUM_DENTRY_PER_BLOCK) 0 blk comp c g)
              l cur).
Proof.
  intro Hg. induction l as [| b r IH]; intros fuel it cur Hit Hf;
    (destruct fuel as [| fuel]; [cbn [List.length] in Hf; lia |]);
    pose proof (iter_next g it _ Hg Hit) as Hs; rewrite lookup_blocks_S.
  - destruct (block_iterator_next_blk it g) as [o it']. cbn [fst] in Hs.
    subst o. reflexivity.
  - destruct Hs as (it' & -> & Hit'). rewrite fold_left_cons.
    apply IH; [exact Hit' | cbn [List.length] in Hf; lia].
Qed.

Lemma clear_dentries_frame name : forall n d blk g,
  superblock (clear_dentries n d blk name g) = superblock g
  /\ d_bitmap (clear_dentries n d blk name g) = d_bitmap g
  /\ inode_table (clear_dentries n d blk name g) = inode_table g.
Proof.
  induction n as [| n IH]; intros d blk g; cbn [clear_dentries]; [auto |].
  destruct (IH (d + 1) blk
              (if strcmp_eq (data_blks g) (dentry_name blk d) name
               then set_data_blks g (upd (data_blks g) (dentry_name blk d) 0)
               else g)) as (H1 & H2 & H3).
  rewrite H1, H2, H3. destruct (strcmp_eq _ _ _); auto.
Qed.

Lemma clear_blocks_fold name :
  forall l fuel it g,
    same_extents dir fs g -> iter_at dir fs it l ->
    (List.length l < fuel)%nat ->
    clear_blocks fuel it name g
    = Some (fold_left
              (fun g' blk =>
                 clear_dentries (Z.to_nat NUM_DENTRY_PER_BLOCK) 0 blk name g')
              l g).
Proof.
  induction l as [| b r IH]; intros fuel it g Hg Hit Hf;
    (destruct fuel as [| fuel]; [cbn [List.length] in Hf; lia |]);
    pose proof (iter_next g it _ Hg Hit) as Hs; rewrite clear_blocks_S.
  - destruct (block_iterator_next_blk it g) as [o it']. cbn [fst] in Hs.
    subst o. reflexivity.
  - destruct Hs as (it' & -> & Hit'). rewrite fold_left_cons.
    apply IH; [| exact Hit' | cbn [List.length] in Hf; lia].
    eapply same_extents_tables; [| exact Hg].
    apply clear_dentries_frame.
Qed.

Lemma empty_dentry_in_blk_some g blk : forall n d e,
  empty_dentry_in_blk n d blk g = Some e ->
  exists k, d <= k < d + Z.of_nat n /\ e = dentry_addr blk k
            /\ data_blks g (dentry_name blk k) = 0.
Proof.
  induction n as [| n IH]; intros d e H; cbn [empty_dentry_in_blk] in H;
    [discriminate |].
  destruct (data_blks g (dentry_name blk d) =? 0) eqn:E.
  - injection H as <-. apply Z.eqb_eq in E. exists d. split; [lia | auto].
  - apply IH in H. destruct H as (k & Hk & He & Hz).
    exists k. split; [lia | auto].
Qed.

Lemma empty_dentry_in_blk_none g blk : forall n d,
  empty_dentry_in_blk n d blk g = None ->
  forall k, d <= k < d + Z.of_nat n -> data_blks g (dentry_name blk k) <> 0.
Proof.
  induction n as [| n IH]; intros d H k Hk; cbn [empty_dentry_in_blk] in H;
    [lia |].
  destruct (data_blks g (dentry_name blk d) =? 0) eqn:E; [discriminate |].
  apply Z.eqb_neq in E.
  destruct (Z.eq_dec k d) as [-> | Hne]; [exact E |].
  apply (IH (d + 1) H). lia.
Qed.

Lemma find_empty_dentry_spec g :
  same_extents dir fs g ->
  forall l fuel it,
    iter_at dir fs it l -> (List.length l < fuel)%nat ->
    (exists e blk d,
        find_empty_dentry fuel it g = Some (SlotFound e)
        /\ In blk l /\ 0 <= d < NUM_DENTRY_PER_BLOCK
        /\ e = dentry_addr blk d /\ data_blks g (dentry_name blk d) = 0)
    \/ (find_empty_dentry fuel it g = Some NoSlot
        /\ forall blk d, In blk l -> 0 <= d < NUM_DENTRY_PER_BLOCK ->
             data_blks g (dentry_name blk d) <> 0).
Proof.
  intro Hg. induction l as [| b r IH]; intros fuel it Hit Hf;
    (destruct fuel as [| fuel]; [cbn [List.length] in Hf; lia |]);
    pose proof (iter_next g it _ Hg Hit) as Hs; rewrite find_empty_dentry_S.
  - destruct (block_iterator_next_blk it g) as [o it']. cbn [fst] in Hs.
    subst o. right. split; [reflexivity |]. intros blk d [].
  - destruct Hs as (it' & -> & Hit').
    destruct (empty_dentry_in_blk _ 0 b g) as [e |] eqn:Ee.
    + apply empty_dentry_in_blk_some in Ee. destruct Ee as (k & Hk & He & Hz).
      left. exists e, b, k. split; [reflexivity |].
      split; [left; reflexivity |].
      split; [rewrite Z2Nat.id in Hk by (vm_compute; discriminate); lia | auto].
    + destruct (IH fuel it' Hit' ltac:(cbn [List.length] in Hf; lia))
        as [(e & blk & d & He & Hin & Hd & Hrest) | [Hn Hall]].
      * left. exists e, blk, d. split; [exact He |].
        split; [right; exact Hin | auto].
      * right. split; [exact Hn |]. intros blk d [<- | Hin] Hd.
        -- apply (empty_dentry_in_blk_none g _ _ _ Ee).
           rewrite Z2Nat.id by (vm_compute; discriminate). lia.
        -- apply Hall; assumption.
Qed.

End DirScan.


(** ** Addresses of directory entries *)

Lemma block_offset_aligned x :
  0 <= u32 (x * A1FS_BLOCK_SIZE)
  /\ u32 (x * A1FS_BLOCK_SIZE) mod A1FS_BLOCK_SIZE = 0.
Proof.
  unfold u32, A1FS_BLOCK_SIZE. split.
  - apply Z.mod_pos_bound. lia.
  - rewrite Z.mod_mod_divide by (exists (2 ^ 20); reflexivity).
    apply Z.mod_mul. lia.
Qed.

Lemma In_extent_block_offsets b s : forall n k,
  In b (extent_block_offsets s k n) -> 0 <= b /\ b mod A1FS_BLOCK_SIZE = 0.
Proof.
  induction n as [| n IH]; intros k H; cbn [extent_block_offsets] in H;
    [destruct H |].
  destruct H as [<- | H]; [apply block_offset_aligned | eauto].
Qed.

Lemma In_inode_block_offsets b ino fs : forall m i,
  In b (inode_block_offsets m i ino fs) -> 0 <= b /\ b mod A1FS_BLOCK_SIZE = 0.
Proof.
  induction m as [| m IH]; intros i H; cbn [inode_block_offsets] in H;
    [destruct H |].
  apply in_app_or in H.
  destruct H as [H | H]; [eapply In_extent_block_offsets; eauto | eauto].
Qed.

Lemma dentry_addr_aligned blk d :
  blk mod A1FS_BLOCK_SIZE = 0 -> 0 <= d < NUM_DENTRY_PER_BLOCK ->
  dentry_addr blk d mod sizeof_a1fs_dentry = 0.
Proof.
  unfold dentry_addr, NUM_DENTRY_PER_BLOCK, A1FS_BLOCK_SIZE, sizeof_a1fs_dentry.
  change (4096 / 256) with 16. intros Hb Hd.
  rewrite Z.add_mod, Z.mod_mul, Z.add_0_r, Z.mod_mod by lia.
  rewrite <- (Z.mod_mod_divide blk 4096 256) by (exists 16; reflexivity).
  rewrite Hb. reflexivity.
Qed.

(** ** Comparison of a stored name with a string *)

Lemma strcmp_eq_ext m m' : forall s a,
  (forall k, 0 <= k <= Z.of_nat (List.length s) -> m' (a + k) = m (a + k)) ->
  strcmp_eq m' a s = strcmp_eq m a s.
Proof.
  induction s as [| c s IH]; intros a H; cbn [strcmp_eq].
  - pose proof (H 0 ltac:(cbn; lia)) as H0. rewrite Z.add_0_r in H0.
    rewrite H0. reflexivity.
  - pose proof (H 0 ltac:(cbn [List.length]; lia)) as H0.
    rewrite Z.add_0_r in H0. rewrite H0. f_equal.
    apply IH. intros k Hk.
    replace (a + 1 + k) with (a + (k + 1)) by lia.
    apply H. cbn [List.length]. lia.
Qed.

Lemma strcmp_eq_nth m : forall s a,
  (forall k, 0 <= k <= Z.of_nat (List.length s) ->
     m (a + k) = nth (Z.to_nat k) s 0) ->
  strcmp_eq m a s = true.
Proof.
  induction s as [| c s IH]; intros a H; cbn [strcmp_eq].
  - pose proof (H 0 ltac:(cbn; lia)) as H0. rewrite Z.add_0_r in H0.
    rewrite H0. reflexivity.
  - pose proof (H 0 ltac:(cbn [List.length]; lia)) as H0.
    rewrite Z.add_0_r in H0. rewrite H0. cbn [Z.to_nat nth].
    rewrite Z.eqb_refl. cbn [andb].
    apply IH. intros k Hk.
    replace (a + 1 + k) with (a + (k + 1)) by lia.
    rewrite H by (cbn [List.length]; lia).
    replace (Z.to_nat (k + 1)) with (S (Z.to_nat k)) by lia.
    reflexivity.
Qed.

Lemma names_cleared_refl m : names_cleared m m.
Proof. intro x. left. reflexivity. Qed.

Lemma names_cleared_trans m1 m2 m3 :
  names_cleared m1 m2 -> names_cleared m2 m3 -> names_cleared m1 m3.
Proof.
  intros H12 H23 x.
  destruct (H23 x) as [E | E]; [| right; exact E].
  rewrite E. apply H12.
Qed.

Lemma names_cleared_upd m a :
  a mod sizeof_a1fs_dentry = dentry_name_off -> names_cleared m (upd m a 0).
Proof.
  intros Ha x. unfold upd. destruct (x =? a) eqn:E.
  - apply Z.eqb_eq in E. subst x. right. auto.
  - left. reflexivity.
Qed.

Lemma dentry_name_mod blk d :
  blk mod A1FS_BLOCK_SIZE = 0 -> 0 <= d < NUM_DENTRY_PER_BLOCK ->
  dentry_name blk d mod sizeof_a1fs_dentry = dentry_name_off.
Proof.
  intros Hb Hd. pose proof (dentry_addr_aligned blk d Hb Hd) as Ha.
  unfold dentry_name, sizeof_a1fs_dentry, dentry_name_off in *.
  rewrite Z.add_mod, Ha by lia. reflexivity.
Qed.

(** A name that did not match keeps not matching when first name bytes are
    cleared. *)
Lemma strcmp_eq_cleared m m' a c s :
  names_cleared m m' ->
  a mod sizeof_a1fs_dentry = 0 -> c <> 0 ->
  Z.of_nat (List.length (c :: s)) <= A1FS_NAME_MAX ->
  strcmp_eq m (a + dentry_name_off) (c :: s) = false ->
  strcmp_eq m' (a + dentry_name_off) (c :: s) = false.
Proof.
  intros Hnc Ha Hc Hlen H. cbn [strcmp_eq] in *.
  destruct (Hnc (a + dentry_name_off)) as [E | [_ E]].
  - rewrite E.
    rewrite (strcmp_eq_ext m m' s); [exact H |].
    intros k Hk.
    destruct (Hnc (a + dentry_name_off + 1 + k)) as [E' | [Hmod _]];
      [exact E' | exfalso].
    cbn [List.length] in Hlen.
    unfold sizeof_a1fs_dentry, dentry_name_off, A1FS_NAME_MAX in *.
    replace (a + 4 + 1 + k) with (a + (5 + k)) in Hmod by lia.
    rewrite Z.add_mod, Ha, Z.add_0_l, Z.mod_mod in Hmod by lia.
    destruct (Z.eq_dec (5 + k) 256) as [E256 | Hne].
    + rewrite E256 in Hmod. discriminate Hmod.
    + rewrite Z.mod_small in Hmod by lia. lia.
  - rewrite E.
    replace (0 =? c) with false by (symmetry; apply Z.eqb_neq; lia).
    reflexivity.
Qed.

(** ** The loops of remove_dir_entry *)

Lemma clear_dentries_spec c s blk :
  blk mod A1FS_BLOCK_SIZE = 0 -> c <> 0 ->
  Z.of_nat (List.length (c :: s)) <= A1FS_NAME_MAX ->
  forall n d g,
    0 <= d -> d + Z.of_nat n <= NUM_DENTRY_PER_BLOCK ->
    names_cleared (data_blks g) (data_blks (clear_dentries n d blk (c :: s) g))
    /\ forall k, d <= k < d + Z.of_nat n ->
         strcmp_eq (data_blks (clear_dentries n d blk (c :: s) g))
           (dentry_name blk k) (c :: s) = false.
Proof.
  intros Hb Hc Hlen. induction n as [| n IH]; intros d g Hd Hn;
    cbn [clear_dentries].
  - split; [apply names_cleared_refl | intros k Hk; lia].
  - set (g1 := if strcmp_eq (data_blks g) (dentry_name blk d) (c :: s)
               then set_data_blks g (upd (data_blks g) (dentry_name blk d) 0)
               else g).
    assert (H1 : names_cleared (data_blks g) (data_blks g1)).
    { subst g1. destruct (strcmp_eq _ _ _).
      - cbn [set_data_blks data_blks]. apply names_cleared_upd.
        apply dentry_name_mod; [exact Hb | lia].
      - apply names_cleared_refl. }
    assert (H2 : strcmp_eq (data_blks g1) (dentry_name blk d) (c :: s) = false).
    { subst g1. destruct (strcmp_eq _ _ _) eqn:E; [| exact E].
      cbn [set_data_blks data_blks strcmp_eq]. unfold upd at 1.
      rewrite Z.eqb_refl.
      replace (0 =? c) with false by (symmetry; apply Z.eqb_neq; lia).
      reflexivity. }
    destruct (IH (d + 1) g1 ltac:(lia) ltac:(lia)) as [H3 H4].
    split; [eapply names_cleared_trans; eauto |].
    intros k Hk. destruct (Z.eq_dec k d) as [-> | Hne]; [| apply H4; lia].
    unfold dentry_name in *.
    eapply strcmp_eq_cleared; eauto.
    apply dentry_addr_aligned; [exact Hb | lia].
Qed.

Lemma clear_fold_spec c s :
  c <> 0 -> Z.of_nat (List.length (c :: s)) <= A1FS_NAME_MAX ->
  forall l g,
    (forall blk, In blk l -> blk mod A1FS_BLOCK_SIZE = 0) ->
    forall g',
      g' = fold_left
             (fun g' blk =>
                clear_dentries (Z.to_nat NUM_DENTRY_PER_BLOCK) 0 blk (c :: s) g')
             l g ->
      names_cleared (data_blks g) (data_blks g')
      /\ inode_table g' = inode_table g
      /\ forall blk k, In blk l -> 0 <= k < NUM_DENTRY_PER_BLOCK ->
           strcmp_eq (data_blks g') (dentry_name blk k) (c :: s) = false.
Proof.
  intros Hc Hlen. induction l as [| b r IH]; intros g Hal g' Eg'.
  - cbn [fold_left] in Eg'. subst g'.
    split; [apply names_cleared_refl |]. split; [reflexivity |].
    intros blk k [].
  - rewrite fold_left_cons in Eg'.
    assert (Hb : b mod A1FS_BLOCK_SIZE = 0) by (apply Hal; left; reflexivity).
    destruct (clear_dentries_spec c s b Hb Hc Hlen
                (Z.to_nat NUM_DENTRY_PER_BLOCK) 0 g ltac:(lia)
                ltac:(rewrite Z2Nat.id by (vm_compute; discriminate); lia))
      as [H1 H2].
    pose proof (clear_dentries_frame (c :: s)
                  (Z.to_nat NUM_DENTRY_PER_BLOCK) 0 b g) as (_ & _ & Ht1).
    remember (clear_dentries (Z.to_nat NUM_DENTRY_PER_BLOCK) 0 b (c :: s) g)
      as g1 eqn:Eg1.
    clear Eg1.
    destruct (IH g1 ltac:(intros blk Hin; apply Hal; right; exact Hin) g' Eg')
      as (H3 & H4 & H5).
    split; [eapply names_cleared_trans; eauto |].
    split; [rewrite H4; exact Ht1 |].
    intros blk k [<- | Hin] Hk; [| apply H5; assumption].
    unfold dentry_name.
    eapply strcmp_eq_cleared; [exact H3 | | exact Hc | exact Hlen |].
    + apply dentry_addr_aligned; assumption.
    + apply H2. rewrite Z2Nat.id by (vm_compute; discriminate). lia.
Qed.

Lemma dealloc_extent_blocks_frame p : forall n b g,
  inode_table (dealloc_extent_blocks n b p g) = inode_table g
  /\ data_blks (dealloc_extent_blocks n b p g) = data_blks g.
Proof.
  induction n as [| n IH]; intros b g; cbn [dealloc_extent_blocks]; [auto |].
  cbv zeta.
  match goal with
  | |- context [dealloc_extent_blocks n ?b' p ?g'] =>
      destruct (IH b' g') as [H1 H2]; rewrite H1, H2
  end.
  split; reflexivity.
Qed.

Lemma dealloc_extents_frame ino : forall n i g,
  inode_table (dealloc_extents n i ino g) = inode_table g
  /\ data_blks (dealloc_extents n i ino g) = data_blks g.
Proof.
  induction n as [| n IH]; intros i g; cbn [dealloc_extents]; [auto |].
  cbv zeta.
  match goal with
  | |- context [dealloc_extents n ?i' ino ?g'] =>
      destruct (IH i' g') as [H1 H2]; rewrite H1, H2
  end.
  apply dealloc_extent_blocks_frame.
Qed.

(** ** The loops of path_lookup *)

Lemma lookup_dentries_spec comp g blk r : forall n d cur,
  (forall k, d <= k < d + Z.of_nat n ->
     strcmp_eq (data_blks g) (dentry_name blk k) comp = true ->
     i32 (dentry_ino g blk k) = r) ->
  (lookup_dentries n d blk comp cur g = r
   /\ exists k, d <= k < d + Z.of_nat n
                /\ strcmp_eq (data_blks g) (dentry_name blk k) comp = true)
  \/ (lookup_dentries n d blk comp cur g = cur
      /\ forall k, d <= k < d + Z.of_nat n ->
           strcmp_eq (data_blks g) (dentry_name blk k) comp = false).
Proof.
  induction n as [| n IH]; intros d cur H; cbn [lookup_dentries].
  - right. split; [reflexivity | intros k Hk; lia].
  - destruct (strcmp_eq (data_blks g) (dentry_name blk d) comp) eqn:E.
    + left. rewrite (H d ltac:(lia) E).
      destruct (IH (d + 1) r ltac:(intros k Hk; apply H; lia))
        as [[Hr _] | [Hr _]]; (split; [exact Hr | exists d; split; [lia | exact E]]).
    + destruct (IH (d + 1) cur ltac:(intros k Hk; apply H; lia))
        as [[Hr (k & Hk & Hm)] | [Hr Hall]].
      * left. split; [exact Hr | exists k; split; [lia | exact Hm]].
      * right. split; [exact Hr |]. intros k Hk.
        destruct (Z.eq_dec k d) as [-> | Hne]; [exact E | apply Hall; lia].
Qed.

Lemma lookup_fold_spec comp g r : forall l cur res,
  (forall blk k, In blk l -> 0 <= k < NUM_DENTRY_PER_BLOCK ->
     strcmp_eq (data_blks g) (dentry_name blk k) comp = true ->
     i32 (dentry_ino g blk k) = r) ->
  res = fold_left
          (fun c blk =>
             lookup_dentries (Z.to_nat NUM_DENTRY_PER_BLOCK) 0 blk comp c g)
          l cur ->
  (res = r
   /\ exists blk k, In blk l /\ 0 <= k < NUM_DENTRY_PER_BLOCK
                    /\ strcmp_eq (data_blks g) (dentry_name blk k) comp = true)
  \/ (res = cur
      /\ forall blk k, In blk l -> 0 <= k < NUM_DENTRY_PER_BLOCK ->
           strcmp_eq (data_blks g) (dentry_name blk k) comp = false).
Proof.
  assert (Hnum : Z.of_nat (Z.to_nat NUM_DENTRY_PER_BLOCK) = NUM_DENTRY_PER_BLOCK)
    by (apply Z2Nat.id; vm_compute; discriminate).
  induction l as [| b rest IH]; intros cur res H Eres.
  - cbn [fold_left] in Eres. right. split; [exact Eres | intros blk k []].
  - rewrite fold_left_cons in Eres.
    destruct (lookup_dentries_spec comp g b r (Z.to_nat NUM_DENTRY_PER_BLOCK) 0 cur
                ltac:(intros k Hk; apply H; [left; reflexivity | lia]))
      as [[Hr (k & Hk & Hm)] | [Hr Hall]]; rewrite Hr in Eres.
    + left.
      destruct (IH r res ltac:(intros blk k' Hin; apply H; right; exact Hin) Eres)
        as [[Hres _] | [Hres _]];
        (split; [exact Hres |]; exists b, k;
         split; [left; reflexivity | split; [lia | exact Hm]]).
    + destruct (IH cur res ltac:(intros blk k' Hin; apply H; right; exact Hin) Eres)
        as [[Hres (blk & k & Hin & Hk & Hm)] | [Hres Hall']].
      * left. split; [exact Hres |]. exists blk, k.
        split; [right; exact Hin | auto].
      * right. split; [exact Hres |]. intros blk k [<- | Hin] Hk.
        -- apply Hall. lia.
        -- apply Hall'; assumption.
Qed.

(** ** Paths of entries of the root directory *)

Lemma cstr_nonzero : forall s c, In c (cstr s) -> c <> 0.
Proof.
  induction s as [| a s IH]; intros c H; cbn [cstr] in H; [destruct H |].
  destruct (byte_of_ascii a =? 0) eqn:E; [destruct H |].
  destruct H as [<- | H]; [apply Z.eqb_neq; exact E | auto].
Qed.

Lemma In_firstn_In {A : Type} (x : A) : forall n l, In x (firstn n l) -> In x l.
Proof.
  induction n as [| n IH]; intros l H; [destruct H |].
  destruct l as [| a l]; [destruct H |].
  destruct H as [<- | H]; [left; reflexivity | right; auto].
Qed.

Lemma split_last_slash_none : forall s,
  split_last_slash s = None -> forall c, In c s -> c <> slash.
Proof.
  induction s as [| a s IH]; intros H c Hin; [destruct Hin |].
  cbn [split_last_slash] in H.
  destruct (split_last_slash s) as [[? ?] |]; [discriminate |].
  destruct (a =? slash) eqn:E; [discriminate |].
  destruct Hin as [<- | Hin]; [apply Z.eqb_neq; exact E | apply IH; auto].
Qed.

Lemma split_last_slash_spec : forall s pre name,
  split_last_slash s = Some (pre, name) ->
  s = pre ++ slash :: name /\ forall c, In c name -> c <> slash.
Proof.
  induction s as [| c s IH]; intros pre name H; cbn [split_last_slash] in H;
    [discriminate |].
  destruct (split_last_slash s) as [[pre' name'] |] eqn:E.
  - injection H as <- <-. destruct (IH _ _ eq_refl) as [Hs Hn].
    split; [cbn [app]; rewrite <- Hs; reflexivity | exact Hn].
  - destruct (c =? slash) eqn:Ec; [| discriminate].
    injection H as <- <-. apply Z.eqb_eq in Ec. subst c.
    split; [reflexivity | apply split_last_slash_none; exact E].
Qed.

Lemma strtok_all_no_slash : forall s cur,
  (forall c, In c s -> c <> slash) ->
  (cur <> [] \/ s <> []) ->
  strtok_all s cur = [rev cur ++ s].
Proof.
  induction s as [| c s IH]; intros cur Hns Hne; cbn [strtok_all].
  - rewrite app_nil_r. destruct cur; [destruct Hne; contradiction | reflexivity].
  - replace (c =? slash) with false
      by (symmetry; apply Z.eqb_neq; apply Hns; left; reflexivity).
    rewrite IH; [| intros x Hx; apply Hns; right; exact Hx | left; discriminate].
    cbn [rev]. rewrite <- app_assoc. reflexivity.
Qed.

Lemma lookup_root_entry p name g :
  split_path p = Some ([slash], name) -> name <> [] ->
  path_lookup_bytes p g = lookup_components [name] 0 g.
Proof.
  unfold split_path, path_lookup_bytes.
  destruct (split_last_slash (strncpy_local p A1FS_PATH_MAX))
    as [[pre nm] |] eqn:E; [| discriminate].
  intros H Hne. injection H as Hpre ->.
  apply split_last_slash_spec in E. destruct E as [Es Hns].
  rewrite Es. cbv zeta.
  assert (Ht : strtok_all name [] = [name])
    by (apply strtok_all_no_slash; [exact Hns | right; exact Hne]).
  destruct pre as [| a pre].
  - cbn [app nth strtok_all]. rewrite Z.eqb_refl. cbn [negb].
    rewrite Ht. reflexivity.
  - injection Hpre as -> ->.
    cbn [app nth strtok_all]. rewrite Z.eqb_refl. cbn [negb].
    rewrite Ht. reflexivity.
Qed.

Lemma split_path_name_bytes p pre name :
  split_path p = Some (pre, name) -> forall c, In c name -> In c p.
Proof.
  unfold split_path.
  destruct (split_last_slash (strncpy_local p A1FS_PATH_MAX))
    as [[pre' nm] |] eqn:E; [| discriminate].
  intros H c Hin. injection H as _ ->.
  apply split_last_slash_spec in E. destruct E as [Es _].
  apply (In_firstn_In c (Z.to_nat A1FS_PATH_MAX)).
  unfold strncpy_local in Es. rewrite Es.
  apply in_or_app. right. right. exact Hin.
Qed.

Lemma path_lookup_root g : path_lookup_bytes [slash] g = Some 0.
Proof. reflexivity. Qed.

Lemma same_extents_dec_links dir fs j g :
  same_extents dir fs g -> same_extents dir fs (dec_links j g).
Proof. intro H. apply same_extents_set_inode; [exact H | reflexivity | reflexivity]. Qed.

Lemma mode_dec_links j g k :
  mode (inode_table (dec_links j g) k) = mode (inode_table g k).
Proof.
  unfold dec_links, set_inode, set_inode_table, upd. cbn [inode_table].
  destruct (k =? j) eqn:E; [| reflexivity].
  apply Z.eqb_eq in E. subst. reflexivity.
Qed.

(** The root directory of [stale_image] has one inline extent of one
    block. *)
Ltac stale_root_inline :=
  split;
  [ change (num_extents (inode_table stale_image 0)) with 1;
    unfold A1FS_NUM_DIRECT_EXTENT; lia
  | let i := fresh "i" in let Hi := fresh "Hi" in let E := fresh "E" in
    intros i Hi;
    change (num_extents (inode_table stale_image 0)) with 1 in Hi;
    assert (E : i = 0) by lia; rewrite E; vm_compute;
    split; [let Hd := fresh "Hd" in intro Hd; discriminate Hd | reflexivity] ].

(** X19.  Removal, then lookup.  For the path of an entry of the root
    directory (a non-empty name of at most A1FS_NAME_MAX bytes; the root a
    directory whose extents are inline and none of them empty), once
    remove_dir_entry has run, path_lookup of the same path returns
    -ENOENT. *)
Theorem remove_dir_entry_then_lookup path name ino fs fs' :
  split_path (cstr path) = Some ([slash], name) ->
  name <> [] ->
  Z.of_nat (List.length name) <= A1FS_NAME_MAX ->
  S_ISDIR (mode (inode_table fs 0)) = true ->
  inline_dir 0 fs ->
  path_lookup path fs = Some ino -> 0 <= ino ->
  remove_dir_entry path fs = Some fs' ->
  path_lookup path fs' = Some (- ENOENT).
Proof.
  intros Hsplit Hne Hlen Hmode Hdir Hino _ H.
  destruct name as [| c s]; [contradiction |].
  assert (Hc : c <> 0).
  { apply (cstr_nonzero path).
    apply (split_path_name_bytes _ _ _ Hsplit). left. reflexivity. }
  rewrite path_lookup_unfold in Hino.
  unfold remove_dir_entry, remove_dir_entry_bytes in H.
  rewrite Hsplit, path_lookup_root, Hino in H.
  assert (Hs2 : same_extents 0 fs
                  (dec_links ino
                     (if S_ISDIR (mode (inode_table fs ino))
                      then dec_links 0 (dec_links ino fs) else fs))).
  { apply same_extents_dec_links.
    destruct (S_ISDIR (mode (inode_table fs ino))); [| apply same_extents_refl].
    do 2 apply same_extents_dec_links. apply same_extents_refl. }
  assert (Hm2 : mode (inode_table
                        (dec_links ino
                           (if S_ISDIR (mode (inode_table fs ino))
                            then dec_links 0 (dec_links ino fs) else fs)) 0)
                = mode (inode_table fs 0)).
  { rewrite mode_dec_links.
    destruct (S_ISDIR (mode (inode_table fs ino))); [| reflexivity].
    rewrite !mode_dec_links. reflexivity. }
  remember (dec_links ino
              (if S_ISDIR (mode (inode_table fs ino))
               then dec_links 0 (dec_links ino fs) else fs)) as fs2 eqn:E2.
  clear E2.
  rewrite (clear_blocks_fold 0 fs Hdir (c :: s) (dir_blocks 0 fs)) in H;
    [| exact Hs2 | apply iter_at_init; assumption
     | apply iter_fuel_enough; assumption].
  remember (fold_left
              (fun g' blk =>
                 clear_dentries (Z.to_nat NUM_DENTRY_PER_BLOCK) 0 blk (c :: s) g')
              (dir_blocks 0 fs) fs2) as fs3 eqn:E3.
  destruct (clear_fold_spec c s Hc Hlen (dir_blocks 0 fs) fs2
              ltac:(intros blk Hin; eapply In_inode_block_offsets; exact Hin)
              fs3 E3)
    as (_ & Ht3 & Hnm3).
  clear E3.
  assert (Hfin : inode_table fs' = inode_table fs3
                 /\ data_blks fs' = data_blks fs3).
  { destruct (links (inode_table fs3 ino) =? 0); injection H as <-.
    - destruct (dealloc_extents_frame ino
                  (Z.to_nat (num_extents (inode_table fs3 ino))) 0
                  (set_superblock fs3
                     (sb_set_free_inodes (superblock fs3)
                        (u32 (num_free_inodes (superblock fs3) + 1)))))
        as [H1 H2].
      split; [exact H1 | exact H2].
    - split; reflexivity. }
  destruct Hfin as [Ht' Hd'].
  assert (Hs' : same_extents 0 fs fs').
  { eapply same_extents_tables; [| exact Hs2]. congruence. }
  rewrite path_lookup_unfold, (lookup_root_entry _ (c :: s)) by assumption.
  cbn [lookup_components]. cbn [Z.ltb Z.compare].
  rewrite Ht', Ht3, Hm2, Hmode. cbn [negb].
  rewrite (lookup_blocks_fold 0 fs Hdir fs' (c :: s) Hs' (dir_blocks 0 fs));
    [| apply iter_at_init; assumption | apply iter_fuel_enough; assumption].
  destruct (lookup_fold_spec (c :: s) fs' (-1) (dir_blocks 0 fs) (-1) _
              ltac:(intros blk k Hin Hk Hm; rewrite Hd', Hnm3 in Hm by assumption;
                    discriminate Hm) eq_refl)
    as [[Hres _] | [Hres _]]; rewrite Hres; reflexivity.
Qed.

Lemma remove_dir_entry_then_lookup_witness :
  (split_path (cstr "/f"%string) = Some ([slash], [102])
   /\ [102] <> []
   /\ Z.of_nat (List.length [102]) <= A1FS_NAME_MAX
   /\ S_ISDIR (mode (inode_table stale_image 0)) = true
   /\ inline_dir 0 stale_image
   /\ path_lookup "/f"%string stale_image = Some 1
   /\ 0 <= 1
   /\ remove_dir_entry "/f"%string stale_image = Some removed_file_image)
  /\ path_lookup "/f"%string removed_file_image = Some (- ENOENT).
Proof.
  assert (H1 : split_path (cstr "/f"%string) = Some ([slash], [102]))
    by reflexivity.
  assert (H2 : [102] <> []) by discriminate.
  assert (H3 : Z.of_nat (List.length [102]) <= A1FS_NAME_MAX)
    by (vm_compute; discriminate).
  assert (H4 : S_ISDIR (mode (inode_table stale_image 0)) = true)
    by (vm_compute; reflexivity).
  assert (H5 : inline_dir 0 stale_image) by stale_root_inline.
  assert (H6 : path_lookup "/f"%string stale_image = Some 1)
    by (vm_compute; reflexivity).
  assert (H7 : 0 <= 1) by lia.
  assert (H8 : remove_dir_entry "/f"%string stale_image
               = Some removed_file_image) by (vm_compute; reflexivity).
  split; [auto 10 |].
  exact (remove_dir_entry_then_lookup "/f"%string [102] 1 stale_image
           removed_file_image H1 H2 H3 H4 H5 H6 H7 H8).
Defined.


(** ** The stores of add_dir_entry *)

Lemma load_store_u32 m a v :
  0 <= v < 2 ^ 32 -> load_u32 (store_u32 m a v) a = v.
Proof.
  intro Hv. unfold load_u32, store_u32, upd.
  rewrite !Z.eqb_refl.
  replace (a =? a + 3) with false by (symmetry; apply Z.eqb_neq; lia).
  replace (a =? a + 2) with false by (symmetry; apply Z.eqb_neq; lia).
  replace (a =? a + 1) with false by (symmetry; apply Z.eqb_neq; lia).
  replace (a + 1 =? a + 3) with false by (symmetry; apply Z.eqb_neq; lia).
  replace (a + 1 =? a + 2) with false by (symmetry; apply Z.eqb_neq; lia).
  replace (a + 2 =? a + 3) with false by (symmetry; apply Z.eqb_neq; lia).
  clear m a.
  pose proof (Z.div_mod v 256 ltac:(lia)).
  pose proof (Z.div_mod (v / 256) 256 ltac:(lia)).
  pose proof (Z.div_mod (v / 65536) 256 ltac:(lia)).
  assert (E1 : v / 65536 = v / 256 / 256)
    by (rewrite Z.div_div by lia; reflexivity).
  assert (E2 : v / 16777216 = v / 65536 / 256)
    by (rewrite Z.div_div by lia; reflexivity).
  assert (E3 : (v / 16777216) mod 256 = v / 16777216).
  { apply Z.mod_small. split; [apply Z.div_pos; lia |].
    apply Z.div_lt_upper_bound; lia. }
  rewrite E3. lia.
Qed.

Lemma store_u32_other m a v x :
  ~ (a <= x < a + 4) -> store_u32 m a v x = m x.
Proof.
  intro H. unfold store_u32, upd.
  replace (x =? a + 3) with false by (symmetry; apply Z.eqb_neq; lia).
  replace (x =? a + 2) with false by (symmetry; apply Z.eqb_neq; lia).
  replace (x =? a + 1) with false by (symmetry; apply Z.eqb_neq; lia).
  replace (x =? a) with false by (symmetry; apply Z.eqb_neq; lia).
  reflexivity.
Qed.

Lemma strncpy_mem_inside m dst src n x :
  dst <= x < dst + n -> strncpy_mem m dst src n x = nth (Z.to_nat (x - dst)) src 0.
Proof.
  intro H. unfold strncpy_mem.
  replace (dst <=? x) with true by (symmetry; apply Z.leb_le; lia).
  replace (x <? dst + n) with true by (symmetry; apply Z.ltb_lt; lia).
  reflexivity.
Qed.

Lemma strncpy_mem_outside m dst src n x :
  ~ (dst <= x < dst + n) -> strncpy_mem m dst src n x = m x.
Proof.
  intro H. unfold strncpy_mem.
  destruct (dst <=? x) eqn:E1; [| reflexivity].
  destruct (x <? dst + n) eqn:E2; [| reflexivity].
  apply Z.leb_le in E1. apply Z.ltb_lt in E2. lia.
Qed.

(** The state that [fill_dentry] leaves, for a clock that works. *)
Lemma fill_dentry_state e name mode_ links_ t g :
  inode_table (fill_dentry e name mode_ links_ (Some t) g)
  = upd (inode_table g) (u32 (find_empty_inode g))
      (mk_inode mode_ links_ 0 t 0
         (fun k => if (0 <=? k) && (k <? A1FS_NUM_DIRECT_EXTENT)
                   then zero_extent
                   else direct_extents
                          (inode_table g (u32 (find_empty_inode g))) k)
         0)
  /\ data_blks (fill_dentry e name mode_ links_ (Some t) g)
     = store_u32
         (strncpy_mem (data_blks g) (e + dentry_name_off) name A1FS_NAME_MAX)
         e (u32 (find_empty_inode g)).
Proof.
  unfold fill_dentry.
  rewrite (find_empty_inode_same_table g
             (set_data_blks g
                (strncpy_mem (data_blks g) (e + dentry_name_off) name
                   A1FS_NAME_MAX))) by reflexivity.
  unfold init_inode. split; reflexivity.
Qed.

Lemma same_extents_after_link_increment dir mode_ par fs :
  same_extents dir fs (after_link_increment mode_ par fs).
Proof.
  unfold after_link_increment. destruct (S_ISDIR mode_);
    [| apply same_extents_refl].
  unfold inc_links.
  apply same_extents_set_inode;
    [apply same_extents_refl | reflexivity | reflexivity].
Qed.

Lemma after_link_increment_frame mode_ par fs :
  data_blks (after_link_increment mode_ par fs) = data_blks fs
  /\ (forall j, mode (inode_table (after_link_increment mode_ par fs) j)
                = mode (inode_table fs j))
  /\ (forall j, j <> par ->
        inode_table (after_link_increment mode_ par fs) j = inode_table fs j).
Proof.
  unfold after_link_increment. destruct (S_ISDIR mode_); [| auto].
  unfold inc_links, set_inode, set_inode_table, upd. cbn [data_blks inode_table].
  split; [reflexivity |]. split.
  - intro j. destruct (j =? par) eqn:E; [| reflexivity].
    apply Z.eqb_eq in E. subst. reflexivity.
  - intros j Hj. apply Z.eqb_neq in Hj. rewrite Hj. reflexivity.
Qed.

(** On an image whose count of free inodes is exact and not zero,
    [find_empty_inode] finds an inode. *)
Lemma find_empty_inode_found fs :
  0 <= num_inodes (superblock fs) <= 2 ^ 31 ->
  inode_accounting fs -> num_free_inodes (superblock fs) <> 0 ->
  0 <= find_empty_inode fs < num_inodes (superblock fs)
  /\ links (inode_table fs (find_empty_inode fs)) = 0.
Proof.
  intros Hn Hacc Hfree. unfold inode_accounting in Hacc.
  pose proof (find_empty_inode_from_spec fs
                (Z.to_nat (num_inodes (superblock fs))) 0) as Hspec.
  fold (find_empty_inode fs) in Hspec.
  destruct Hspec as [[_ Hall] | (r & Hr & Er & Hz & _)].
  - exfalso. apply Hfree. rewrite <- Hacc. apply count_free_inodes_none.
    intros j Hj. apply Hall. lia.
  - rewrite Z2Nat.id in Hr by lia. rewrite Er, i32_small by lia.
    split; [lia | exact Hz].
Qed.

(** X20.  Creation, then lookup.  Let the root be a directory with inline,
    non-empty extents and a link count neither 0 nor at its maximum, on an
    image with at most 2^31 inodes whose count of free inodes is exact.
    If no entry of the root carries the name (non-empty, shorter than
    A1FS_NAME_MAX), the root has an entry with an empty name, and
    add_dir_entry, with a working clock, returns 0 for the path, then
    path_lookup of the path returns an inode number that was free before
    the call, and that inode now has the mode and the link count passed to
    the call and size 0. *)
Theorem add_dir_entry_then_lookup path name mode_ links_ t fs fs' :
  split_path (cstr path) = Some ([slash], name) ->
  name <> [] ->
  Z.of_nat (List.length name) < A1FS_NAME_MAX ->
  S_ISDIR (mode (inode_table fs 0)) = true ->
  inline_dir 0 fs ->
  0 < links (inode_table fs 0) < 2 ^ 32 - 1 ->
  0 <= num_inodes (superblock fs) <= 2 ^ 31 ->
  inode_accounting fs ->
  name_absent 0 name fs ->
  (exists blk d, In blk (dir_blocks 0 fs) /\ 0 <= d < NUM_DENTRY_PER_BLOCK
                 /\ data_blks fs (dentry_name blk d) = 0) ->
  add_dir_entry path mode_ links_ (Some t) fs = Some (0, fs') ->
  exists r,
    path_lookup path fs' = Some r
    /\ 0 <= r < num_inodes (superblock fs)
    /\ links (inode_table fs r) = 0
    /\ mode (inode_table fs' r) = mode_
    /\ links (inode_table fs' r) = links_
    /\ i_size (inode_table fs' r) = 0.
Proof.
  intros Hsplit Hne Hlen Hmode Hdir Hl0 Hn Hacc Habs (blk1 & d1 & Hin1 & Hd1 & Hz1) H.
  unfold add_dir_entry, add_dir_entry_bytes in H.
  destruct (num_free_inodes (superblock fs) =? 0) eqn:Efree;
    [injection H as H _; discriminate H |].
  apply Z.eqb_neq in Efree.
  rewrite Hsplit in H.
  destruct (_ >? A1FS_NAME_MAX); [injection H as H _; discriminate H |].
  rewrite path_lookup_root in H.
  fold (after_link_increment mode_ 0 fs) in H.
  pose proof (same_extents_after_link_increment 0 mode_ 0 fs) as Hs1.
  destruct (after_link_increment_frame mode_ 0 fs) as (Hd1' & Hm1 & Ht1).
  pose proof (superblock_after_link_increment mode_ 0 fs) as Hsb1.
  assert (Hacc1 : inode_accounting (after_link_increment mode_ 0 fs)).
  { apply (accounting_transfer fs); try (rewrite Hsb1; reflexivity); auto.
    intro j. apply links_after_link_increment. exact Hl0. }
  assert (Hl1 : links (inode_table (after_link_increment mode_ 0 fs) 0) <> 0).
  { pose proof (links_after_link_increment mode_ 0 fs 0 Hl0) as E.
    intro Hz. apply Z.eqb_eq in Hz. rewrite E in Hz. apply Z.eqb_eq in Hz. lia. }
  destruct (find_empty_inode_found (after_link_increment mode_ 0 fs)
              ltac:(rewrite Hsb1; lia) Hacc1 ltac:(rewrite Hsb1; exact Efree))
    as [Hr Hrz].
  rewrite Hsb1 in Hr.
  remember (after_link_increment mode_ 0 fs) as fs1 eqn:E1. clear E1.
  set (r := find_empty_inode fs1) in *.
  assert (Hr0 : r <> 0) by (intro E; rewrite E in Hrz; contradiction).
  assert (Hu : u32 r = r) by (apply u32_small; lia).
  destruct (find_empty_dentry_spec 0 fs Hdir fs1 Hs1 (dir_blocks 0 fs)
              (iter_fuel 0 fs1) (block_iterator_init 0 fs1)
              ltac:(apply iter_at_init; assumption)
              ltac:(apply iter_fuel_enough; assumption))
    as [(e & blk0 & d0 & He & Hin0 & Hd0 & Hea & _) | [_ Hfull]].
  2: { exfalso. apply (Hfull blk1 d1 Hin1 Hd1). rewrite Hd1'. exact Hz1. }
  rewrite He in H. injection H as <-.
  destruct (fill_dentry_state e name mode_ links_ t fs1) as [Ht' Hd'].
  fold r in Ht', Hd'. rewrite Hu in Ht', Hd'.
  exists r.
  assert (Hir : forall f, f (inode_table (fill_dentry e name mode_ links_ (Some t) fs1) r)
                = f (mk_inode mode_ links_ 0 t 0
                       (fun k => if (0 <=? k) && (k <? A1FS_NUM_DIRECT_EXTENT)
                                 then zero_extent
                                 else direct_extents (inode_table fs1 r) k) 0)
                  :> Z).
  { intro f. rewrite Ht'. unfold upd. rewrite Z.eqb_refl. reflexivity. }
  split.
  2: { split; [lia |]. split; [rewrite <- (Ht1 r Hr0); exact Hrz |].
       split; [apply (Hir mode) |]. split; [apply (Hir links) | apply (Hir i_size)]. }
  assert (Ht0 : inode_table (fill_dentry e name mode_ links_ (Some t) fs1) 0
                = inode_table fs1 0).
  { rewrite Ht'. unfold upd.
    replace (0 =? r) with false by (symmetry; apply Z.eqb_neq; lia).
    reflexivity. }
  assert (Hs' : same_extents 0 fs (fill_dentry e name mode_ links_ (Some t) fs1)).
  { destruct Hs1 as [Hsn Hse]. unfold same_extents. rewrite Ht0. auto. }
  remember (fill_dentry e name mode_ links_ (Some t) fs1) as fs' eqn:E'. clear E'.
  rewrite path_lookup_unfold, (lookup_root_entry _ name) by assumption.
  cbn [lookup_components]. cbn [Z.ltb Z.compare].
  rewrite Ht0, Hm1, Hmode. cbn [negb].
  rewrite (lookup_blocks_fold 0 fs Hdir fs' name Hs' (dir_blocks 0 fs));
    [| apply iter_at_init; assumption | apply iter_fuel_enough; assumption].
  (* the block and the entry that were filled *)
  assert (Hb0 : blk0 mod A1FS_BLOCK_SIZE = 0)
    by (eapply In_inode_block_offsets; exact Hin0).
  assert (Hae : e mod sizeof_a1fs_dentry = 0)
    by (rewrite Hea; apply dentry_addr_aligned; assumption).
  assert (Hname : strcmp_eq (data_blks fs') (e + dentry_name_off) name = true).
  { apply strcmp_eq_nth. intros k Hk. rewrite Hd'.
    unfold dentry_name_off, A1FS_NAME_MAX in *.
    rewrite store_u32_other by lia.
    rewrite strncpy_mem_inside by lia.
    f_equal. lia. }
  assert (Hino : i32 (load_u32 (data_blks fs') e) = r).
  { rewrite Hd', load_store_u32 by lia. apply i32_small. lia. }
  assert (Hother : forall blk k,
             In blk (dir_blocks 0 fs) -> 0 <= k < NUM_DENTRY_PER_BLOCK ->
             dentry_addr blk k <> e ->
             strcmp_eq (data_blks fs') (dentry_name blk k) name = false).
  { intros blk k Hin Hk Hneq.
    rewrite <- (Habs blk k Hin Hk). rewrite <- Hd1'.
    apply strcmp_eq_ext. intros j Hj. rewrite Hd'.
    assert (Hb : blk mod A1FS_BLOCK_SIZE = 0)
      by (eapply In_inode_block_offsets; exact Hin).
    pose proof (dentry_addr_aligned blk k Hb Hk) as Ha.
    unfold dentry_name, sizeof_a1fs_dentry, dentry_name_off, A1FS_NAME_MAX in *.
    assert (Hfar : dentry_addr blk k + 256 <= e \/ e + 256 <= dentry_addr blk k).
    { pose proof (Z.div_mod (dentry_addr blk k) 256 ltac:(lia)).
      pose proof (Z.div_mod e 256 ltac:(lia)). lia. }
    rewrite store_u32_other by lia.
    rewrite strncpy_mem_outside by lia.
    reflexivity. }
  destruct (lookup_fold_spec name fs' r (dir_blocks 0 fs) (-1) _
              ltac:(intros blk k Hin Hk Hm;
                    destruct (Z.eq_dec (dentry_addr blk k) e) as [Ee | Hneq];
                    [unfold dentry_ino; rewrite Ee; exact Hino
                    | rewrite (Hother blk k Hin Hk Hneq) in Hm; discriminate Hm])
              eq_refl)
    as [[Hres _] | [_ Hnone]].
  - rewrite Hres. cbn [lookup_components].
    replace (r >=? 0) with true by (symmetry; apply Z.geb_le; lia).
    reflexivity.
  - exfalso. specialize (Hnone blk0 d0 Hin0 Hd0).
    unfold dentry_name in Hnone. rewrite <- Hea, Hname in Hnone.
    discriminate Hnone.
Qed.

Lemma add_dir_entry_then_lookup_witness :
  (split_path (cstr "/g"%string) = Some ([slash], [103])
   /\ [103] <> []
   /\ Z.of_nat (List.length [103]) < A1FS_NAME_MAX
   /\ S_ISDIR (mode (inode_table stale_image 0)) = true
   /\ inline_dir 0 stale_image
   /\ 0 < links (inode_table stale_image 0) < 2 ^ 32 - 1
   /\ 0 <= num_inodes (superblock stale_image) <= 2 ^ 31
   /\ inode_accounting stale_image
   /\ name_absent 0 [103] stale_image
   /\ (exists blk d,
         In blk (dir_blocks 0 stale_image) /\ 0 <= d < NUM_DENTRY_PER_BLOCK
         /\ data_blks stale_image (dentry_name blk d) = 0)
   /\ add_dir_entry "/g"%string mode_file 1 (Some (mk_timespec 1600000000 0))
        stale_image
      = Some (0, two_file_image))
  /\ exists r,
       path_lookup "/g"%string two_file_image = Some r
       /\ 0 <= r < num_inodes (superblock stale_image)
       /\ links (inode_table stale_image r) = 0
       /\ mode (inode_table two_file_image r) = mode_file
       /\ links (inode_table two_file_image r) = 1
       /\ i_size (inode_table two_file_image r) = 0.
Proof.
  assert (Eb : dir_blocks 0 stale_image = [0]) by (vm_compute; reflexivity).
  assert (H1 : split_path (cstr "/g"%string) = Some ([slash], [103]))
    by reflexivity.
  assert (H2 : [103] <> []) by discriminate.
  assert (H3 : Z.of_nat (List.length [103]) < A1FS_NAME_MAX)
    by (vm_compute; reflexivity).
  assert (H4 : S_ISDIR (mode (inode_table stale_image 0)) = true)
    by (vm_compute; reflexivity).
  assert (H5 : inline_dir 0 stale_image) by stale_root_inline.
  assert (H6 : 0 < links (inode_table stale_image 0) < 2 ^ 32 - 1)
    by (change (links (inode_table stale_image 0)) with 2; lia).
  assert (H7 : 0 <= num_inodes (superblock stale_image) <= 2 ^ 31)
    by (change (num_inodes (superblock stale_image)) with 16; lia).
  assert (H8 : inode_accounting stale_image) by (vm_compute; reflexivity).
  assert (H9 : name_absent 0 [103] stale_image).
  { intros blk d Hin Hd. rewrite Eb in Hin. destruct Hin as [<- | []].
    change NUM_DENTRY_PER_BLOCK with 16 in Hd.
    assert (Hc : d = 0 \/ d = 1 \/ d = 2 \/ d = 3 \/ d = 4 \/ d = 5
                 \/ d = 6 \/ d = 7 \/ d = 8 \/ d = 9 \/ d = 10 \/ d = 11
                 \/ d = 12 \/ d = 13 \/ d = 14 \/ d = 15) by lia.
    repeat (destruct Hc as [Hc | Hc]; [rewrite Hc; vm_compute; reflexivity |]).
    rewrite Hc. vm_compute. reflexivity. }
  assert (H10 : exists blk d,
             In blk (dir_blocks 0 stale_image) /\ 0 <= d < NUM_DENTRY_PER_BLOCK
             /\ data_blks stale_image (dentry_name blk d) = 0).
  { exists 0, 1. rewrite Eb. split; [left; reflexivity |].
    split; [change NUM_DENTRY_PER_BLOCK with 16; lia | vm_compute; reflexivity]. }
  assert (H11 : add_dir_entry "/g"%string mode_file 1
                  (Some (mk_timespec 1600000000 0)) stale_image
                = Some (0, two_file_image)) by (vm_compute; reflexivity).
  split; [auto 12 |].
  exact (add_dir_entry_then_lookup "/g"%string [103] mode_file 1
           (mk_timespec 1600000000 0) stale_image two_file_image
           H1 H2 H3 H4 H5 H6 H7 H8 H9 H10 H11).
Defined.


(** ** a1fs_rmdir *)

Lemma nonempty_dentry_in_blk_true g blk : forall n d,
  nonempty_dentry_in_blk n d blk g = true ->
  exists k, d <= k < d + Z.of_nat n /\ data_blks g (dentry_name blk k) <> 0.
Proof.
  induction n as [| n IH]; intros d H; cbn [nonempty_dentry_in_blk] in H;
    [discriminate |].
  destruct (data_blks g (dentry_name blk d) =? 0) eqn:E; cbn [negb] in H.
  - apply IH in H. destruct H as (k & Hk & Hz). exists k. split; [lia | exact Hz].
  - apply Z.eqb_neq in E. exists d. split; [lia | exact E].
Qed.

Lemma nonempty_dentry_in_blk_false g blk : forall n d,
  nonempty_dentry_in_blk n d blk g = false ->
  forall k, d <= k < d + Z.of_nat n -> data_blks g (dentry_name blk k) = 0.
Proof.
  induction n as [| n IH]; intros d H k Hk; cbn [nonempty_dentry_in_blk] in H;
    [lia |].
  destruct (data_blks g (dentry_name blk d) =? 0) eqn:E; cbn [negb] in H;
    [| discriminate].
  apply Z.eqb_eq in E.
  destruct (Z.eq_dec k d) as [-> | Hne]; [exact E |].
  apply (IH (d + 1) H). lia.
Qed.

Lemma dir_has_entry_S fuel it g :
  dir_has_entry (S fuel) it g
  = match block_iterator_next_blk it g with
    | (None, _) => Some false
    | (Some cur_blk, b_iter') =>
        if nonempty_dentry_in_blk (Z.to_nat NUM_DENTRY_PER_BLOCK) 0 cur_blk g
        then Some true
        else dir_has_entry fuel b_iter' g
    end.
Proof. reflexivity. Qed.

Lemma dir_has_entry_spec dir fs :
  inline_dir dir fs ->
  forall l fuel it,
    iter_at dir fs it l -> (List.length l < fuel)%nat ->
    (dir_has_entry fuel it fs = Some true
     /\ exists blk d, In blk l /\ 0 <= d < NUM_DENTRY_PER_BLOCK
                      /\ data_blks fs (dentry_name blk d) <> 0)
    \/ (dir_has_entry fuel it fs = Some false
        /\ forall blk d, In blk l -> 0 <= d < NUM_DENTRY_PER_BLOCK ->
             data_blks fs (dentry_name blk d) = 0).
Proof.
  intro Hdir.
  assert (Hnum : Z.of_nat (Z.to_nat NUM_DENTRY_PER_BLOCK) = NUM_DENTRY_PER_BLOCK)
    by (apply Z2Nat.id; vm_compute; discriminate).
  induction l as [| b r IH]; intros fuel it Hit Hf;
    (destruct fuel as [| fuel]; [cbn [List.length] in Hf; lia |]);
    pose proof (iter_next dir fs Hdir fs it _ (same_extents_refl dir fs) Hit) as Hs;
    rewrite dir_has_entry_S.
  - destruct (block_iterator_next_blk it fs) as [o it']. cbn [fst] in Hs.
    subst o. right. split; [reflexivity | intros blk d []].
  - destruct Hs as (it' & -> & Hit').
    destruct (nonempty_dentry_in_blk _ 0 b fs) eqn:Ee.
    + apply nonempty_dentry_in_blk_true in Ee. destruct Ee as (k & Hk & Hz).
      left. split; [reflexivity |]. exists b, k.
      split; [left; reflexivity | split; [lia | exact Hz]].
    + destruct (IH fuel it' Hit' ltac:(cbn [List.length] in Hf; lia))
        as [[He (blk & d & Hin & Hd & Hz)] | [He Hall]].
      * left. split; [exact He |]. exists blk, d.
        split; [right; exact Hin | auto].
      * right. split; [exact He |]. intros blk d [<- | Hin] Hd.
        -- apply (nonempty_dentry_in_blk_false fs _ _ _ Ee). lia.
        -- apply Hall; assumption.
Qed.

(** X21.  For a path that resolves to a directory whose extents are inline
    and none of them empty, a1fs_rmdir has two outcomes.  If some entry in
    a block of the directory has a name that does not start with NUL, it
    returns -ENOTEMPTY and the file system is as it was.  If every entry
    of every block has an empty name, it returns 0 and the state is the
    one that remove_dir_entry leaves for the path. *)
Theorem a1fs_rmdir_outcomes path ino fs r fs' :
  path_lookup path fs = Some ino -> 0 <= ino ->
  inline_dir ino fs ->
  a1fs_rmdir path fs = Some (r, fs') ->
  (r = - ENOTEMPTY /\ fs' = fs
   /\ exists blk d, In blk (dir_blocks ino fs) /\ 0 <= d < NUM_DENTRY_PER_BLOCK
                    /\ data_blks fs (dentry_name blk d) <> 0)
  \/ (r = 0 /\ remove_dir_entry path fs = Some fs'
      /\ forall blk d, In blk (dir_blocks ino fs) ->
           0 <= d < NUM_DENTRY_PER_BLOCK ->
           data_blks fs (dentry_name blk d) = 0).
Proof.
  intros Hino _ Hdir. unfold a1fs_rmdir. rewrite Hino.
  destruct (dir_has_entry_spec ino fs Hdir (dir_blocks ino fs)
              (iter_fuel ino fs) (block_iterator_init ino fs)
              ltac:(apply iter_at_init; [assumption | apply same_extents_refl])
              ltac:(apply iter_fuel_enough; [assumption | apply same_extents_refl]))
    as [[He Hex] | [He Hall]]; rewrite He; intro H.
  - injection H as <- <-. left. auto.
  - destruct (remove_dir_entry path fs) as [fs2 |]; [| discriminate].
    injection H as <- <-. right. auto.
Qed.

Lemma a1fs_rmdir_outcomes_witness :
  (path_lookup "/"%string stale_image = Some 0
   /\ 0 <= 0
   /\ inline_dir 0 stale_image
   /\ a1fs_rmdir "/"%string stale_image = Some (- ENOTEMPTY, stale_image))
  /\ ((- ENOTEMPTY = - ENOTEMPTY /\ stale_image = stale_image
       /\ exists blk d,
            In blk (dir_blocks 0 stale_image) /\ 0 <= d < NUM_DENTRY_PER_BLOCK
            /\ data_blks stale_image (dentry_name blk d) <> 0)
      \/ (- ENOTEMPTY = 0
          /\ remove_dir_entry "/"%string stale_image = Some stale_image
          /\ forall blk d,
               In blk (dir_blocks 0 stale_image) ->
               0 <= d < NUM_DENTRY_PER_BLOCK ->
               data_blks stale_image (dentry_name blk d) = 0)).
Proof.
  assert (H1 : path_lookup "/"%string stale_image = Some 0)
    by (vm_compute; reflexivity).
  assert (H2 : 0 <= 0) by lia.
  assert (H3 : inline_dir 0 stale_image) by stale_root_inline.
  assert (H4 : a1fs_rmdir "/"%string stale_image
               = Some (- ENOTEMPTY, stale_image)) by (vm_compute; reflexivity).
  split; [auto |].
  exact (a1fs_rmdir_outcomes "/"%string 0 stale_image (- ENOTEMPTY) stale_image
           H1 H2 H3 H4).
Defined.


(** ** What a1fs_truncate and a1fs_write do to the inode table *)

Lemma copy_loop_tables offset to_fs :
  forall fuel it size cur w buf fs n buf' fs',
    copy_loop fuel it size offset cur w to_fs buf fs = Some (n, buf', fs') ->
    inode_table fs' = inode_table fs /\ superblock fs' = superblock fs
    /\ d_bitmap fs' = d_bitmap fs.
Proof.
  induction fuel as [| fuel IH]; intros it size cur w buf fs n buf' fs' H;
    cbn [copy_loop] in H; [discriminate |].
  destruct (block_iterator_next_blk it fs) as [[blk |] it'].
  2: { injection H as _ _ <-. auto. }
  destruct (size =? 0); [injection H as _ _ <-; auto |].
  destruct (cur - offset <=? A1FS_BLOCK_SIZE).
  - apply IH in H. destruct to_fs; exact H.
  - apply IH in H. exact H.
Qed.

Lemma copy_tables ino buf size offset to_fs fs n buf' fs' :
  copy_between_buf_and_fs ino buf size offset to_fs fs = Some (n, buf', fs') ->
  inode_table fs' = inode_table fs /\ superblock fs' = superblock fs
  /\ d_bitmap fs' = d_bitmap fs.
Proof.
  unfold copy_between_buf_and_fs.
  destruct (copy_loop _ _ _ _ _ _ _ _ _) as [[[m b] f] |] eqn:E; [| discriminate].
  intro H. injection H as _ _ <-. eapply copy_loop_tables. exact E.
Qed.

Lemma alloc_frame_tables ino fs g :
  inode_table g = inode_table fs -> superblock g = superblock fs ->
  alloc_frame ino fs g.
Proof. intros Ht Hs. unfold alloc_frame. rewrite Ht, Hs. auto. Qed.

Lemma alloc_frame_inc_free ino fs k : alloc_frame ino fs (inc_free_dblocks fs k).
Proof. unfold alloc_frame. cbn. auto. Qed.

Lemma shrink_extent_blocks_frame ino idx fs0 size :
  forall n b blk_idx ne fs,
    alloc_frame ino fs
      (snd (shrink_extent_blocks n b blk_idx size ne (get_extent ino idx fs0)
              ino fs)).
Proof.
  induction n as [| n IH]; intros b blk_idx ne fs; cbn [shrink_extent_blocks].
  - apply alloc_frame_refl.
  - destruct (blk_idx * A1FS_BLOCK_SIZE >? size); [| apply IH].
    cbv zeta.
    assert (H3 : alloc_frame ino fs
                   (store_extent_count
                      (inc_free_dblocks
                         (set_d_bitmap fs (bitmap_clear (d_bitmap fs) b)) 1)
                      (get_extent ino idx fs0)
                      (e_count
                         (load_extent
                            (inc_free_dblocks
                               (set_d_bitmap fs (bitmap_clear (d_bitmap fs) b)) 1)
                            (get_extent ino idx fs0)) - 1))).
    { eapply alloc_frame_trans; [apply alloc_frame_bitmap |].
      eapply alloc_frame_trans; [apply alloc_frame_inc_free |].
      apply alloc_frame_store_count. }
    destruct (e_count _ =? 0).
    + eapply alloc_frame_trans; [| apply IH].
      eapply alloc_frame_trans; [exact H3 |].
      destruct (A1FS_NUM_DIRECT_EXTENT =? ne); [| apply alloc_frame_refl].
      eapply alloc_frame_trans; [apply alloc_frame_bitmap |].
      apply alloc_frame_inc_free.
    + eapply alloc_frame_trans; [exact H3 | apply IH].
Qed.

Lemma shrink_extents_frame ino size :
  forall n i blk_idx ne fs,
    alloc_frame ino fs (snd (shrink_extents n i blk_idx size ne ino fs)).
Proof.
  induction n as [| n IH]; intros i blk_idx ne fs; cbn [shrink_extents].
  - apply alloc_frame_refl.
  - cbv zeta.
    pose proof (shrink_extent_blocks_frame ino (i32 i) fs size
                  (extent_span
                     (e_start (load_extent fs (get_extent ino (i32 i) fs)))
                     (i32 (e_count (load_extent fs (get_extent ino (i32 i) fs)))))
                  (e_start (load_extent fs (get_extent ino (i32 i) fs)))
                  blk_idx ne fs) as Hin.
    destruct (shrink_extent_blocks _ _ _ _ _ _ _ _) as [[blk_idx' ne'] fs1].
    cbn [snd] in Hin.
    eapply alloc_frame_trans; [exact Hin | apply IH].
Qed.

Lemma alloc_frame_set_mtime ino t fs :
  (forall j, j <> ino -> inode_table (set_mtime ino t fs) j = inode_table fs j)
  /\ mode (inode_table (set_mtime ino t fs) ino) = mode (inode_table fs ino)
  /\ links (inode_table (set_mtime ino t fs) ino) = links (inode_table fs ino)
  /\ mtime (inode_table (set_mtime ino t fs) ino) = t
  /\ i_size (inode_table (set_mtime ino t fs) ino) = i_size (inode_table fs ino)
  /\ superblock (set_mtime ino t fs) = superblock fs.
Proof.
  unfold set_mtime, set_inode, set_inode_table, upd. cbn [inode_table superblock].
  rewrite Z.eqb_refl. repeat split; try reflexivity.
  intros j Hj. apply Z.eqb_neq in Hj. rewrite Hj. reflexivity.
Qed.

Lemma alloc_frame_set_i_size ino v fs : alloc_frame ino fs (set_i_size ino v fs).
Proof. unfold set_i_size. apply alloc_frame_set_inode; reflexivity. Qed.

(** What [allocate_data_blocks] returns and keeps. *)
Lemma allocate_outcome ino size fs r fs' :
  allocate_data_blocks ino size fs = Some (r, fs') ->
  (r = 0 \/ r = - ENOSPC) /\ same_sizes fs fs' /\ alloc_frame ino fs fs'.
Proof.
  intro H. pose proof (alloc_frame_allocate _ _ _ _ _ H) as Hf.
  split; [| split; [| exact Hf]]; revert H; unfold allocate_data_blocks;
    set (blks_needed := u32 _).
  - destruct (blks_needed =? 0); [intro H; injection H as <- _; auto |].
    destruct (_ <? blks_needed); [intro H; injection H as <- _; auto |].
    destruct (extend_last_extent ino blks_needed fs) as [remainder fs1].
    destruct (alloc_loop_total (Z.to_nat remainder) remainder ino fs1 ltac:(lia))
      as (r0 & fs0 & Hrun & Hr & _).
    rewrite Hrun. intro H. injection H as <- _. exact Hr.
  - destruct (blks_needed =? 0);
      [intro H; injection H as _ <-; apply same_sizes_refl |].
    destruct (_ <? blks_needed);
      [intro H; injection H as _ <-; apply same_sizes_refl |].
    pose proof (same_sizes_extend_last_extent ino blks_needed fs) as Hext.
    destruct (extend_last_extent ino blks_needed fs) as [remainder fs1].
    cbn [snd] in Hext.
    destruct (alloc_loop_total (Z.to_nat remainder) remainder ino fs1 ltac:(lia))
      as (r0 & fs0 & Hrun & _ & Hs).
    rewrite Hrun. intro H. injection H as _ <-.
    eapply same_sizes_trans; eauto.
Qed.

Lemma alloc_frame_facts ino t fs g :
  alloc_frame ino (set_mtime ino t fs) g ->
  mtime (inode_table g ino) = t
  /\ mode (inode_table g ino) = mode (inode_table fs ino)
  /\ links (inode_table g ino) = links (inode_table fs ino)
  /\ (forall j, j <> ino -> inode_table g j = inode_table fs j)
  /\ num_inodes (superblock g) = num_inodes (superblock fs)
  /\ num_free_inodes (superblock g) = num_free_inodes (superblock fs).
Proof.
  intros (A1 & A2 & A3 & A4 & A5).
  destruct (alloc_frame_set_mtime ino t fs) as (B1 & B2 & B3 & B4 & _ & B6).
  rewrite B6 in A5.
  split; [congruence |]. split; [congruence |]. split; [congruence |].
  split; [intros j Hj; rewrite A1, B1 by exact Hj; reflexivity |].
  split; [apply (f_equal num_inodes) in A5; exact A5
         | apply (f_equal num_free_inodes) in A5; exact A5].
Qed.

(** What [a1fs_truncate] does to the inode table and to the superblock,
    in terms of the separate views. *)
Lemma a1fs_truncate_views path size t fs ino r fs' :
  path_lookup path fs = Some ino ->
  a1fs_truncate path size (Some t) fs = Some (r, fs') ->
  (r = 0 \/ r = - ENOSPC)
  /\ (r = 0 -> i_size (inode_table fs' ino) = u64 size)
  /\ mtime (inode_table fs' ino) = t
  /\ mode (inode_table fs' ino) = mode (inode_table fs ino)
  /\ links (inode_table fs' ino) = links (inode_table fs ino)
  /\ (forall j, j <> ino -> inode_table fs' j = inode_table fs j)
  /\ num_inodes (superblock fs') = num_inodes (superblock fs)
  /\ num_free_inodes (superblock fs') = num_free_inodes (superblock fs).
Proof.
  intro Hl. unfold a1fs_truncate. rewrite Hl. cbv zeta.
  remember (set_mtime ino t fs) as fs1 eqn:E1.
  assert (Hgoal : forall g,
             alloc_frame ino fs1 g ->
             (r = 0 \/ r = - ENOSPC) ->
             (r = 0 -> i_size (inode_table g ino) = u64 size) ->
             (r = 0 \/ r = - ENOSPC)
             /\ (r = 0 -> i_size (inode_table g ino) = u64 size)
             /\ mtime (inode_table g ino) = t
             /\ mode (inode_table g ino) = mode (inode_table fs ino)
             /\ links (inode_table g ino) = links (inode_table fs ino)
             /\ (forall j, j <> ino -> inode_table g j = inode_table fs j)
             /\ num_inodes (superblock g) = num_inodes (superblock fs)
             /\ num_free_inodes (superblock g) = num_free_inodes (superblock fs)).
  { intros g Hf Hr Hs. subst fs1.
    split; [exact Hr |]. split; [exact Hs |]. apply alloc_frame_facts. exact Hf. }
  clear E1.
  destruct (u64 size >? i_size (inode_table fs1 ino)).
  - destruct (allocate_data_blocks ino _ fs1) as [[r2 fs2] |] eqn:Ea;
      [| discriminate].
    apply allocate_outcome in Ea. destruct Ea as (Hr2 & _ & Hf2).
    destruct (0 >? r2) eqn:Eneg.
    + intro H. injection H as <- <-. apply Hgoal; [exact Hf2 | auto |].
      intro Hc. unfold ENOSPC in Hc. discriminate Hc.
    + destruct (copy_between_buf_and_fs _ _ _ _ _ _) as [[[n3 b3] fs3] |] eqn:Ec;
        [| discriminate].
      apply copy_tables in Ec. destruct Ec as (Ht3 & Hs3 & _).
      intro H. injection H as <- <-. apply Hgoal; [| auto |].
      * eapply alloc_frame_trans; [exact Hf2 |].
        eapply alloc_frame_trans; [apply alloc_frame_tables; eassumption |].
        apply alloc_frame_set_i_size.
      * intros _. apply i_size_after_set_i_size.
  - destruct (u64 size <? i_size (inode_table fs1 ino)).
    + pose proof (shrink_extents_frame ino size
                    (Z.to_nat (num_extents (inode_table fs1 ino))) 0 0
                    (i32 (num_extents (inode_table fs1 ino))) fs1) as Hsh.
      destruct (shrink_extents _ _ _ _ _ _ _) as [ne' fs2].
      cbn [snd] in Hsh.
      intro H. injection H as <- <-. apply Hgoal; [| auto |].
      * eapply alloc_frame_trans; [exact Hsh |].
        eapply alloc_frame_trans;
          [apply (alloc_frame_set_inode ino fs2
                    (i_set_num_extents (inode_table fs2 ino) (u32 ne')));
           reflexivity |].
        apply alloc_frame_set_i_size.
      * intros _. apply i_size_after_set_i_size.
    + intro H. injection H as <- <-. apply Hgoal; [| auto |].
      * apply alloc_frame_set_i_size.
      * intros _. apply i_size_after_set_i_size.
Qed.



Lemma i_size_tables g fs ino :
  inode_table g = inode_table fs ->
  i_size (inode_table g ino) = i_size (inode_table fs ino).
Proof. intro H. rewrite H. reflexivity. Qed.

(** What [a1fs_write] does to the inode table, in terms of the separate
    views. *)
Lemma a1fs_write_views path buf size offset t fs ino n fs' :
  path_lookup path fs = Some ino ->
  0 <= offset < 2 ^ 63 -> 0 <= size < 2 ^ 63 ->
  0 <= i_size (inode_table fs ino) < 2 ^ 64 ->
  a1fs_write path buf size offset (Some t) fs = Some (n, fs') ->
  mtime (inode_table fs' ino) = t
  /\ mode (inode_table fs' ino) = mode (inode_table fs ino)
  /\ links (inode_table fs' ino) = links (inode_table fs ino)
  /\ (forall j, j <> ino -> inode_table fs' j = inode_table fs j)
  /\ (n = - ENOSPC
      \/ i_size (inode_table fs' ino)
         = u64 (Z.max (i_size (inode_table fs ino)) offset + size)).
Proof.
  intros Hl Ho Hsz Hold. unfold a1fs_write. rewrite Hl. cbv zeta.
  destruct (alloc_frame_set_mtime ino t fs) as (_ & _ & _ & _ & Hsz1 & _).
  remember (set_mtime ino t fs) as fs1 eqn:E1.
  assert (Hgoal : forall g,
             alloc_frame ino fs1 g ->
             (n = - ENOSPC
              \/ i_size (inode_table g ino)
                 = u64 (Z.max (i_size (inode_table fs ino)) offset + size)) ->
             mtime (inode_table g ino) = t
             /\ mode (inode_table g ino) = mode (inode_table fs ino)
             /\ links (inode_table g ino) = links (inode_table fs ino)
             /\ (forall j, j <> ino -> inode_table g j = inode_table fs j)
             /\ (n = - ENOSPC
                 \/ i_size (inode_table g ino)
                    = u64 (Z.max (i_size (inode_table fs ino)) offset + size))).
  { intros g Hf Hs. subst fs1.
    destruct (alloc_frame_facts ino t fs g Hf) as (F1 & F2 & F3 & F4 & _).
    auto. }
  clear E1.
  assert (Huo : u64 offset = offset) by (unfold u64; apply Z.mod_small; lia).
  (* the state after the hole has been filled, and the size it records *)
  assert (Hhole : forall r4 fs4,
             (if u64 offset >? i_size (inode_table fs1 ino)
              then
                match allocate_data_blocks ino
                        (u64 (offset - i_size (inode_table fs1 ino))) fs1 with
                | Some (r, fs2) =>
                    if 0 >? r then Some (- ENOSPC, fs2)
                    else
                      match copy_between_buf_and_fs ino zero_buf
                              (offset - i_size (inode_table fs1 ino))
                              (i_size (inode_table fs2 ino)) true fs2 with
                      | Some (_, _, fs3) =>
                          Some (0, set_i_size ino
                                     (u64 (i_size (inode_table fs3 ino)
                                           + (offset - i_size (inode_table fs1 ino))))
                                     fs3)
                      | None => None
                      end
                | None => None
                end
              else Some (0, fs1)) = Some (r4, fs4) ->
             alloc_frame ino fs1 fs4
             /\ (r4 = - ENOSPC
                 \/ (r4 = 0
                     /\ i_size (inode_table fs4 ino)
                        = Z.max (i_size (inode_table fs ino)) offset))).
  { intros r4 fs4. rewrite Huo.
    destruct (offset >? i_size (inode_table fs1 ino)) eqn:Egt.
    - apply Z.gtb_lt in Egt.
      destruct (allocate_data_blocks ino _ fs1) as [[r2 fs2] |] eqn:Ea;
        [| discriminate].
      apply allocate_outcome in Ea. destruct Ea as (Hr2 & Hss2 & Hf2).
      destruct (0 >? r2).
      + intro H. injection H as <- <-. auto.
      + destruct (copy_between_buf_and_fs _ _ _ _ _ _) as [[[n3 b3] fs3] |] eqn:Ec;
          [| discriminate].
        apply copy_tables in Ec. destruct Ec as (Ht3 & Hs3 & _).
        intro H. injection H as <- <-. split.
        * eapply alloc_frame_trans; [exact Hf2 |].
          eapply alloc_frame_trans; [apply alloc_frame_tables; eassumption |].
          apply alloc_frame_set_i_size.
        * right. split; [reflexivity |].
          rewrite i_size_after_set_i_size.
          rewrite (i_size_tables fs3 fs2 ino Ht3), (Hss2 ino).
          rewrite Hsz1 in *.
          replace (i_size (inode_table fs ino)
                   + (offset - i_size (inode_table fs ino))) with offset by lia.
          rewrite Huo. lia.
    - rewrite Z.gtb_ltb in Egt. apply Z.ltb_ge in Egt.
      intro H. injection H as <- <-. split; [apply alloc_frame_refl |].
      right. split; [reflexivity |]. rewrite Hsz1 in *. lia. }
  match goal with
  | |- match ?hole with _ => _ end = _ -> _ =>
      destruct hole as [[r4 fs4] |]; [| discriminate]
  end.
  destruct (Hhole r4 fs4 eq_refl) as (Hf4 & Hr4). clear Hhole.
  destruct (negb (r4 =? 0)) eqn:Er4.
  { intro H. injection H as <- <-. apply Hgoal; [exact Hf4 |].
    destruct Hr4 as [Hr4 | [Hr4 _]]; [left; exact Hr4 |].
    rewrite Hr4 in Er4. discriminate Er4. }
  destruct Hr4 as [Hr4 | [_ Hs4]];
    [rewrite Hr4 in Er4; discriminate Er4 |].
  destruct (allocate_data_blocks ino (u64 size) fs4) as [[r5 fs5] |] eqn:Ea;
    [| discriminate].
  apply allocate_outcome in Ea. destruct Ea as (Hr5 & Hss5 & Hf5).
  destruct (0 >? r5).
  { intro H. injection H as <- <-. apply Hgoal; [| left; reflexivity].
    eapply alloc_frame_trans; eauto. }
  destruct (copy_between_buf_and_fs _ _ _ _ _ _) as [[[n7 b7] fs7] |] eqn:Ec;
    [| discriminate].
  apply copy_tables in Ec. destruct Ec as (Ht7 & Hs7 & _).
  intro H. injection H as <- <-. apply Hgoal.
  - eapply alloc_frame_trans; [exact Hf4 |].
    eapply alloc_frame_trans; [exact Hf5 |].
    eapply alloc_frame_trans; [apply alloc_frame_set_i_size |].
    apply alloc_frame_tables; eassumption.
  - right. rewrite (i_size_tables _ _ ino Ht7), i_size_after_set_i_size.
    rewrite (Hss5 ino), Hs4. reflexivity.
Qed.


